(** * NomadStore: the ACME write-through store backed by Nomad Variables

    A shallow embedding of [pkg/provider/acme]'s [NomadStore] (the production
    half of [src/unnamed/part_000]) together with the mock Nomad Variables
    client its unit tests use (the test half of the same file).

    Conventions of the embedding.
    - A Go [string] is a byte sequence; Rocq's [string] (a list of 8-bit
      [ascii]) is used for it, and also for a [[]byte] converted with
      [string(b)].
    - A Go map is a [gmap]; [v, exists := m[k]] is [m !! k], which tells a
      key bound to a nil value ([Some None]) from an absent key ([None]).
    - A pointer [*T] is [ptr T := option T], [None] being the nil pointer;
      a slice [[]T] is [slice T := option (list T)], [None] being the nil
      slice, so that a nil result is told from an empty one.
    - A Go [error] result is [option error], [None] being the nil error, and a
      multi-valued return is a tuple in the order of the source.
    - Every exported method takes [ns.lock] on entry and releases it by
      [defer] on exit, so the body of a method runs atomically with respect
      to the others; a method is therefore a function from the state of the
      store before the call to the state after it and the returned values.
      The state of the store includes the state of the client it points to. *)

From Stdlib Require Import String Ascii ZArith List.
From Stdlib Require Strings.Byte.
From stdpp Require Import base option gmap strings pretty relations.

Local Open Scope string_scope.

(** ** Go values *)

Abbreviation ptr T := (option T) (only parsing).
Abbreviation slice T := (option (list T)) (only parsing).

(** What a call does when it does not run off the end: it returns, or it
    panics (here only by dereferencing a nil pointer). *)
Inductive outcome (R : Type) : Type :=
| Returns (r : R)
| Panics.
Arguments Returns {R} r.
Arguments Panics {R}.

(** Go's [int] on the 64-bit platforms Traefik is built for. *)
Definition int_wrap (z : Z) : Z := ((z + 2 ^ 63) mod 2 ^ 64 - 2 ^ 63)%Z.
Definition int_incr (z : Z) : Z := int_wrap (z + 1).

(** ** The pieces of the Go standard library the store calls *)

Module strings.

Fixpoint drop (n : nat) (s : string) : string :=
  match n, s with
  | O, _ => s
  | S _, EmptyString => EmptyString
  | S n', String _ s' => drop n' s'
  end.

Definition HasPrefix (s prefix : string) : bool := String.prefix prefix s.

(** [if HasPrefix(s, prefix) { return s[len(prefix):] }; return s] *)
Definition TrimPrefix (s prefix : string) : string :=
  if HasPrefix s prefix then drop (String.length prefix) s else s.

Definition byte_is_ascii (c : ascii) : bool := (N_of_ascii c <? 128)%N.
Definition byte_is_upper (c : ascii) : bool :=
  ((65 <=? N_of_ascii c)%N && (N_of_ascii c <=? 90)%N)%bool.

(** [c += 'a' - 'A'] on an upper-case byte. *)
Definition byte_to_lower (c : ascii) : ascii :=
  if byte_is_upper c then ascii_of_N (N_of_ascii c + 32) else c.

Fixpoint all_bytes (p : ascii -> bool) (s : string) : bool :=
  match s with
  | EmptyString => true
  | String c s' => (p c && all_bytes p s')%bool
  end.

Fixpoint map_bytes (f : ascii -> ascii) (s : string) : string :=
  match s with
  | EmptyString => EmptyString
  | String c s' => String (f c) (map_bytes f s')
  end.

(** [strings.ToLower]: a string of ASCII bytes is lowered byte by byte (and
    returned as it is when it has no upper-case byte, which the byte-wise
    map also does); any other string goes through
    [Map(unicode.ToLower, s)], which is left to [unicode_lower]. *)
Definition ToLower (unicode_lower : string -> string) (s : string) : string :=
  if all_bytes byte_is_ascii s then map_bytes byte_to_lower s
  else unicode_lower s.

End strings.

(** The library functions that are taken as they come: [path.Join] on two
    elements, and [strings.Map(unicode.ToLower, _)] for strings that are not
    plain ASCII. *)
Class GoLibrary : Type := {
  path_Join : string -> string -> string;
  unicode_lower : string -> string
}.

(** ** Errors *)

(** The error values that can flow through the store. The two sentinels are
    package-level variables compared by identity; [errorString] is what
    [errors.New] makes, [wrapError] an error that wraps another one
    ([fmt.Errorf] with [%w]), and [jsonError] an error made by
    [encoding/json], which builds its own error values and never returns or
    wraps a sentinel of the Nomad API. *)
Inductive error : Type :=
| ErrNoNomadVariableForResolver
| ErrVariablePathNotFound
| errorString (msg : string)
| wrapError (msg : string) (inner : error)
| jsonError (msg : string).

#[global] Instance error_eq_dec : EqDecision error.
Proof. solve_decision. Defined.

Module errors.

(** [errors.Is]: walk the chain of wrapped errors looking for [target]. *)
Fixpoint Is_chain (err target : error) : bool :=
  if decide (err = target) then true
  else match err with
       | wrapError _ inner => Is_chain inner target
       | _ => false
       end.

(** A nil error is no error at all. *)
Definition Is (err : option error) (target : error) : bool :=
  match err with
  | None => false
  | Some e => Is_chain e target
  end.

End errors.

(** ** The data carried by the store *)

(** Modelled from the spec: the declarations of [Account], [Certificate],
    [CertAndStore], [types.Domain] and of lego's [registration.Resource] and
    [acme.Account] are not part of the sources at hand; the fields are those
    of the payload formats of the specification, which are also the fields
    the literals [account1] and [cert1] of the tests fill in. *)
Module acme.
Record Account : Type := {
  Status : string;
  Contact : slice string;
  TermsOfServiceAgreed : bool
}.
End acme.

Module registration.
Record Resource : Type := {
  Body : acme.Account;
  URI : string
}.
End registration.

Module types.
Record Domain : Type := {
  Main : string;
  SANs : slice string
}.
End types.

Record Account : Type := {
  Email : string;
  Registration : ptr registration.Resource;
  PrivateKey : slice Byte.byte;
  KeyType : string
}.

Record Certificate : Type := {
  Domain : types.Domain;
  Certificate_ : slice Byte.byte;
  Key : slice Byte.byte
}.

Record CertAndStore : Type := {
  Certificate__ : Certificate;
  Store : string
}.

#[global] Instance byte_eq_dec : EqDecision Byte.byte := Byte.byte_eq_dec.
#[global] Instance acme_Account_eq_dec : EqDecision acme.Account.
Proof. solve_decision. Defined.
#[global] Instance Resource_eq_dec : EqDecision registration.Resource.
Proof. solve_decision. Defined.
#[global] Instance Domain_eq_dec : EqDecision types.Domain.
Proof. solve_decision. Defined.
#[global] Instance Account_eq_dec : EqDecision Account.
Proof. solve_decision. Defined.
#[global] Instance Certificate_eq_dec : EqDecision Certificate.
Proof. solve_decision. Defined.
#[global] Instance CertAndStore_eq_dec : EqDecision CertAndStore.
Proof. solve_decision. Defined.

(** ** encoding/json *)

(** [put] and [get] are generic in the type [T] of the item. What they need
    of [T] is [encoding/json] at that type: [json.Marshal(item)] gives the
    bytes and an error, and [json.Unmarshal(data, &value)] overwrites [value]
    and gives an error. An error of [encoding/json] is a [jsonError] carrying
    its message. *)
Class JSON (T : Type) : Type := {
  json_Marshal : T -> string * option string;
  json_Unmarshal : string -> T -> T * option string
}.

(** ** The Nomad API *)

Module api.

(** [api.VariableItems] is [map[string]string]; of [api.Variable] (here
    [Variable_], the bare name being a keyword) the store sets [Path] and
    [Items] and nothing else. *)
Record Variable_ : Type := {
  Path : string;
  Items : gmap string string
}.

End api.

(** [nomadVariablesAPI], the subset of the Nomad client the store needs. A
    call may change the state of the client; of the values [Create] returns
    the store keeps the error only, and of those of [GetVariableItems] the
    items and the error (the option arguments are always nil). *)
Class nomadVariablesAPI (C : Type) : Type := {
  Create : api.Variable_ -> C -> C * option error;
  GetVariableItems : string -> C -> C * (gmap string string * option error)
}.

(** ** The store *)

Definition envNomadToken : string := "NOMAD_TOKEN".
Definition envNomadSecretsDir : string := "NOMAD_SECRETS_DIR".
Definition envNomadJob : string := "NOMAD_JOB_NAME".
Definition envNomadGroup : string := "NOMAD_GROUP".
Definition envNomadTask : string := "NOMAD_TASK_NAME".

Definition nomadStoreAccountType : string := "account".
Definition nomadStoreCertsType : string := "certificates".

(** The process environment; [os.Getenv] gives the empty string for a
    variable that is not set. *)
Module os.
Definition Getenv (env : gmap string string) (key : string) : string :=
  default "" (env !! key).
End os.

Record NomadStore (C : Type) : Type := mkNomadStore {
  client : C;
  certCache : gmap string (slice (ptr CertAndStore));
  accountCache : gmap string (ptr Account);
  paths : gmap string string
}.
Arguments mkNomadStore {C} _ _ _ _.
Arguments client {C} _.
Arguments certCache {C} _.
Arguments accountCache {C} _.
Arguments paths {C} _.

(** Field updates ([ns.client = c], [ns.paths[k] = v], ...). *)
Definition set_client {C D : Type} (c : D) (ns : NomadStore C) : NomadStore D :=
  mkNomadStore c (certCache ns) (accountCache ns) (paths ns).
Definition set_certCache {C : Type}
    (m : gmap string (slice (ptr CertAndStore))) (ns : NomadStore C) : NomadStore C :=
  mkNomadStore (client ns) m (accountCache ns) (paths ns).
Definition set_accountCache {C : Type}
    (m : gmap string (ptr Account)) (ns : NomadStore C) : NomadStore C :=
  mkNomadStore (client ns) (certCache ns) m (paths ns).
Definition set_paths {C : Type} (m : gmap string string) (ns : NomadStore C) : NomadStore C :=
  mkNomadStore (client ns) (certCache ns) (accountCache ns) m.

(** The zero value of a type, [var value T]. *)
Class Zero (T : Type) : Type := zero : T.
#[global] Instance ptr_Zero (T : Type) : Zero (ptr T) := None.
#[global] Instance slice_Zero (T : Type) : Zero (slice T) := None.

Module fmt.
(** [fmt.Sprintf("nomad/jobs/%s/%s/%s/acme/%s", job, group, task, resolver)];
    the verb [%s] writes a string argument as it is. *)
Definition Sprintf_variables_path (job group task resolver : string) : string :=
  "nomad/jobs/" +:+ job +:+ "/" +:+ group +:+ "/" +:+ task +:+ "/acme/" +:+ resolver.
End fmt.

Section Store.
Context `{GoLibrary}.
Context {C : Type} `{nomadVariablesAPI C}.
Context `{JSON (ptr Account)} `{JSON (slice (ptr CertAndStore))}.

(** [MaybeNewNomadStore]: nil unless both the token and the secrets directory
    are set; [taskClient] stands for [api.TaskClient(nil).Variables()]. *)
Definition MaybeNewNomadStore (env : gmap string string) (taskClient : C) : ptr (NomadStore C) :=
  if (bool_decide (os.Getenv env envNomadToken = "")
      || bool_decide (os.Getenv env envNomadSecretsDir = ""))%bool
  then None
  else Some {| paths := ∅; certCache := ∅; accountCache := ∅; client := taskClient |}.

(** [SetResolver] reads the environment, then takes the lock and stores the
    path; it returns the store itself. *)
Definition SetResolver (env : gmap string string) (resolverName variablesPath : string)
    (ns : NomadStore C) : NomadStore C :=
  let p := strings.TrimPrefix variablesPath "nomad://" in
  let p :=
    if decide (p = "") then
      let job := os.Getenv env envNomadJob in
      let group := os.Getenv env envNomadGroup in
      let task := os.Getenv env envNomadTask in
      let resolver := strings.ToLower unicode_lower resolverName in
      fmt.Sprintf_variables_path job group task resolver
    else p in
  set_paths (<[resolverName := p]> (paths ns)) ns.

Definition pathForResolverLocked (ns : NomadStore C) (resolverName itemType : string)
    : string * bool :=
  match paths ns !! resolverName with
  | Some resolverPath =>
      if decide (resolverPath = "") then ("", false)
      else (path_Join resolverPath itemType, true)
  | None => ("", false)
  end.

Definition put {T : Type} `{JSON T} (ns : NomadStore C) (varPath key : string) (item : T)
    : NomadStore C * option error :=
  match json_Marshal item with
  | (_, Some msg) => (ns, Some (jsonError msg))
  | (b, None) =>
      let variable := {| api.Path := varPath; api.Items := {[ key := b ]} |} in
      let '(c, err) := Create variable (client ns) in
      (set_client c ns, err)
  end.

Definition get {T : Type} `{Zero T} `{JSON T} (ns : NomadStore C) (varPath key : string)
    : NomadStore C * (T * option error) :=
  let value : T := zero in
  let '(c, (items, err)) := GetVariableItems varPath (client ns) in
  let ns := set_client c ns in
  match err with
  | Some e => (ns, (value, Some e))
  | None =>
      let s := default "" (items !! key) in
      match json_Unmarshal s value with
      | (value, Some msg) => (ns, (value, Some (jsonError msg)))
      | (value, None) => (ns, (value, None))
      end
  end.

Definition GetAccount (resolverName : string) (ns : NomadStore C)
    : NomadStore C * (ptr Account * option error) :=
  match accountCache ns !! resolverName with
  | Some account => (ns, (account, None))
  | None =>
      let '(accountPath, exists_) :=
        pathForResolverLocked ns resolverName nomadStoreAccountType in
      if negb exists_ then (ns, (None, Some ErrNoNomadVariableForResolver))
      else
        let '(ns, (account, err)) := get ns accountPath nomadStoreAccountType in
        if errors.Is err ErrVariablePathNotFound then (ns, (None, None))
        else match err with
             | Some e => (ns, (None, Some e))
             | None =>
                 (set_accountCache (<[resolverName := account]> (accountCache ns)) ns,
                  (account, None))
             end
  end.

(** The argument [account.Email] of the logging call is evaluated after the
    cache is written and before the path is looked up: a nil [account] panics
    there, with the cache already updated. *)
Definition SaveAccount (resolverName : string) (account : ptr Account) (ns : NomadStore C)
    : NomadStore C * outcome (option error) :=
  let ns := set_accountCache (<[resolverName := account]> (accountCache ns)) ns in
  match account with
  | None => (ns, Panics)
  | Some _ =>
      let '(accountPath, exists_) :=
        pathForResolverLocked ns resolverName nomadStoreAccountType in
      if negb exists_ then (ns, Returns (Some ErrNoNomadVariableForResolver))
      else
        let '(ns, err) := put ns accountPath nomadStoreAccountType account in
        (ns, Returns err)
  end.

Definition GetCertificates (resolverName : string) (ns : NomadStore C)
    : NomadStore C * (slice (ptr CertAndStore) * option error) :=
  match certCache ns !! resolverName with
  | Some certificates => (ns, (certificates, None))
  | None =>
      let '(certPath, exists_) :=
        pathForResolverLocked ns resolverName nomadStoreCertsType in
      if negb exists_ then (ns, (None, Some ErrNoNomadVariableForResolver))
      else
        let '(ns, (certificates, err)) := get ns certPath nomadStoreCertsType in
        if errors.Is err ErrVariablePathNotFound then (ns, (None, None))
        else match err with
             | Some e => (ns, (None, Some e))
             | None =>
                 (set_certCache (<[resolverName := certificates]> (certCache ns)) ns,
                  (certificates, None))
             end
  end.

Definition SaveCertificates (resolverName : string) (certificates : slice (ptr CertAndStore))
    (ns : NomadStore C) : NomadStore C * option error :=
  let ns := set_certCache (<[resolverName := certificates]> (certCache ns)) ns in
  let '(certPath, exists_) := pathForResolverLocked ns resolverName nomadStoreCertsType in
  if negb exists_ then (ns, Some ErrNoNomadVariableForResolver)
  else put ns certPath nomadStoreCertsType certificates.

End Store.

(** ** The mock client of the unit tests *)

Record mockNomadVariablesAPI : Type := mkMock {
  createErr : option error;
  getVarItemsErr : option error;
  variables : gmap string api.Variable_;
  createHitCounter : Z;
  getVarHitCounter : Z
}.

Definition newMockNomadVariablesAPI : mockNomadVariablesAPI :=
  {| createErr := None; getVarItemsErr := None; variables := ∅;
     createHitCounter := 0; getVarHitCounter := 0 |}.

Module mock.

Definition Create (v : api.Variable_) (m : mockNomadVariablesAPI)
    : mockNomadVariablesAPI * option error :=
  let m := mkMock (createErr m) (getVarItemsErr m) (variables m)
                  (int_incr (createHitCounter m)) (getVarHitCounter m) in
  match createErr m with
  | Some e => (m, Some e)
  | None =>
      (mkMock (createErr m) (getVarItemsErr m) (<[api.Path v := v]> (variables m))
              (createHitCounter m) (getVarHitCounter m),
       None)
  end.

(** A nil map of items is returned next to an error; it reads as the empty
    map. *)
Definition GetVariableItems (path : string) (m : mockNomadVariablesAPI)
    : mockNomadVariablesAPI * (gmap string string * option error) :=
  let m := mkMock (createErr m) (getVarItemsErr m) (variables m)
                  (createHitCounter m) (int_incr (getVarHitCounter m)) in
  match getVarItemsErr m with
  | Some e => (m, (∅, Some e))
  | None =>
      match variables m !! path with
      | None => (m, (∅, Some ErrVariablePathNotFound))
      | Some v => (m, (api.Items v, None))
      end
  end.

End mock.

#[global] Instance mock_nomadVariablesAPI : nomadVariablesAPI mockNomadVariablesAPI := {
  Create := mock.Create;
  GetVariableItems := mock.GetVariableItems
}.

(** ** The fixtures of the unit tests *)

Module fixture.

(** [setNomadStoreEnv] *)
Definition env : gmap string string :=
  <[envNomadTask := "task1"]>
    (<[envNomadGroup := "group1"]>
       (<[envNomadJob := "job1"]>
          (<[envNomadSecretsDir := "/some/path"]>
             (<[envNomadToken := "659c8d84-1b2d-73ee-f6bb-6b2421055a61"]> ∅)))).

Definition account1_value : Account :=
  {| Email := "test@example.com";
     Registration :=
       Some {| registration.Body :=
                 {| acme.Status := "valid";
                    acme.Contact := Some ["test@example.com"];
                    acme.TermsOfServiceAgreed := true |};
               registration.URI := "https://example.com/dir" |};
     PrivateKey := Some [Byte.x01; Byte.x02; Byte.x03; Byte.x04; Byte.x05];
     KeyType := "FAKE" |}.

(** [account1 = &Account{...}] *)
Definition account1 : ptr Account := Some account1_value.

Definition cert1_value : CertAndStore :=
  {| Certificate__ :=
       {| Domain := {| types.Main := "subject"; types.SANs := Some ["one"; "two"] |};
          Certificate_ := Some [Byte.x09; Byte.x08; Byte.x07; Byte.x06; Byte.x05];
          Key := Some [Byte.x05; Byte.x06; Byte.x07; Byte.x08; Byte.x09] |};
     Store := "default" |}.

(** [cert1 = &CertAndStore{...}] *)
Definition cert1 : ptr CertAndStore := Some cert1_value.

(** A string between double quotes. *)
Definition quoted (s : string) : string :=
  String "034"%char s +:+ String "034"%char "".

(** [account1JSON] and [certs1JSON], without their white space. *)
Definition account1JSON : string :=
  "{" +:+ quoted "Email" +:+ ":" +:+ quoted "test@example.com" +:+ ","
  +:+ quoted "Registration" +:+ ":{" +:+ quoted "Body" +:+ ":{"
  +:+ quoted "status" +:+ ":" +:+ quoted "valid" +:+ ","
  +:+ quoted "contact" +:+ ":[" +:+ quoted "test@example.com" +:+ "],"
  +:+ quoted "termsOfServiceAgreed" +:+ ":true},"
  +:+ quoted "URI" +:+ ":" +:+ quoted "https://example.com/dir" +:+ "},"
  +:+ quoted "PrivateKey" +:+ ":[1,2,3,4,5],"
  +:+ quoted "KeyType" +:+ ":" +:+ quoted "FAKE" +:+ "}".

Definition certs1JSON : string :=
  "[{" +:+ quoted "Domain" +:+ ":{" +:+ quoted "Main" +:+ ":" +:+ quoted "subject" +:+ ","
  +:+ quoted "SANs" +:+ ":[" +:+ quoted "one" +:+ "," +:+ quoted "two" +:+ "]},"
  +:+ quoted "Certificate" +:+ ":[9,8,7,6,5],"
  +:+ quoted "Key" +:+ ":[5,6,7,8,9],"
  +:+ quoted "Store" +:+ ":" +:+ quoted "default" +:+ "}]".

(** What [json.Marshal] writes for [account1] and for the list of [cert1]:
    no white space, a byte slice in base64, and the field names of the
    struct tags where a struct has them (lego's [registration.Resource] and
    [acme.Account], traefik's [Certificate] and [types.Domain]; [Account] and
    [CertAndStore] have none). The tags are declared outside the sources at
    hand: no statement below says what these bytes are, only that the
    encoder accepts the two values and that the decoder gives them back. *)
Definition account1Marshaled : string :=
  "{" +:+ quoted "Email" +:+ ":" +:+ quoted "test@example.com" +:+ ","
  +:+ quoted "Registration" +:+ ":{" +:+ quoted "body" +:+ ":{"
  +:+ quoted "status" +:+ ":" +:+ quoted "valid" +:+ ","
  +:+ quoted "contact" +:+ ":[" +:+ quoted "test@example.com" +:+ "],"
  +:+ quoted "termsOfServiceAgreed" +:+ ":true},"
  +:+ quoted "uri" +:+ ":" +:+ quoted "https://example.com/dir" +:+ "},"
  +:+ quoted "PrivateKey" +:+ ":" +:+ quoted "AQIDBAU=" +:+ ","
  +:+ quoted "KeyType" +:+ ":" +:+ quoted "FAKE" +:+ "}".

Definition certs1Marshaled : string :=
  "[{" +:+ quoted "domain" +:+ ":{" +:+ quoted "main" +:+ ":" +:+ quoted "subject" +:+ ","
  +:+ quoted "sans" +:+ ":[" +:+ quoted "one" +:+ "," +:+ quoted "two" +:+ "]},"
  +:+ quoted "certificate" +:+ ":" +:+ quoted "CQgHBgU=" +:+ ","
  +:+ quoted "key" +:+ ":" +:+ quoted "BQYHCAk=" +:+ ","
  +:+ quoted "Store" +:+ ":" +:+ quoted "default" +:+ "}]".

(** [encoding/json] on the payloads of the scenarios, by cases.
    - [json.Marshal] writes a nil pointer and a nil slice as [null], and
      [account1] and the list of [cert1] as above. It returns no error on a
      value of these types; the values that are not listed here are outside
      the table (the last case), and no scenario encodes one.
    - [json.Unmarshal] reads [null] as nil; it reads the literals of the
      tests, in which the field names differ from the tags by case only and
      the byte slices are arrays of numbers, and the bytes written by
      [json.Marshal], as [account1] and as the list of [cert1]; the empty
      input, and an input that stops after an opening brace, are the syntax
      error [unexpected end of JSON input], which leaves the value as it is.
      The inputs that are not listed are outside the table (the last case),
      and no scenario decodes one. *)
Definition eof_message : string := "unexpected end of JSON input".
Definition table_message : string := "json: not a payload of the tests".

#[export] Instance account_JSON : JSON (ptr Account) := {
  json_Marshal := fun item : ptr Account =>
    if decide (item = None) then ("null", None)
    else if decide (item = account1) then (account1Marshaled, None)
    else ("", Some table_message);
  json_Unmarshal := fun (s : string) (value : ptr Account) =>
    if decide (s = "null") then (None, None)
    else if decide (s = account1JSON) then (account1, None)
    else if decide (s = account1Marshaled) then (account1, None)
    else if decide (s = "") then (value, Some eof_message)
    else if decide (s = "{") then (value, Some eof_message)
    else (value, Some table_message)
}.

#[export] Instance certs_JSON : JSON (slice (ptr CertAndStore)) := {
  json_Marshal := fun item : slice (ptr CertAndStore) =>
    if decide (item = None) then ("null", None)
    else if decide (item = Some [cert1]) then (certs1Marshaled, None)
    else ("", Some table_message);
  json_Unmarshal := fun (s : string) (value : slice (ptr CertAndStore)) =>
    if decide (s = "null") then (None, None)
    else if decide (s = certs1JSON) then (Some [cert1], None)
    else if decide (s = certs1Marshaled) then (Some [cert1], None)
    else if decide (s = "") then (value, Some eof_message)
    else if decide (s = "{") then (value, Some eof_message)
    else (value, Some table_message)
}.

(** [path.Join] on two clean, relative, non-empty elements, which is what
    the paths of the tests are; the non-ASCII branch of [ToLower] is not
    reached by them. *)
#[export] Instance library : GoLibrary := {
  path_Join := fun a b => a +:+ "/" +:+ b;
  unicode_lower := fun s => s
}.

(** [ns := MaybeNewNomadStore(); ns.client = m] in the environment above. *)
Definition newStore (m : mockNomadVariablesAPI) : NomadStore mockNomadVariablesAPI :=
  match MaybeNewNomadStore env m with
  | Some ns => ns
  | None => mkNomadStore m ∅ ∅ ∅
  end.

(** ... followed by [ns.SetResolver("le", "nomad://")]. *)
Definition boundStore (m : mockNomadVariablesAPI) : NomadStore mockNomadVariablesAPI :=
  SetResolver env "le" "nomad://" (newStore m).

Definition lePath : string := "nomad/jobs/job1/group1/task1/acme/le".

(** The mocks of the scenarios: one whose reads fail, one whose writes fail
    ([errors.New("oops")]), and three that hold a variable already: the
    account, resp. the certificates, of the tests, a payload that is not
    JSON, and a set of items without the key of the artifact. *)
Definition oops : error := errorString "oops".

Definition mockReadFails : mockNomadVariablesAPI :=
  mkMock None (Some oops) ∅ 0 0.

Definition mockWriteFails : mockNomadVariablesAPI :=
  mkMock (Some oops) None ∅ 0 0.

Definition mockHolding (path key payload : string) : mockNomadVariablesAPI :=
  fst (mock.Create {| api.Path := path; api.Items := {[ key := payload ]} |}
         newMockNomadVariablesAPI).

End fixture.

(** ** What it is for an owner to be bound *)

(** A resolver is bound to [p] when [paths] maps it to [p] and [p] is not the
    empty string: [pathForResolverLocked] refuses an empty path just as it
    refuses a missing one. [SetResolver], the only writer of [paths], never
    stores an empty path ([SetResolver_bound_to]), so in a store made by
    [MaybeNewNomadStore] and used through its methods every entry of [paths]
    is such a binding ([paths_nonempty_bound_to]). *)
Definition bound_to {C : Type} (ns : NomadStore C) (resolverName p : string) : Prop :=
  paths ns !! resolverName = Some p /\ p <> "".

(** No resolver is mapped to the empty path. *)
Definition paths_nonempty {C : Type} (ns : NomadStore C) : Prop :=
  forall resolverName p, paths ns !! resolverName = Some p -> p <> "".

(** [GetAccount], resp. [GetCertificates], called [n] times in a row on the
    same resolver: the state after the last call and the results in order. *)
Fixpoint GetAccount_times `{GoLibrary} {C : Type} `{nomadVariablesAPI C}
    `{JSON (ptr Account)} (n : nat) (resolverName : string) (ns : NomadStore C)
    : NomadStore C * list (ptr Account * option error) :=
  match n with
  | O => (ns, [])
  | S n' =>
      let '(ns1, r) := GetAccount resolverName ns in
      let '(ns2, rs) := GetAccount_times n' resolverName ns1 in
      (ns2, r :: rs)
  end.

Fixpoint GetCertificates_times `{GoLibrary} {C : Type} `{nomadVariablesAPI C}
    `{JSON (slice (ptr CertAndStore))} (n : nat) (resolverName : string) (ns : NomadStore C)
    : NomadStore C * list (slice (ptr CertAndStore) * option error) :=
  match n with
  | O => (ns, [])
  | S n' =>
      let '(ns1, r) := GetCertificates resolverName ns in
      let '(ns2, rs) := GetCertificates_times n' resolverName ns1 in
      (ns2, r :: rs)
  end.

(** The client after [n] calls of [GetVariableItems] on [path]. *)
Fixpoint read_times {C : Type} `{nomadVariablesAPI C} (n : nat) (path : string) (c : C) : C :=
  match n with
  | O => c
  | S n' => read_times n' path (fst (GetVariableItems path c))
  end.

(** The next [n] reads of [path] all report that the path is not found. *)
Fixpoint absent_for {C : Type} `{nomadVariablesAPI C} (n : nat) (path : string) (c : C) : Prop :=
  match n with
  | O => True
  | S n' =>
      errors.Is (snd (snd (GetVariableItems path c))) ErrVariablePathNotFound = true
      /\ absent_for n' path (fst (GetVariableItems path c))
  end.

(** ** The life of a store *)

(** What a user of the package can do to a store: call one of its five
    methods, or, as the tests do, assign its [client] field. *)
Inductive step `{GoLibrary} {C : Type} `{nomadVariablesAPI C}
    `{JSON (ptr Account)} `{JSON (slice (ptr CertAndStore))}
    : NomadStore C -> NomadStore C -> Prop :=
| step_SetResolver env resolverName variablesPath ns :
    step ns (SetResolver env resolverName variablesPath ns)
| step_GetAccount resolverName ns :
    step ns (fst (GetAccount resolverName ns))
| step_SaveAccount resolverName account ns :
    step ns (fst (SaveAccount resolverName account ns))
| step_GetCertificates resolverName ns :
    step ns (fst (GetCertificates resolverName ns))
| step_SaveCertificates resolverName certificates ns :
    step ns (fst (SaveCertificates resolverName certificates ns))
| step_client c ns :
    step ns (set_client c ns).

(** The stores a program can hold: made by [MaybeNewNomadStore], then used. *)
Definition reachable `{GoLibrary} {C : Type} `{nomadVariablesAPI C}
    `{JSON (ptr Account)} `{JSON (slice (ptr CertAndStore))} (ns : NomadStore C) : Prop :=
  exists env taskClient ns0,
    MaybeNewNomadStore env taskClient = Some ns0 /\ rtc step ns0 ns.

(** * The Nomad provider: from the tags of a service to its servers

    The second file, [pkg/provider/nomad/config.go]. *)

Module strconv.
(** [strconv.Itoa]: the decimal writing of an [int], with a minus sign in
    front of a negative one. *)
Definition Itoa (i : Z) : string := pretty i.
End strconv.

Module net.

Fixpoint has_byte (c : ascii) (s : string) : bool :=
  match s with
  | EmptyString => false
  | String d s' => (bool_decide (d = c) || has_byte c s')%bool
  end.

(** [net.JoinHostPort]: a host with a colon in it is taken for a literal
    IPv6 address and put in brackets. *)
Definition JoinHostPort (host port : string) : string :=
  if has_byte ":" host then "[" +:+ host +:+ "]:" +:+ port
  else host +:+ ":" +:+ port.

End net.

Module strings2.

(** [s[:m]] and [s[m+1:]] for [m] the index of the first [sep] in [s]. *)
Fixpoint cut (sep : ascii) (s : string) : option (string * string) :=
  match s with
  | EmptyString => None
  | String c s' =>
      if decide (c = sep) then Some ("", s')
      else match cut sep s' with
           | Some (a, b) => Some (String c a, b)
           | None => None
           end
  end.

(** The loop of [genSplit]: at most [n] cuts, then what is left. *)
Fixpoint split_loop (n : nat) (sep : ascii) (s : string) : list string :=
  match n with
  | O => [s]
  | S n' =>
      match cut sep s with
      | None => [s]
      | Some (a, b) => a :: split_loop n' sep b
      end
  end.

(** [strings.SplitN(s, sep, n)] for a separator of one byte and [n >= 0]:
    nil for [n = 0]; otherwise [n] is capped at [len(s) + 1] and the string
    is cut at most [n - 1] times. *)
Definition SplitN (s : string) (sep : ascii) (n : nat) : list string :=
  match n with
  | O => []
  | S _ => split_loop (Nat.min n (String.length s + 1) - 1) sep s
  end.

End strings2.

(** ** Pointers, and loops over maps

    The services of a configuration hold their load balancer by pointer, and
    two services may hold the same one: the load balancers live in a heap,
    by location. A pointer of Go is nil or points to a live object; a
    location the heap does not hold is no pointer of the program, and a
    call through it is a panic here. *)
Abbreviation loc := positive (only parsing).
Abbreviation heap T := (gmap positive T) (only parsing).

(** [new(T)]: a location that is not in use. *)
Definition new_loc {T : Type} (h : heap T) : loc := fresh (dom h).

(** A call [f(p)] of a function that changes what its pointer argument
    points to, and returns an error. *)
Definition call_on {T : Type} (f : ptr T -> ptr T * outcome (option error))
    (p : ptr loc) (h : heap T) : heap T * outcome (option error) :=
  match p with
  | None => (h, snd (f None))
  | Some l =>
      match h !! l with
      | None => (h, Panics)
      | Some v =>
          let '(v', r) := f (Some v) in
          (match v' with Some v' => <[l := v']> h | None => h end, r)
      end
  end.

(** [for _, v := range vs { if err := body(v); err != nil { return err } };
    return nil], on the values in the order they are visited. *)
Fixpoint for_range {V St : Type} (body : V -> St -> St * outcome (option error))
    (vs : list V) (st : St) : St * outcome (option error) :=
  match vs with
  | [] => (st, Returns None)
  | v :: vs =>
      let '(st, r) := body v st in
      match r with
      | Returns None => for_range body vs st
      | _ => (st, r)
      end
  end.

(** The order in which [range] visits a map is not specified: it is a
    parameter, from the set of keys to a list of them (a permutation of the
    keys, for the runtime of Go). The values are visited in that order. *)
Definition range_order : Type := gset string -> list string.

Definition range_values {V : Type} (order : range_order) (m : gmap string V) : list V :=
  omap (fun k => m !! k) (order (dom m)).

(** The state a loop ends in when every pass returned a nil error. *)
Fixpoint all_ok {V St : Type} (body : V -> St -> St * outcome (option error))
    (vs : list V) (st : St) : option St :=
  match vs with
  | [] => Some st
  | v :: vs =>
      match body v st with
      | (st, Returns None) => all_ok body vs st
      | _ => None
      end
  end.

(** [provider.Normalize], which is not in the sources at hand. *)
Class ProviderLibrary : Type := provider_Normalize : string -> string.

Module dynamic.

(** Of the types of [pkg/config/dynamic] the functions below touch these
    fields; what else a value carries is its [_other] component, of a type
    left open, which the functions pass along. *)
Record TCPServer (R : Type) : Type := mkTCPServer {
  tcp_Address : string;
  tcp_Port : string;
  tcp_other : R
}.
Arguments mkTCPServer {R} _ _ _.
Arguments tcp_Address {R} _.
Arguments tcp_Port {R} _.
Arguments tcp_other {R} _.

Record TCPServersLoadBalancer (R L : Type) : Type := mkTCPServersLoadBalancer {
  tcp_Servers : slice (TCPServer R);
  tcp_lb_other : L
}.
Arguments mkTCPServersLoadBalancer {R L} _ _.
Arguments tcp_Servers {R L} _.
Arguments tcp_lb_other {R L} _.

Record UDPServer (R : Type) : Type := mkUDPServer {
  udp_Address : string;
  udp_Port : string;
  udp_other : R
}.
Arguments mkUDPServer {R} _ _ _.
Arguments udp_Address {R} _.
Arguments udp_Port {R} _.
Arguments udp_other {R} _.

Record UDPServersLoadBalancer (R L : Type) : Type := mkUDPServersLoadBalancer {
  udp_Servers : slice (UDPServer R);
  udp_lb_other : L
}.
Arguments mkUDPServersLoadBalancer {R L} _ _.
Arguments udp_Servers {R L} _.
Arguments udp_lb_other {R L} _.

Record Server (R : Type) : Type := mkServer {
  URL : string;
  Scheme : string;
  Port : string;
  server_other : R
}.
Arguments mkServer {R} _ _ _ _.
Arguments URL {R} _.
Arguments Scheme {R} _.
Arguments Port {R} _.
Arguments server_other {R} _.

Record ServersLoadBalancer (R L : Type) : Type := mkServersLoadBalancer {
  Servers : slice (Server R);
  lb_other : L
}.
Arguments mkServersLoadBalancer {R L} _ _.
Arguments Servers {R L} _.
Arguments lb_other {R L} _.

(** The method [SetDefaults] of a server, which is not in the sources at
    hand. *)
Class ServerDefaults (R : Type) : Type := Server_SetDefaults : Server R -> Server R.

(** The services and the configurations: a service holds its load balancer
    by pointer; of a configuration the functions below touch the services. *)
Record TCPService (S : Type) : Type := mkTCPService {
  tcp_LoadBalancer : ptr loc;
  tcp_service_other : S
}.
Arguments mkTCPService {S} _ _.
Arguments tcp_LoadBalancer {S} _.
Arguments tcp_service_other {S} _.

Record TCPConfiguration (S G : Type) : Type := mkTCPConfiguration {
  tcp_Services : gmap string (ptr (TCPService S));
  tcp_configuration_other : G
}.
Arguments mkTCPConfiguration {S G} _ _.
Arguments tcp_Services {S G} _.
Arguments tcp_configuration_other {S G} _.

Record UDPService (S : Type) : Type := mkUDPService {
  udp_LoadBalancer : ptr loc;
  udp_service_other : S
}.
Arguments mkUDPService {S} _ _.
Arguments udp_LoadBalancer {S} _.
Arguments udp_service_other {S} _.

Record UDPConfiguration (S G : Type) : Type := mkUDPConfiguration {
  udp_Services : gmap string (ptr (UDPService S));
  udp_configuration_other : G
}.
Arguments mkUDPConfiguration {S G} _ _.
Arguments udp_Services {S G} _.
Arguments udp_configuration_other {S G} _.

Record Service (S : Type) : Type := mkService {
  LoadBalancer : ptr loc;
  service_other : S
}.
Arguments mkService {S} _ _.
Arguments LoadBalancer {S} _.
Arguments service_other {S} _.

Record HTTPConfiguration (S G : Type) : Type := mkHTTPConfiguration {
  Services : gmap string (ptr (Service S));
  configuration_other : G
}.
Arguments mkHTTPConfiguration {S G} _ _.
Arguments Services {S G} _.
Arguments configuration_other {S G} _.

(** The methods [SetDefaults] of the two load balancers that have one; they
    are not in the sources at hand. *)
Class TCPLoadBalancerDefaults (R L : Type) : Type :=
  TCPServersLoadBalancer_SetDefaults : TCPServersLoadBalancer R L -> TCPServersLoadBalancer R L.

Class LoadBalancerDefaults (R L : Type) : Type :=
  ServersLoadBalancer_SetDefaults : ServersLoadBalancer R L -> ServersLoadBalancer R L.

End dynamic.

Module nomad.
Import dynamic.

(** Of an [item] (declared in another file of the package) these are the
    fields [config.go] reads. *)
Record item : Type := {
  ID : string;
  Name : string;
  Node : string;
  Address : string;
  Port : Z;
  Tags : slice string
}.

(** [addServerTCP]; the receiver is not used. The load balancer is changed
    in place, so the value it has after the call is returned with the
    error. Indexing [lb.Servers[0]] panics on an empty slice. *)
Definition addServerTCP {R L : Type} `{Zero R} (i : item)
    (lb : ptr (TCPServersLoadBalancer R L))
    : ptr (TCPServersLoadBalancer R L) * outcome (option error) :=
  match lb with
  | None => (None, Returns (Some (errorString "load-balancer is missing")))
  | Some lb =>
      let servers :=
        if decide (length (default [] (tcp_Servers lb)) = 0)
        then Some [mkTCPServer "" "" zero]
        else tcp_Servers lb in
      let port :=
        match default [] servers with
        | s :: _ => tcp_Port s
        | [] => ""
        end in
      let port :=
        if (bool_decide (Port i <> 0%Z) && bool_decide (port = ""))%bool
        then strconv.Itoa (Port i) else port in
      match default [] servers with
      | [] => (Some (mkTCPServersLoadBalancer servers (tcp_lb_other lb)), Panics)
      | s :: rest =>
          let s := mkTCPServer (tcp_Address s) "" (tcp_other s) in
          if decide (port = "") then
            (Some (mkTCPServersLoadBalancer (Some (s :: rest)) (tcp_lb_other lb)),
             Returns (Some (errorString "port is missing")))
          else if decide (Address i = "") then
            (Some (mkTCPServersLoadBalancer (Some (s :: rest)) (tcp_lb_other lb)),
             Returns (Some (errorString "address is missing")))
          else
            let s := mkTCPServer (net.JoinHostPort (Address i) port) "" (tcp_other s) in
            (Some (mkTCPServersLoadBalancer (Some (s :: rest)) (tcp_lb_other lb)),
             Returns None)
      end
  end.

Definition addServerUDP {R L : Type} `{Zero R} (i : item)
    (lb : ptr (UDPServersLoadBalancer R L))
    : ptr (UDPServersLoadBalancer R L) * outcome (option error) :=
  match lb with
  | None => (None, Returns (Some (errorString "load-balancer is missing")))
  | Some lb =>
      let servers :=
        if decide (length (default [] (udp_Servers lb)) = 0)
        then Some [mkUDPServer "" "" zero]
        else udp_Servers lb in
      let port :=
        match default [] servers with
        | s :: _ => udp_Port s
        | [] => ""
        end in
      let port :=
        if (bool_decide (Port i <> 0%Z) && bool_decide (port = ""))%bool
        then strconv.Itoa (Port i) else port in
      match default [] servers with
      | [] => (Some (mkUDPServersLoadBalancer servers (udp_lb_other lb)), Panics)
      | s :: rest =>
          let s := mkUDPServer (udp_Address s) "" (udp_other s) in
          if decide (port = "") then
            (Some (mkUDPServersLoadBalancer (Some (s :: rest)) (udp_lb_other lb)),
             Returns (Some (errorString "port is missing")))
          else if decide (Address i = "") then
            (Some (mkUDPServersLoadBalancer (Some (s :: rest)) (udp_lb_other lb)),
             Returns (Some (errorString "address is missing")))
          else
            let s := mkUDPServer (net.JoinHostPort (Address i) port) "" (udp_other s) in
            (Some (mkUDPServersLoadBalancer (Some (s :: rest)) (udp_lb_other lb)),
             Returns None)
      end
  end.

(** [addServer]: as above, and the scheme of the first server goes into its
    URL; a server made here has the defaults of [SetDefaults]. *)
Definition addServer {R L : Type} `{Zero R} `{ServerDefaults R} (i : item)
    (lb : ptr (ServersLoadBalancer R L))
    : ptr (ServersLoadBalancer R L) * outcome (option error) :=
  match lb with
  | None => (None, Returns (Some (errorString "load-balancer is missing")))
  | Some lb =>
      let servers :=
        if decide (length (default [] (Servers lb)) = 0)
        then Some [Server_SetDefaults (mkServer "" "" "" zero)]
        else Servers lb in
      let port :=
        match default [] servers with
        | s :: _ => dynamic.Port s
        | [] => ""
        end in
      let port :=
        if (bool_decide (Port i <> 0%Z) && bool_decide (port = ""))%bool
        then strconv.Itoa (Port i) else port in
      match default [] servers with
      | [] => (Some (mkServersLoadBalancer servers (lb_other lb)), Panics)
      | s :: rest =>
          let s := mkServer (URL s) (Scheme s) "" (server_other s) in
          if decide (port = "") then
            (Some (mkServersLoadBalancer (Some (s :: rest)) (lb_other lb)),
             Returns (Some (errorString "port is missing")))
          else if decide (Address i = "") then
            (Some (mkServersLoadBalancer (Some (s :: rest)) (lb_other lb)),
             Returns (Some (errorString "address is missing")))
          else
            let scheme := Scheme s in
            let s :=
              mkServer (scheme +:+ "://" +:+ net.JoinHostPort (Address i) port) "" ""
                (server_other s) in
            (Some (mkServersLoadBalancer (Some (s :: rest)) (lb_other lb)), Returns None)
      end
  end.

(** [tagsToLabels]: the tags that start with the prefix and have an equals
    sign become labels, the prefix of the key replaced by [traefik]. *)
Definition tagsToLabels (tags : slice string) (prefix : string) : gmap string string :=
  foldl
    (fun labels tag =>
       if strings.HasPrefix tag prefix then
         match strings2.SplitN tag "=" 2 with
         | [key; value] => <["traefik" +:+ strings.TrimPrefix key prefix := value]> labels
         | _ => labels
         end
       else labels)
    ∅ (default [] tags).

(** [buildTCPConfig]; the receiver is not used. The configuration is
    changed in place, and so are the load balancers of its services: the
    configuration and the heap after the call are returned with the error.
    A nil configuration, and a nil service in the map, panic where their
    field is read. *)
Definition buildTCPConfig {R L S G : Type} `{Zero R} `{Zero L} `{Zero S}
    `{TCPLoadBalancerDefaults R L} `{ProviderLibrary}
    (order : range_order) (i : item) (configuration : ptr (TCPConfiguration S G))
    (h : heap (TCPServersLoadBalancer R L))
    : (ptr (TCPConfiguration S G) * heap (TCPServersLoadBalancer R L))
      * outcome (option error) :=
  match configuration with
  | None => ((None, h), Panics)
  | Some configuration =>
      let '(configuration, h) :=
        if decide (size (tcp_Services configuration) = 0) then
          let lb := new_loc h in
          let h :=
            <[lb := TCPServersLoadBalancer_SetDefaults (mkTCPServersLoadBalancer zero zero)]> h in
          (mkTCPConfiguration
             {[ provider_Normalize (Name i) := Some (mkTCPService (Some lb) zero) ]}
             (tcp_configuration_other configuration),
           h)
        else (configuration, h) in
      let '(h, err) :=
        for_range
          (fun service h =>
             match service with
             | None => (h, Panics)
             | Some service => call_on (addServerTCP i) (tcp_LoadBalancer service) h
             end)
          (range_values order (tcp_Services configuration)) h in
      ((Some configuration, h), err)
  end.

(** [buildUDPConfig]: the same, without a call of [SetDefaults]. *)
Definition buildUDPConfig {R L S G : Type} `{Zero R} `{Zero L} `{Zero S} `{ProviderLibrary}
    (order : range_order) (i : item) (configuration : ptr (UDPConfiguration S G))
    (h : heap (UDPServersLoadBalancer R L))
    : (ptr (UDPConfiguration S G) * heap (UDPServersLoadBalancer R L))
      * outcome (option error) :=
  match configuration with
  | None => ((None, h), Panics)
  | Some configuration =>
      let '(configuration, h) :=
        if decide (size (udp_Services configuration) = 0) then
          let lb := new_loc h in
          let h := <[lb := mkUDPServersLoadBalancer zero zero]> h in
          (mkUDPConfiguration
             {[ provider_Normalize (Name i) := Some (mkUDPService (Some lb) zero) ]}
             (udp_configuration_other configuration),
           h)
        else (configuration, h) in
      let '(h, err) :=
        for_range
          (fun service h =>
             match service with
             | None => (h, Panics)
             | Some service => call_on (addServerUDP i) (udp_LoadBalancer service) h
             end)
          (range_values order (udp_Services configuration)) h in
      ((Some configuration, h), err)
  end.

(** [buildServiceConfiguration], for the HTTP services. *)
Definition buildServiceConfiguration {R L S G : Type} `{Zero R} `{Zero L} `{Zero S}
    `{ServerDefaults R} `{LoadBalancerDefaults R L} `{ProviderLibrary}
    (order : range_order) (i : item) (configuration : ptr (HTTPConfiguration S G))
    (h : heap (ServersLoadBalancer R L))
    : (ptr (HTTPConfiguration S G) * heap (ServersLoadBalancer R L))
      * outcome (option error) :=
  match configuration with
  | None => ((None, h), Panics)
  | Some configuration =>
      let '(configuration, h) :=
        if decide (size (Services configuration) = 0) then
          let lb := new_loc h in
          let h :=
            <[lb := ServersLoadBalancer_SetDefaults (mkServersLoadBalancer zero zero)]> h in
          (mkHTTPConfiguration
             {[ provider_Normalize (Name i) := Some (mkService (Some lb) zero) ]}
             (configuration_other configuration),
           h)
        else (configuration, h) in
      let '(h, err) :=
        for_range
          (fun service h =>
             match service with
             | None => (h, Panics)
             | Some service => call_on (addServer i) (LoadBalancer service) h
             end)
          (range_values order (Services configuration)) h in
      ((Some configuration, h), err)
  end.

End nomad.

(** The label a single tag stands for, if any: the tag starts with the
    prefix and has an equals sign; the key is what comes before the first
    one, its prefix replaced, and the value what comes after. *)
Definition tag_label (prefix tag : string) : option (string * string) :=
  if strings.HasPrefix tag prefix then
    match strings2.cut "=" tag with
    | Some (key, value) => Some ("traefik" +:+ strings.TrimPrefix key prefix, value)
    | None => None
    end
  else None.

(** The port the labels gave to the first server of a load balancer that has
    servers, and the port [addServerTCP] and its kin settle on: that one, or
    else the port of the item when it is not zero, written in decimal. *)
Definition chosen_port (labelPort : string) (itemPort : Z) : string :=
  if decide (labelPort = "") then
    if decide (itemPort = 0%Z) then "" else strconv.Itoa itemPort
  else labelPort.

(** The first server [addServerTCP] works on: the one that is there, or the
    one it makes when the load balancer has none. Likewise for the other
    two. *)
Definition tcp_first {R L : Type} `{Zero R} (lb : dynamic.TCPServersLoadBalancer R L)
    : dynamic.TCPServer R :=
  match default [] (dynamic.tcp_Servers lb) with
  | s :: _ => s
  | [] => dynamic.mkTCPServer "" "" zero
  end.

Definition udp_first {R L : Type} `{Zero R} (lb : dynamic.UDPServersLoadBalancer R L)
    : dynamic.UDPServer R :=
  match default [] (dynamic.udp_Servers lb) with
  | s :: _ => s
  | [] => dynamic.mkUDPServer "" "" zero
  end.

Definition http_first {R L : Type} `{Zero R} `{dynamic.ServerDefaults R}
    (lb : dynamic.ServersLoadBalancer R L) : dynamic.Server R :=
  match default [] (dynamic.Servers lb) with
  | s :: _ => s
  | [] => dynamic.Server_SetDefaults (dynamic.mkServer "" "" "" zero)
  end.

(** A UDP server and a UDP load balancer read as TCP ones: the two pairs of
    types have the same fields. *)
Definition udp_as_tcp {R : Type} (s : dynamic.UDPServer R) : dynamic.TCPServer R :=
  dynamic.mkTCPServer (dynamic.udp_Address s) (dynamic.udp_Port s) (dynamic.udp_other s).

Definition udp_lb_as_tcp {R L : Type} (lb : dynamic.UDPServersLoadBalancer R L)
    : dynamic.TCPServersLoadBalancer R L :=
  dynamic.mkTCPServersLoadBalancer
    (option_map (map udp_as_tcp) (dynamic.udp_Servers lb)) (dynamic.udp_lb_other lb).

(** ** Sample values for the provider

    Servers and load balancers whose remaining fields are one string (its
    zero value is the empty string), and the [SetDefaults] of traefik's
    [dynamic.Server], which sets the scheme to [http]. *)
Module sample.

#[export] Instance string_Zero : Zero string := "".

#[export] Instance http_defaults : dynamic.ServerDefaults string :=
  fun s => dynamic.mkServer (dynamic.URL s) "http" (dynamic.Port s) (dynamic.server_other s).

(** A service at 10.0.0.1, port 8080. *)
Definition web : nomad.item :=
  {| nomad.ID := "id1"; nomad.Name := "web"; nomad.Node := "node1";
     nomad.Address := "10.0.0.1"; nomad.Port := 8080; nomad.Tags := None |}.

(** The same without an address. *)
Definition homeless : nomad.item :=
  {| nomad.ID := "id1"; nomad.Name := "web"; nomad.Node := "node1";
     nomad.Address := ""; nomad.Port := 8080; nomad.Tags := None |}.

(** Load balancers as the decoder of labels leaves them: without servers,
    and with one server that was given a port, resp. a scheme and a port. *)
Definition tcp_empty : dynamic.TCPServersLoadBalancer string string :=
  dynamic.mkTCPServersLoadBalancer None "lb".

Definition tcp_with_port : dynamic.TCPServersLoadBalancer string string :=
  dynamic.mkTCPServersLoadBalancer (Some [dynamic.mkTCPServer "old" "99" "srv"]) "lb".

Definition http_empty : dynamic.ServersLoadBalancer string string :=
  dynamic.mkServersLoadBalancer None "lb".

Definition http_with_port : dynamic.ServersLoadBalancer string string :=
  dynamic.mkServersLoadBalancer (Some [dynamic.mkServer "old" "h2c" "99" "srv"]) "lb".

(** The defaults of the load balancers: a mark in the field that stands for
    the others. Names that are normal already. *)
#[export] Instance tcp_lb_defaults : dynamic.TCPLoadBalancerDefaults string string :=
  fun lb => dynamic.mkTCPServersLoadBalancer (dynamic.tcp_Servers lb) "defaults".

#[export] Instance lb_defaults : dynamic.LoadBalancerDefaults string string :=
  fun lb => dynamic.mkServersLoadBalancer (dynamic.Servers lb) "defaults".

#[export] Instance normal_names : ProviderLibrary := fun name => name.

(** Two orders of visit: that of [elements], and its reverse. *)
Definition forwards : range_order := elements.
Definition backwards : range_order := fun X => reverse (elements X).

(** A configuration without services, and one with two services that have
    a load balancer each, at the locations 1 and 2 of the heap. *)
Definition tcp_no_service : dynamic.TCPConfiguration string string :=
  dynamic.mkTCPConfiguration ∅ "cfg".

Definition http_no_service : dynamic.HTTPConfiguration string string :=
  dynamic.mkHTTPConfiguration ∅ "cfg".

Definition tcp_two_services : dynamic.TCPConfiguration string string :=
  dynamic.mkTCPConfiguration
    (<["a" := Some (dynamic.mkTCPService (Some 1%positive) "svc-a")]>
       (<["b" := Some (dynamic.mkTCPService (Some 2%positive) "svc-b")]> ∅))
    "cfg".

Definition tcp_two_load_balancers : heap (dynamic.TCPServersLoadBalancer string string) :=
  <[1%positive := tcp_with_port]> (<[2%positive := tcp_empty]> ∅).

(** Two services that hold the load balancer at location 1. *)
Definition tcp_shared_services : dynamic.TCPConfiguration string string :=
  dynamic.mkTCPConfiguration
    (<["a" := Some (dynamic.mkTCPService (Some 1%positive) "svc-a")]>
       (<["b" := Some (dynamic.mkTCPService (Some 1%positive) "svc-b")]> ∅))
    "cfg".

End sample.

(** One pass of the loops of [buildTCPConfig] and its kin: the call of [f]
    on the load balancer of a service. *)
Definition visit {T Svc : Type} (f : ptr T -> ptr T * outcome (option error))
    (lb_of : Svc -> ptr loc) (service : ptr Svc) (h : heap T)
    : heap T * outcome (option error) :=
  match service with
  | None => (h, Panics)
  | Some service => call_on f (lb_of service) h
  end.

(** An order of visit that enumerates the keys, each once. *)
Definition enumerates (order : range_order) : Prop :=
  forall X : gset string, order X ≡ₚ elements X.

(** * Properties *)

(** ** Strings *)

Lemma drop_length_app (p r : string) : strings.drop (String.length p) (p +:+ r) = r.
Proof. induction p as [|c p IH]; simpl; [by destruct r | exact IH]. Qed.

Lemma prefix_app (p r : string) : String.prefix p (p +:+ r) = true.
Proof.
  induction p as [|c p IH]; simpl; [by destruct r |].
  destruct (ascii_dec c c); [exact IH | congruence].
Qed.

(** Stripping a prefix that is there leaves what follows it. *)
Lemma TrimPrefix_app (p r : string) : strings.TrimPrefix (p +:+ r) p = r.
Proof.
  unfold strings.TrimPrefix, strings.HasPrefix.
  by rewrite prefix_app, drop_length_app.
Qed.

Lemma prefix_split (p s : string) : String.prefix p s = true -> exists r, s = p +:+ r.
Proof.
  revert s; induction p as [|c p IH]; intros s Hs.
  - by exists s.
  - destruct s as [|d s]; simpl in Hs; [discriminate |].
    destruct (ascii_dec c d) as [->|]; [| discriminate].
    destruct (IH s Hs) as [r ->]. by exists r.
Qed.

(** A string without the prefix is left alone. *)
Lemma TrimPrefix_other (p s : string) :
  strings.HasPrefix s p = false -> strings.TrimPrefix s p = s.
Proof. unfold strings.TrimPrefix. by intros ->. Qed.

(** Nothing is left of a hint after stripping exactly when the hint is empty
    or is the scheme alone. *)
Lemma TrimPrefix_scheme_empty (hint : string) :
  strings.TrimPrefix hint "nomad://" = "" <-> hint = "" \/ hint = "nomad://".
Proof.
  split.
  - unfold strings.TrimPrefix, strings.HasPrefix.
    destruct (String.prefix "nomad://" hint) eqn:Hp.
    + apply prefix_split in Hp as [r ->]. rewrite drop_length_app.
      intros ->. by right.
    + intros ->. by left.
  - by intros [-> | ->].
Qed.

(** The derived path is never empty, whatever the environment holds. *)
Lemma Sprintf_variables_path_nonempty (job group task resolver : string) :
  fmt.Sprintf_variables_path job group task resolver <> "".
Proof. unfold fmt.Sprintf_variables_path. simpl. discriminate. Qed.

Lemma ToLower_ascii (lower : string -> string) (s : string) :
  strings.all_bytes strings.byte_is_ascii s = true ->
  strings.ToLower lower s = strings.map_bytes strings.byte_to_lower s.
Proof. unfold strings.ToLower. by intros ->. Qed.

(** ** Errors *)

(** An error of [encoding/json] is never taken for a missing path. *)
Lemma jsonError_not_path_not_found (msg : string) :
  errors.Is (Some (jsonError msg)) ErrVariablePathNotFound = false.
Proof. reflexivity. Qed.

(** The sentinel itself, and anything that wraps it, is a missing path. *)
Lemma Is_wrapped (msg : string) (e target : error) :
  errors.Is (Some e) target = true -> errors.Is (Some (wrapError msg e)) target = true.
Proof.
  intros Hin. change (errors.Is_chain e target = true) in Hin.
  change ((if decide (wrapError msg e = target) then true
           else errors.Is_chain e target) = true).
  by case_decide.
Qed.

Lemma Is_refl (e : error) : errors.Is (Some e) e = true.
Proof. destruct e; simpl; first [done | by case_decide]. Qed.

(** ** Binding a resolver *)

Section Properties.
Context `{GoLibrary}.
Context {C : Type} `{nomadVariablesAPI C}.
Context `{JSON (ptr Account)} `{JSON (slice (ptr CertAndStore))}.

Implicit Types (ns : NomadStore C) (env : gmap string string).
Implicit Types (resolverName variablesPath p : string).

(** [SetResolver] touches nothing but [paths]. *)
Lemma SetResolver_frame env resolverName variablesPath ns :
  let ns' := SetResolver env resolverName variablesPath ns in
  client ns' = client ns /\ certCache ns' = certCache ns
  /\ accountCache ns' = accountCache ns
  /\ forall other, other <> resolverName -> paths ns' !! other = paths ns !! other.
Proof.
  unfold SetResolver; simpl. repeat split; try done.
  intros other Hne. by rewrite lookup_insert_ne.
Qed.

(** Whatever the hint and the environment, the resolver ends up bound, and to
    a path that [pathForResolverLocked] accepts. *)
Lemma SetResolver_bound_to env resolverName variablesPath ns :
  exists p, bound_to (SetResolver env resolverName variablesPath ns) resolverName p.
Proof.
  unfold bound_to, SetResolver; simpl. rewrite lookup_insert_eq.
  case_decide as Hp.
  - eexists; split; [done | apply Sprintf_variables_path_nonempty].
  - by eexists.
Qed.

Lemma pathForResolverLocked_bound ns resolverName p itemType :
  bound_to ns resolverName p ->
  pathForResolverLocked ns resolverName itemType = (path_Join p itemType, true).
Proof. intros [Hp Hne]. unfold pathForResolverLocked. rewrite Hp. by case_decide. Qed.

Lemma pathForResolverLocked_unbound ns resolverName itemType :
  paths ns !! resolverName = None ->
  pathForResolverLocked ns resolverName itemType = ("", false).
Proof. intros Hp. unfold pathForResolverLocked. by rewrite Hp. Qed.

(** The lookup of a path reads [paths] only. *)
Lemma pathForResolverLocked_paths ns ns' resolverName itemType :
  paths ns' = paths ns ->
  pathForResolverLocked ns' resolverName itemType
  = pathForResolverLocked ns resolverName itemType.
Proof. unfold pathForResolverLocked. by intros ->. Qed.

(** ** The remote helpers *)

(** [put] is at most one [Create], of a variable with one item. *)
Lemma put_ok {T : Type} `{JSON T} ns varPath key (item : T) b :
  json_Marshal item = (b, None) ->
  put ns varPath key item =
    (set_client (fst (Create {| api.Path := varPath; api.Items := {[ key := b ]} |} (client ns))) ns,
     snd (Create {| api.Path := varPath; api.Items := {[ key := b ]} |} (client ns))).
Proof. unfold put. intros ->. by destruct (Create _ _). Qed.

Lemma put_marshal_error {T : Type} `{JSON T} ns varPath key (item : T) b msg :
  json_Marshal item = (b, Some msg) ->
  put ns varPath key item = (ns, Some (jsonError msg)).
Proof. unfold put. by intros ->. Qed.

(** [put] never touches the caches or the paths. *)
Lemma put_frame {T : Type} `{JSON T} ns varPath key (item : T) :
  let ns' := fst (put ns varPath key item) in
  certCache ns' = certCache ns /\ accountCache ns' = accountCache ns
  /\ paths ns' = paths ns.
Proof.
  unfold put. destruct (json_Marshal item) as [b [msg|]]; [done |].
  by destruct (Create _ _).
Qed.

Lemma get_read_error {T : Type} {ZT : Zero T} {JT : JSON T} ns varPath key c items e :
  GetVariableItems varPath (client ns) = (c, (items, Some e)) ->
  get (T := T) ns varPath key = (set_client c ns, (zero, Some e)).
Proof. unfold get. by intros ->. Qed.

Lemma get_decode_error {T : Type} {ZT : Zero T} {JT : JSON T} ns varPath key c items v msg :
  GetVariableItems varPath (client ns) = (c, (items, None)) ->
  json_Unmarshal (default "" (items !! key)) (zero : T) = (v, Some msg) ->
  get (T := T) ns varPath key = (set_client c ns, (v, Some (jsonError msg))).
Proof. unfold get. by intros -> ->. Qed.

Lemma get_ok {T : Type} {ZT : Zero T} {JT : JSON T} ns varPath key c items v :
  GetVariableItems varPath (client ns) = (c, (items, None)) ->
  json_Unmarshal (default "" (items !! key)) (zero : T) = (v, None) ->
  get (T := T) ns varPath key = (set_client c ns, (v, None)).
Proof. unfold get. by intros -> ->. Qed.

Lemma get_frame {T : Type} {ZT : Zero T} {JT : JSON T} ns varPath key :
  let ns' := fst (get (T := T) ns varPath key) in
  certCache ns' = certCache ns /\ accountCache ns' = accountCache ns
  /\ paths ns' = paths ns.
Proof.
  unfold get. destruct (GetVariableItems _ _) as [c [items [e|]]]; [done |].
  by destruct (json_Unmarshal _ _) as [v [msg|]].
Qed.

(** ** The invariant of [paths] *)

(** The reads and the saves leave [paths] alone. *)
Lemma GetAccount_paths resolverName ns :
  paths (fst (GetAccount resolverName ns)) = paths ns.
Proof.
  unfold GetAccount. destruct (accountCache ns !! resolverName); [done |].
  destruct (pathForResolverLocked _ _ _) as [accountPath [|]]; simpl; [| done].
  match goal with |- context [get ?s ?pa ?k] =>
    pose proof (get_frame (T := option Account) s pa k) as (_ & _ & Hp);
    destruct (get s pa k) as [ns' [account err]] end.
  simpl in Hp. destruct (errors.Is err _); [done |]. by destruct err.
Qed.

Lemma GetCertificates_paths resolverName ns :
  paths (fst (GetCertificates resolverName ns)) = paths ns.
Proof.
  unfold GetCertificates. destruct (certCache ns !! resolverName); [done |].
  destruct (pathForResolverLocked _ _ _) as [certPath [|]]; simpl; [| done].
  match goal with |- context [get ?s ?pa ?k] =>
    pose proof (get_frame (T := option (list (option CertAndStore))) s pa k)
      as (_ & _ & Hp);
    destruct (get s pa k) as [ns' [certificates err]] end.
  simpl in Hp. destruct (errors.Is err _); [done |]. by destruct err.
Qed.

Lemma SaveAccount_paths resolverName account ns :
  paths (fst (SaveAccount resolverName account ns)) = paths ns.
Proof.
  unfold SaveAccount. destruct account as [a|]; [| done].
  destruct (pathForResolverLocked _ _ _) as [accountPath [|]]; simpl; [| done].
  match goal with |- context [put ?s ?pa ?k ?i] =>
    pose proof (put_frame s pa k i) as (_ & _ & Hp); destruct (put s pa k i) end.
  exact Hp.
Qed.

Lemma SaveCertificates_paths resolverName certificates ns :
  paths (fst (SaveCertificates resolverName certificates ns)) = paths ns.
Proof.
  unfold SaveCertificates.
  destruct (pathForResolverLocked _ _ _) as [certPath [|]]; simpl; [| done].
  match goal with |- context [put ?s ?pa ?k ?i] =>
    pose proof (put_frame s pa k i) as (_ & _ & Hp) end.
  exact Hp.
Qed.

(** A store as [MaybeNewNomadStore] makes it has the invariant, and
    [SetResolver], the one writer of [paths], keeps it: in every store that
    is reached through the methods, an entry in [paths] is a binding in the
    sense of [bound_to]. *)
Lemma MaybeNewNomadStore_paths_nonempty env (taskClient : C) ns :
  MaybeNewNomadStore env taskClient = Some ns -> paths_nonempty ns.
Proof.
  unfold MaybeNewNomadStore. destruct (_ || _)%bool; [done |].
  intros [= <-] resolverName p. simpl. by rewrite lookup_empty.
Qed.

Lemma SetResolver_paths_nonempty env resolverName variablesPath ns :
  paths_nonempty ns -> paths_nonempty (SetResolver env resolverName variablesPath ns).
Proof.
  intros Hinv other p. destruct (decide (other = resolverName)) as [->|Hne].
  - destruct (SetResolver_bound_to env resolverName variablesPath ns) as [q [Hq Hne]].
    rewrite Hq. by intros [= <-].
  - destruct (SetResolver_frame env resolverName variablesPath ns) as (_ & _ & _ & Hf).
    rewrite (Hf other Hne). apply Hinv.
Qed.

Lemma paths_nonempty_bound_to ns resolverName p :
  paths_nonempty ns -> paths ns !! resolverName = Some p -> bound_to ns resolverName p.
Proof. intros Hinv Hp. split; [done | by eapply Hinv]. Qed.

End Properties.

(** * The claims *)

Section Claims.
Context `{GoLibrary}.
Context {C : Type} `{nomadVariablesAPI C}.
Context `{JSON (ptr Account)} `{JSON (slice (ptr CertAndStore))}.

Implicit Types (ns : NomadStore C) (env : gmap string string).
Implicit Types (resolverName variablesPath p : string).

(** A cached resolver is answered from the cache: the store, its client
    included, is left exactly as it was. *)
Lemma GetAccount_cached resolverName ns account :
  accountCache ns !! resolverName = Some account ->
  GetAccount resolverName ns = (ns, (account, None)).
Proof. unfold GetAccount. by intros ->. Qed.

Lemma GetCertificates_cached resolverName ns certificates :
  certCache ns !! resolverName = Some certificates ->
  GetCertificates resolverName ns = (ns, (certificates, None)).
Proof. unfold GetCertificates. by intros ->. Qed.

(** A save writes the cache first, and nothing after that touches it. *)
Lemma SaveAccount_accountCache resolverName account ns :
  accountCache (fst (SaveAccount resolverName account ns))
  = <[resolverName := account]> (accountCache ns).
Proof.
  unfold SaveAccount. destruct account as [a|]; [| done].
  destruct (pathForResolverLocked _ _ _) as [accountPath [|]]; simpl; [| done].
  match goal with |- context [put ?s ?pa ?k ?i] =>
    pose proof (put_frame s pa k i) as (_ & Hc & _); destruct (put s pa k i) end.
  exact Hc.
Qed.

(** A nil account stops [SaveAccount] at the logging call: it panics, with
    the cache written and nothing else done. *)
Lemma SaveAccount_nil_panics resolverName ns :
  SaveAccount resolverName None ns
  = (mkNomadStore (client ns) (certCache ns)
       (<[resolverName := None]> (accountCache ns)) (paths ns),
     Panics).
Proof. reflexivity. Qed.

Lemma SaveCertificates_certCache resolverName certificates ns :
  certCache (fst (SaveCertificates resolverName certificates ns))
  = <[resolverName := certificates]> (certCache ns).
Proof.
  unfold SaveCertificates.
  destruct (pathForResolverLocked _ _ _) as [certPath [|]]; simpl; [| done].
  match goal with |- context [put ?s ?pa ?k ?i] =>
    pose proof (put_frame s pa k i) as (Hc & _ & _) end.
  exact Hc.
Qed.

(** C1. After [SaveAccount] has returned without error, [GetAccount] for the
    same resolver returns the saved account and a nil error, and the store
    after the call is the store before it, client included: the answer comes
    from the cache, ahead of any path lookup and with no call of the remote
    client (whatever client that is, so in particular no read counter
    moves). The same for [SaveCertificates] and [GetCertificates]. *)
Theorem save_then_get_is_cache_hit resolverName ns :
  (forall (A : Account) ns',
      SaveAccount resolverName (Some A) ns = (ns', Returns None) ->
      GetAccount resolverName ns' = (ns', (Some A, None)))
  /\ (forall (Cs : slice (ptr CertAndStore)) ns',
      SaveCertificates resolverName Cs ns = (ns', None) ->
      GetCertificates resolverName ns' = (ns', (Cs, None))).
Proof.
  split.
  - intros A ns' Hsave. apply GetAccount_cached.
    pose proof (SaveAccount_accountCache resolverName (Some A) ns) as Hc.
    rewrite Hsave in Hc. simpl in Hc. rewrite Hc. apply lookup_insert_eq.
  - intros Cs ns' Hsave. apply GetCertificates_cached.
    pose proof (SaveCertificates_certCache resolverName Cs ns) as Hc.
    rewrite Hsave in Hc. simpl in Hc. rewrite Hc. apply lookup_insert_eq.
Qed.

(** C2. For a resolver with no entry in [paths]: [GetAccount] and
    [GetCertificates], when the cache has nothing for it either, return nil
    and [ErrNoNomadVariableForResolver] and leave the whole store as it was;
    [SaveAccount] of an account and [SaveCertificates] return that same
    error, having changed the cache only. In all four the client is the one
    the store had before the call: no remote call was made. *)
Theorem unbound_resolver_is_refused resolverName ns :
  paths ns !! resolverName = None ->
  (accountCache ns !! resolverName = None ->
   GetAccount resolverName ns = (ns, (None, Some ErrNoNomadVariableForResolver)))
  /\ (certCache ns !! resolverName = None ->
      GetCertificates resolverName ns = (ns, (None, Some ErrNoNomadVariableForResolver)))
  /\ (forall A : Account,
      SaveAccount resolverName (Some A) ns
      = (mkNomadStore (client ns) (certCache ns)
           (<[resolverName := Some A]> (accountCache ns)) (paths ns),
         Returns (Some ErrNoNomadVariableForResolver)))
  /\ (forall Cs : slice (ptr CertAndStore),
      SaveCertificates resolverName Cs ns
      = (mkNomadStore (client ns) (<[resolverName := Cs]> (certCache ns))
           (accountCache ns) (paths ns),
         Some ErrNoNomadVariableForResolver)).
Proof.
  intros Hp. repeat split.
  - intros Hc. unfold GetAccount. rewrite Hc.
    by rewrite (pathForResolverLocked_unbound _ _ _ Hp).
  - intros Hc. unfold GetCertificates. rewrite Hc.
    by rewrite (pathForResolverLocked_unbound _ _ _ Hp).
  - intros A. unfold SaveAccount.
    by rewrite pathForResolverLocked_unbound.
  - intros Cs. unfold SaveCertificates.
    by rewrite pathForResolverLocked_unbound.
Qed.

(** C3. Whatever the resolver, the value and the state of the store, and
    however the call ends (nil error, [ErrNoNomadVariableForResolver], an
    error of the encoder or of the remote write, or the panic on a nil
    account), after [SaveAccount], resp. [SaveCertificates], the cache maps
    the resolver to the value that was being saved, and is otherwise the
    cache of before. *)
Theorem save_writes_cache_first resolverName ns :
  (forall V : ptr Account,
      accountCache (fst (SaveAccount resolverName V ns)) !! resolverName = Some V
      /\ accountCache (fst (SaveAccount resolverName V ns))
         = <[resolverName := V]> (accountCache ns))
  /\ (forall V : slice (ptr CertAndStore),
      certCache (fst (SaveCertificates resolverName V ns)) !! resolverName = Some V
      /\ certCache (fst (SaveCertificates resolverName V ns))
         = <[resolverName := V]> (certCache ns)).
Proof.
  split; intros V.
  - rewrite SaveAccount_accountCache. split; [apply lookup_insert_eq | done].
  - rewrite SaveCertificates_certCache. split; [apply lookup_insert_eq | done].
Qed.

(** What a read does for a bound resolver that is not in the cache, by the
    three ways the lookup in the remote store can go. *)
Lemma GetAccount_read_error resolverName ns p c items e :
  accountCache ns !! resolverName = None ->
  bound_to ns resolverName p ->
  GetVariableItems (path_Join p nomadStoreAccountType) (client ns) = (c, (items, Some e)) ->
  GetAccount resolverName ns
  = (set_client c ns,
     if errors.Is (Some e) ErrVariablePathNotFound then (None, None) else (None, Some e)).
Proof.
  intros Hc Hb Hr. unfold GetAccount. rewrite Hc.
  rewrite (pathForResolverLocked_bound _ _ _ _ Hb). simpl negb. cbv iota.
  rewrite (get_read_error _ _ _ _ _ _ Hr).
  by destruct (errors.Is (Some e) ErrVariablePathNotFound).
Qed.

Lemma GetAccount_decoded resolverName ns p c items :
  accountCache ns !! resolverName = None ->
  bound_to ns resolverName p ->
  GetVariableItems (path_Join p nomadStoreAccountType) (client ns) = (c, (items, None)) ->
  GetAccount resolverName ns
  = match json_Unmarshal (default "" (items !! nomadStoreAccountType)) (None : ptr Account) with
    | (_, Some msg) => (set_client c ns, (None, Some (jsonError msg)))
    | (account, None) =>
        (mkNomadStore c (certCache ns) (<[resolverName := account]> (accountCache ns))
           (paths ns),
         (account, None))
    end.
Proof.
  intros Hc Hb Hr. unfold GetAccount. rewrite Hc.
  rewrite (pathForResolverLocked_bound _ _ _ _ Hb). simpl negb. cbv iota.
  destruct (json_Unmarshal _ _) as [v [msg|]] eqn:Hu.
  - by rewrite (get_decode_error (ZT := ptr_Zero _) _ _ _ _ _ _ _ Hr Hu).
  - by rewrite (get_ok (ZT := ptr_Zero _) _ _ _ _ _ _ Hr Hu).
Qed.

Lemma GetCertificates_read_error resolverName ns p c items e :
  certCache ns !! resolverName = None ->
  bound_to ns resolverName p ->
  GetVariableItems (path_Join p nomadStoreCertsType) (client ns) = (c, (items, Some e)) ->
  GetCertificates resolverName ns
  = (set_client c ns,
     if errors.Is (Some e) ErrVariablePathNotFound then (None, None) else (None, Some e)).
Proof.
  intros Hc Hb Hr. unfold GetCertificates. rewrite Hc.
  rewrite (pathForResolverLocked_bound _ _ _ _ Hb). simpl negb. cbv iota.
  rewrite (get_read_error _ _ _ _ _ _ Hr).
  by destruct (errors.Is (Some e) ErrVariablePathNotFound).
Qed.

Lemma GetCertificates_decoded resolverName ns p c items :
  certCache ns !! resolverName = None ->
  bound_to ns resolverName p ->
  GetVariableItems (path_Join p nomadStoreCertsType) (client ns) = (c, (items, None)) ->
  GetCertificates resolverName ns
  = match json_Unmarshal (default "" (items !! nomadStoreCertsType))
            (None : slice (ptr CertAndStore)) with
    | (_, Some msg) => (set_client c ns, (None, Some (jsonError msg)))
    | (certificates, None) =>
        (mkNomadStore c (<[resolverName := certificates]> (certCache ns)) (accountCache ns)
           (paths ns),
         (certificates, None))
    end.
Proof.
  intros Hc Hb Hr. unfold GetCertificates. rewrite Hc.
  rewrite (pathForResolverLocked_bound _ _ _ _ Hb). simpl negb. cbv iota.
  destruct (json_Unmarshal _ _) as [v [msg|]] eqn:Hu.
  - by rewrite (get_decode_error (ZT := slice_Zero _) _ _ _ _ _ _ _ Hr Hu).
  - by rewrite (get_ok (ZT := slice_Zero _) _ _ _ _ _ _ Hr Hu).
Qed.

(** C4. For a bound resolver that is not in the cache: when the read of the
    remote store fails with an error that [errors.Is] does not recognise as
    [ErrVariablePathNotFound], [GetAccount] returns nil and that very error,
    not wrapped; when the read succeeds and the decoder rejects the payload,
    it returns nil and the decoder's error. Either way the caches and the
    paths after the call are those of before (the resolver is still not in
    the cache); only the client has seen the one read. The same for
    [GetCertificates]. *)
Theorem read_failure_propagates resolverName ns p :
  bound_to ns resolverName p ->
  (forall c items e,
      accountCache ns !! resolverName = None ->
      GetVariableItems (path_Join p nomadStoreAccountType) (client ns)
      = (c, (items, Some e)) ->
      errors.Is (Some e) ErrVariablePathNotFound = false ->
      GetAccount resolverName ns
      = (mkNomadStore c (certCache ns) (accountCache ns) (paths ns), (None, Some e)))
  /\ (forall c items v msg,
      accountCache ns !! resolverName = None ->
      GetVariableItems (path_Join p nomadStoreAccountType) (client ns)
      = (c, (items, None)) ->
      json_Unmarshal (default "" (items !! nomadStoreAccountType)) (None : ptr Account)
      = (v, Some msg) ->
      GetAccount resolverName ns
      = (mkNomadStore c (certCache ns) (accountCache ns) (paths ns),
         (None, Some (jsonError msg))))
  /\ (forall c items e,
      certCache ns !! resolverName = None ->
      GetVariableItems (path_Join p nomadStoreCertsType) (client ns)
      = (c, (items, Some e)) ->
      errors.Is (Some e) ErrVariablePathNotFound = false ->
      GetCertificates resolverName ns
      = (mkNomadStore c (certCache ns) (accountCache ns) (paths ns), (None, Some e)))
  /\ (forall c items v msg,
      certCache ns !! resolverName = None ->
      GetVariableItems (path_Join p nomadStoreCertsType) (client ns)
      = (c, (items, None)) ->
      json_Unmarshal (default "" (items !! nomadStoreCertsType))
        (None : slice (ptr CertAndStore))
      = (v, Some msg) ->
      GetCertificates resolverName ns
      = (mkNomadStore c (certCache ns) (accountCache ns) (paths ns),
         (None, Some (jsonError msg)))).
Proof.
  intros Hb. repeat split.
  - intros c items e Hc Hr He.
    rewrite (GetAccount_read_error _ _ _ _ _ _ Hc Hb Hr). by rewrite He.
  - intros c items v msg Hc Hr Hu.
    rewrite (GetAccount_decoded _ _ _ _ _ Hc Hb Hr). by rewrite Hu.
  - intros c items e Hc Hr He.
    rewrite (GetCertificates_read_error _ _ _ _ _ _ Hc Hb Hr). by rewrite He.
  - intros c items v msg Hc Hr Hu.
    rewrite (GetCertificates_decoded _ _ _ _ _ Hc Hb Hr). by rewrite Hu.
Qed.

(** C5. For a bound resolver that is not in the cache, when the read of the
    remote store fails with [ErrVariablePathNotFound] (the sentinel, or an
    error [errors.Is] finds it in), [GetAccount] returns a nil account and a
    nil error, and [GetCertificates] a nil slice and a nil error. *)
Theorem path_not_found_is_no_data resolverName ns p :
  bound_to ns resolverName p ->
  (forall c items e,
      accountCache ns !! resolverName = None ->
      GetVariableItems (path_Join p nomadStoreAccountType) (client ns)
      = (c, (items, Some e)) ->
      errors.Is (Some e) ErrVariablePathNotFound = true ->
      snd (GetAccount resolverName ns) = (None, None))
  /\ (forall c items e,
      certCache ns !! resolverName = None ->
      GetVariableItems (path_Join p nomadStoreCertsType) (client ns)
      = (c, (items, Some e)) ->
      errors.Is (Some e) ErrVariablePathNotFound = true ->
      snd (GetCertificates resolverName ns) = (None, None)).
Proof.
  intros Hb. split; intros c items e Hc Hr He.
  - rewrite (GetAccount_read_error _ _ _ _ _ _ Hc Hb Hr). by rewrite He.
  - rewrite (GetCertificates_read_error _ _ _ _ _ _ Hc Hb Hr). by rewrite He.
Qed.

(** C9. For a bound resolver that is not in the cache, when the read of the
    remote store succeeds with a set of items that has no entry under the
    key of the artifact, the decoder is run on the empty string; as
    [encoding/json] rejects the empty input, the call returns nil and the
    decoder's error, which is not the nil, nil of a missing path, and the
    caches are those of before. *)
Theorem missing_item_is_decoding_error resolverName ns p :
  bound_to ns resolverName p ->
  (forall c items v msg,
      accountCache ns !! resolverName = None ->
      GetVariableItems (path_Join p nomadStoreAccountType) (client ns)
      = (c, (items, None)) ->
      items !! nomadStoreAccountType = None ->
      json_Unmarshal "" (None : ptr Account) = (v, Some msg) ->
      GetAccount resolverName ns
      = (mkNomadStore c (certCache ns) (accountCache ns) (paths ns),
         (None, Some (jsonError msg)))
      /\ snd (GetAccount resolverName ns) <> (None, None))
  /\ (forall c items v msg,
      certCache ns !! resolverName = None ->
      GetVariableItems (path_Join p nomadStoreCertsType) (client ns)
      = (c, (items, None)) ->
      items !! nomadStoreCertsType = None ->
      json_Unmarshal "" (None : slice (ptr CertAndStore)) = (v, Some msg) ->
      GetCertificates resolverName ns
      = (mkNomadStore c (certCache ns) (accountCache ns) (paths ns),
         (None, Some (jsonError msg)))
      /\ snd (GetCertificates resolverName ns) <> (None, None)).
Proof.
  intros Hb. split; intros c items v msg Hc Hr Hi Hu.
  - rewrite (GetAccount_decoded _ _ _ _ _ Hc Hb Hr), Hi. simpl default.
    by rewrite Hu.
  - rewrite (GetCertificates_decoded _ _ _ _ _ Hc Hb Hr), Hi. simpl default.
    by rewrite Hu.
Qed.

(** C6. When nothing is left of the hint once the scheme is stripped (the
    hint is empty or is [nomad://] alone), [SetResolver] binds the resolver,
    under its name as given, to
    [nomad/jobs/<job>/<group>/<task>/acme/<resolver in lower case>], the
    three values being those of the environment at the time of the call. In
    the environment of the tests (job1, group1, task1) the resolver [le] is
    bound to [nomad/jobs/job1/group1/task1/acme/le]. *)
Theorem SetResolver_derives_path env resolverName variablesPath ns :
  strings.TrimPrefix variablesPath "nomad://" = "" ->
  paths (SetResolver env resolverName variablesPath ns) !! resolverName
  = Some ("nomad/jobs/" +:+ os.Getenv env envNomadJob
          +:+ "/" +:+ os.Getenv env envNomadGroup
          +:+ "/" +:+ os.Getenv env envNomadTask
          +:+ "/acme/" +:+ strings.ToLower unicode_lower resolverName)
  /\ paths (SetResolver fixture.env "le" variablesPath ns) !! "le"
     = Some "nomad/jobs/job1/group1/task1/acme/le".
Proof.
  intros Hp. unfold SetResolver. rewrite Hp. simpl.
  by rewrite !lookup_insert_eq.
Qed.

(** C7. When something is left of the hint once the scheme is stripped,
    [SetResolver] binds the resolver to exactly that: a hint [nomad://r] with
    [r] not empty binds [r], and [nomad://traefik/acme] binds
    [traefik/acme]. [SetResolver] has no error to return: for every hint and
    every environment the resolver comes out bound, to a path that is not
    empty. *)
Theorem SetResolver_keeps_explicit_path env resolverName variablesPath ns :
  strings.TrimPrefix variablesPath "nomad://" <> "" ->
  paths (SetResolver env resolverName variablesPath ns) !! resolverName
  = Some (strings.TrimPrefix variablesPath "nomad://")
  /\ (forall r, r <> "" ->
      paths (SetResolver env resolverName ("nomad://" +:+ r) ns) !! resolverName = Some r)
  /\ paths (SetResolver env resolverName "nomad://traefik/acme" ns) !! resolverName
     = Some "traefik/acme"
  /\ (forall hint, exists p, bound_to (SetResolver env resolverName hint ns) resolverName p).
Proof.
  intros Hp. repeat split.
  - unfold SetResolver. rewrite decide_False by done. simpl. apply lookup_insert_eq.
  - intros r Hr. unfold SetResolver. rewrite (TrimPrefix_app "nomad://" r).
    rewrite decide_False by done. simpl. apply lookup_insert_eq.
  - unfold SetResolver. simpl. apply lookup_insert_eq.
  - intros hint. apply SetResolver_bound_to.
Qed.

(** What a save does for a bound resolver, by the two ways the encoder can
    go. *)
Lemma SaveAccount_bound resolverName ns p (A : Account) :
  bound_to ns resolverName p ->
  SaveAccount resolverName (Some A) ns
  = match json_Marshal (Some A) with
    | (_, Some msg) =>
        (mkNomadStore (client ns) (certCache ns)
           (<[resolverName := Some A]> (accountCache ns)) (paths ns),
         Returns (Some (jsonError msg)))
    | (b, None) =>
        let variable :=
          {| api.Path := path_Join p nomadStoreAccountType;
             api.Items := {[ nomadStoreAccountType := b ]} |} in
        (mkNomadStore (fst (Create variable (client ns))) (certCache ns)
           (<[resolverName := Some A]> (accountCache ns)) (paths ns),
         Returns (snd (Create variable (client ns))))
    end.
Proof.
  intros Hb. unfold SaveAccount.
  erewrite pathForResolverLocked_bound by exact Hb. simpl negb. cbv iota.
  destruct (json_Marshal (Some A)) as [b [msg|]] eqn:Hm.
  - by erewrite put_marshal_error by exact Hm.
  - by erewrite put_ok by exact Hm.
Qed.

Lemma SaveCertificates_bound resolverName ns p (Cs : slice (ptr CertAndStore)) :
  bound_to ns resolverName p ->
  SaveCertificates resolverName Cs ns
  = match json_Marshal Cs with
    | (_, Some msg) =>
        (mkNomadStore (client ns) (<[resolverName := Cs]> (certCache ns))
           (accountCache ns) (paths ns),
         Some (jsonError msg))
    | (b, None) =>
        let variable :=
          {| api.Path := path_Join p nomadStoreCertsType;
             api.Items := {[ nomadStoreCertsType := b ]} |} in
        (mkNomadStore (fst (Create variable (client ns)))
           (<[resolverName := Cs]> (certCache ns)) (accountCache ns) (paths ns),
         snd (Create variable (client ns)))
    end.
Proof.
  intros Hb. unfold SaveCertificates.
  erewrite pathForResolverLocked_bound by exact Hb. simpl negb. cbv iota.
  destruct (json_Marshal Cs) as [b [msg|]] eqn:Hm.
  - by erewrite put_marshal_error by exact Hm.
  - by erewrite put_ok by exact Hm.
Qed.

End Claims.

Section Remote.
Context `{GoLibrary}.
Context {C : Type} `{nomadVariablesAPI C}.
Context `{JSON (ptr Account)} `{JSON (slice (ptr CertAndStore))}.

Implicit Types (ns : NomadStore C) (ms : NomadStore mockNomadVariablesAPI).
Implicit Types (resolverName p : string).

(** What the mock holds at a path after a [Create] that it accepts: the
    variable it was given, whatever it held there before. *)
Lemma mock_Create_replaces (v : api.Variable_) (m : mockNomadVariablesAPI) :
  createErr m = None ->
  variables (fst (mock.Create v m)) !! api.Path v = Some v
  /\ snd (mock.Create v m) = None
  /\ createHitCounter (fst (mock.Create v m)) = int_incr (createHitCounter m)
  /\ getVarHitCounter (fst (mock.Create v m)) = getVarHitCounter m.
Proof.
  intros He. unfold mock.Create. simpl. rewrite He. simpl.
  by rewrite lookup_insert_eq.
Qed.

(** C8. For a bound resolver and a value the encoder accepts, [SaveAccount],
    resp. [SaveCertificates], makes exactly one call of the client: a
    [Create] of a variable whose path is the resolved path and whose items
    are the one entry that maps the key of the artifact ([account], resp.
    [certificates]) to the encoded value; the error returned is the one of
    that call. Nothing is read beforehand and nothing is merged in: on the
    mock, which keeps what it is given, the variable held at that path after
    the call is that one-item variable, whatever was held there before. When
    the encoder refuses the value no call is made at all. *)
Theorem save_creates_single_item resolverName p :
  (forall ns (A : Account) b,
      bound_to ns resolverName p ->
      json_Marshal (Some A) = (b, None) ->
      let variable :=
        {| api.Path := path_Join p "account"; api.Items := {[ "account" := b ]} |} in
      SaveAccount resolverName (Some A) ns
      = (mkNomadStore (fst (Create variable (client ns))) (certCache ns)
           (<[resolverName := Some A]> (accountCache ns)) (paths ns),
         Returns (snd (Create variable (client ns)))))
  /\ (forall ns (Cs : slice (ptr CertAndStore)) b,
      bound_to ns resolverName p ->
      json_Marshal Cs = (b, None) ->
      let variable :=
        {| api.Path := path_Join p "certificates";
           api.Items := {[ "certificates" := b ]} |} in
      SaveCertificates resolverName Cs ns
      = (mkNomadStore (fst (Create variable (client ns)))
           (<[resolverName := Cs]> (certCache ns)) (accountCache ns) (paths ns),
         snd (Create variable (client ns))))
  /\ (forall ms (A : Account) b,
      bound_to ms resolverName p ->
      json_Marshal (Some A) = (b, None) ->
      createErr (client ms) = None ->
      variables (client (fst (SaveAccount resolverName (Some A) ms)))
        !! path_Join p "account"
      = Some {| api.Path := path_Join p "account"; api.Items := {[ "account" := b ]} |})
  /\ (forall ms (Cs : slice (ptr CertAndStore)) b,
      bound_to ms resolverName p ->
      json_Marshal Cs = (b, None) ->
      createErr (client ms) = None ->
      variables (client (fst (SaveCertificates resolverName Cs ms)))
        !! path_Join p "certificates"
      = Some {| api.Path := path_Join p "certificates";
                api.Items := {[ "certificates" := b ]} |})
  /\ (forall ns (A : Account) b msg,
      bound_to ns resolverName p ->
      json_Marshal (Some A) = (b, Some msg) ->
      client (fst (SaveAccount resolverName (Some A) ns)) = client ns)
  /\ (forall ns (Cs : slice (ptr CertAndStore)) b msg,
      bound_to ns resolverName p ->
      json_Marshal Cs = (b, Some msg) ->
      client (fst (SaveCertificates resolverName Cs ns)) = client ns).
Proof.
  repeat split.
  - intros ns A b Hb Hm. rewrite (SaveAccount_bound _ _ _ _ Hb). by rewrite Hm.
  - intros ns Cs b Hb Hm. rewrite (SaveCertificates_bound _ _ _ _ Hb). by rewrite Hm.
  - intros ms A b Hb Hm He. rewrite (SaveAccount_bound _ _ _ _ Hb), Hm. simpl.
    by destruct (mock_Create_replaces
      {| api.Path := path_Join p "account"; api.Items := {[ "account" := b ]} |}
      _ He) as [Hv _].
  - intros ms Cs b Hb Hm He. rewrite (SaveCertificates_bound _ _ _ _ Hb), Hm. simpl.
    by destruct (mock_Create_replaces
      {| api.Path := path_Join p "certificates"; api.Items := {[ "certificates" := b ]} |}
      _ He) as [Hv _].
  - intros ns A b msg Hb Hm. rewrite (SaveAccount_bound _ _ _ _ Hb). by rewrite Hm.
  - intros ns Cs b msg Hb Hm. rewrite (SaveCertificates_bound _ _ _ _ Hb). by rewrite Hm.
Qed.

End Remote.

Section Absence.
Context `{GoLibrary}.
Context {C : Type} `{nomadVariablesAPI C}.
Context `{JSON (ptr Account)} `{JSON (slice (ptr CertAndStore))}.

Implicit Types (ns : NomadStore C) (resolverName p : string).

(** One read that finds no path: nil, nil, the caches and paths as before,
    and the client after its one [GetVariableItems]. *)
Lemma GetAccount_absent resolverName ns p :
  bound_to ns resolverName p ->
  accountCache ns !! resolverName = None ->
  errors.Is (snd (snd (GetVariableItems (path_Join p nomadStoreAccountType) (client ns))))
    ErrVariablePathNotFound = true ->
  GetAccount resolverName ns
  = (mkNomadStore (fst (GetVariableItems (path_Join p nomadStoreAccountType) (client ns)))
       (certCache ns) (accountCache ns) (paths ns),
     (None, None)).
Proof.
  intros Hb Hc He.
  destruct (GetVariableItems _ _) as [c [items [e|]]] eqn:Hr; [| discriminate].
  rewrite (GetAccount_read_error _ _ _ _ _ _ Hc Hb Hr).
  change (errors.Is (Some e) ErrVariablePathNotFound = true) in He. by rewrite He.
Qed.

Lemma GetCertificates_absent resolverName ns p :
  bound_to ns resolverName p ->
  certCache ns !! resolverName = None ->
  errors.Is (snd (snd (GetVariableItems (path_Join p nomadStoreCertsType) (client ns))))
    ErrVariablePathNotFound = true ->
  GetCertificates resolverName ns
  = (mkNomadStore (fst (GetVariableItems (path_Join p nomadStoreCertsType) (client ns)))
       (certCache ns) (accountCache ns) (paths ns),
     (None, None)).
Proof.
  intros Hb Hc He.
  destruct (GetVariableItems _ _) as [c [items [e|]]] eqn:Hr; [| discriminate].
  rewrite (GetCertificates_read_error _ _ _ _ _ _ Hc Hb Hr).
  change (errors.Is (Some e) ErrVariablePathNotFound = true) in He. by rewrite He.
Qed.

(** C10. For a bound resolver that is not in the cache, as long as the remote
    store keeps answering that the path is not found, every one of [n]
    successive calls of [GetAccount] returns nil, nil; after them the caches
    and the paths are those of before the first call, nothing having been
    inserted, and the client is the one of before after [n] calls of
    [GetVariableItems] on the resolved path: each call went to the remote
    store again. The same for [GetCertificates]. *)
Theorem absence_is_never_cached resolverName p (n : nat) :
  (forall ns,
      bound_to ns resolverName p ->
      accountCache ns !! resolverName = None ->
      absent_for n (path_Join p "account") (client ns) ->
      GetAccount_times n resolverName ns
      = (mkNomadStore (read_times n (path_Join p "account") (client ns))
           (certCache ns) (accountCache ns) (paths ns),
         replicate n (None, None)))
  /\ (forall ns,
      bound_to ns resolverName p ->
      certCache ns !! resolverName = None ->
      absent_for n (path_Join p "certificates") (client ns) ->
      GetCertificates_times n resolverName ns
      = (mkNomadStore (read_times n (path_Join p "certificates") (client ns))
           (certCache ns) (accountCache ns) (paths ns),
         replicate n (None, None))).
Proof.
  split.
  - induction n as [|n IH]; intros ns Hb Hc Ha.
    + by destruct ns.
    + destruct Ha as [He Ha]. cbn [GetAccount_times read_times replicate].
      rewrite (GetAccount_absent _ _ _ Hb Hc He).
      by rewrite IH.
  - induction n as [|n IH]; intros ns Hb Hc Ha.
    + by destruct ns.
    + destruct Ha as [He Ha]. cbn [GetCertificates_times read_times replicate].
      rewrite (GetCertificates_absent _ _ _ Hb Hc He).
      by rewrite IH.
Qed.

End Absence.

(** * More of the store *)

Section StoreLife.
Context `{GoLibrary}.
Context {C : Type} `{nomadVariablesAPI C}.
Context `{JSON (ptr Account)} `{JSON (slice (ptr CertAndStore))}.

Implicit Types (ns : NomadStore C) (env : gmap string string).
Implicit Types (resolverName variablesPath p : string).

Lemma Getenv_empty env key :
  os.Getenv env key = "" <-> env !! key = None \/ env !! key = Some "".
Proof.
  unfold os.Getenv. destruct (env !! key) as [v|]; simpl.
  - split; [intros ->; by right | by intros [|[= ->]]].
  - split; [by left | done].
Qed.

(** The four methods on a resolver that [paths] does not know. *)
Lemma GetAccount_unbound resolverName ns :
  paths ns !! resolverName = None -> accountCache ns !! resolverName = None ->
  GetAccount resolverName ns = (ns, (None, Some ErrNoNomadVariableForResolver)).
Proof.
  intros Hp Hc. unfold GetAccount. rewrite Hc.
  by rewrite (pathForResolverLocked_unbound _ _ _ Hp).
Qed.

Lemma GetCertificates_unbound resolverName ns :
  paths ns !! resolverName = None -> certCache ns !! resolverName = None ->
  GetCertificates resolverName ns = (ns, (None, Some ErrNoNomadVariableForResolver)).
Proof.
  intros Hp Hc. unfold GetCertificates. rewrite Hc.
  by rewrite (pathForResolverLocked_unbound _ _ _ Hp).
Qed.

Lemma SaveAccount_unbound resolverName (A : Account) ns :
  paths ns !! resolverName = None ->
  snd (SaveAccount resolverName (Some A) ns) = Returns (Some ErrNoNomadVariableForResolver).
Proof. intros Hp. unfold SaveAccount. by rewrite pathForResolverLocked_unbound. Qed.

Lemma SaveCertificates_unbound resolverName Cs ns :
  paths ns !! resolverName = None ->
  snd (SaveCertificates resolverName Cs ns) = Some ErrNoNomadVariableForResolver.
Proof. intros Hp. unfold SaveCertificates. by rewrite pathForResolverLocked_unbound. Qed.

(** X1. [MaybeNewNomadStore] gives no store exactly when the token or the
    secrets directory is missing from the environment or set to the empty
    string; the store it gives otherwise has the client it was given and
    knows no resolver: every read and every save answers
    [ErrNoNomadVariableForResolver] until [SetResolver] is called. *)
Theorem MaybeNewNomadStore_needs_token_and_secrets env (taskClient : C) :
  (MaybeNewNomadStore env taskClient = None
   <-> (env !! envNomadToken = None \/ env !! envNomadToken = Some "")
       \/ (env !! envNomadSecretsDir = None \/ env !! envNomadSecretsDir = Some ""))
  /\ (forall ns, MaybeNewNomadStore env taskClient = Some ns ->
      client ns = taskClient
      /\ forall resolverName (A : Account) (Cs : slice (ptr CertAndStore)),
          snd (GetAccount resolverName ns) = (None, Some ErrNoNomadVariableForResolver)
          /\ snd (GetCertificates resolverName ns)
             = (None, Some ErrNoNomadVariableForResolver)
          /\ snd (SaveAccount resolverName (Some A) ns)
             = Returns (Some ErrNoNomadVariableForResolver)
          /\ snd (SaveCertificates resolverName Cs ns)
             = Some ErrNoNomadVariableForResolver).
Proof.
  rewrite <- !Getenv_empty. unfold MaybeNewNomadStore. split.
  - destruct (decide (os.Getenv env envNomadToken = "")) as [Ht|Ht];
      destruct (decide (os.Getenv env envNomadSecretsDir = "")) as [Hs|Hs];
      rewrite ?(bool_decide_eq_true_2 _ Ht), ?(bool_decide_eq_false_2 _ Ht),
        ?(bool_decide_eq_true_2 _ Hs), ?(bool_decide_eq_false_2 _ Hs); simpl;
      split; intros Hx; try done; try (by left); try (by right).
    by destruct Hx.
  - intros ns Hns. destruct (_ || _)%bool; [done |]. injection Hns as <-.
    split; [done |]. intros resolverName A Cs.
    rewrite GetAccount_unbound, GetCertificates_unbound, SaveAccount_unbound,
      SaveCertificates_unbound by apply lookup_empty.
    done.
Qed.

(** X2. When a read of a bound resolver goes to the remote store and the
    payload decodes, the decoded value (a nil one included, as for the JSON
    [null]) is returned and put in the cache, and the next read of that
    resolver returns it again with the store, client included, left as it
    is: one fetch, then cache hits. For accounts and for certificates. *)
Theorem fetched_value_is_cached resolverName ns p :
  bound_to ns resolverName p ->
  (forall c items v,
      accountCache ns !! resolverName = None ->
      GetVariableItems (path_Join p "account") (client ns) = (c, (items, None)) ->
      json_Unmarshal (default "" (items !! "account")) (None : ptr Account) = (v, None) ->
      let ns1 := fst (GetAccount resolverName ns) in
      snd (GetAccount resolverName ns) = (v, None)
      /\ client ns1 = c
      /\ accountCache ns1 = <[resolverName := v]> (accountCache ns)
      /\ GetAccount resolverName ns1 = (ns1, (v, None)))
  /\ (forall c items v,
      certCache ns !! resolverName = None ->
      GetVariableItems (path_Join p "certificates") (client ns) = (c, (items, None)) ->
      json_Unmarshal (default "" (items !! "certificates"))
        (None : slice (ptr CertAndStore)) = (v, None) ->
      let ns1 := fst (GetCertificates resolverName ns) in
      snd (GetCertificates resolverName ns) = (v, None)
      /\ client ns1 = c
      /\ certCache ns1 = <[resolverName := v]> (certCache ns)
      /\ GetCertificates resolverName ns1 = (ns1, (v, None))).
Proof.
  intros Hb. split; intros c items v Hc Hr Hu ns1; subst ns1.
  - rewrite (GetAccount_decoded _ _ _ _ _ Hc Hb Hr).
    change nomadStoreAccountType with "account". rewrite Hu. simpl.
    repeat split. apply GetAccount_cached. simpl. apply lookup_insert_eq.
  - rewrite (GetCertificates_decoded _ _ _ _ _ Hc Hb Hr).
    change nomadStoreCertsType with "certificates". rewrite Hu. simpl.
    repeat split. apply GetCertificates_cached. simpl. apply lookup_insert_eq.
Qed.

(** X3. After a save, however it ended (nil error, no binding, an error of
    the encoder or of the remote write, the panic on a nil account), the
    next read of the same resolver returns the value that was being saved
    and a nil error, from the cache, with the store left as it is: a write
    that failed is still what the store answers. *)
Theorem get_after_any_save resolverName ns :
  (forall V : ptr Account,
      let ns1 := fst (SaveAccount resolverName V ns) in
      GetAccount resolverName ns1 = (ns1, (V, None)))
  /\ (forall V : slice (ptr CertAndStore),
      let ns1 := fst (SaveCertificates resolverName V ns) in
      GetCertificates resolverName ns1 = (ns1, (V, None))).
Proof.
  split; intros V ns1; subst ns1.
  - apply GetAccount_cached. rewrite SaveAccount_accountCache. apply lookup_insert_eq.
  - apply GetCertificates_cached. rewrite SaveCertificates_certCache.
    apply lookup_insert_eq.
Qed.

(** X4. Binding a resolver again does not touch the caches: a resolver that
    is in the cache is still answered from it after [SetResolver], whatever
    the new path, and nothing is read from that path. *)
Theorem rebinding_keeps_cache env resolverName variablesPath ns :
  (forall account, accountCache ns !! resolverName = Some account ->
      GetAccount resolverName (SetResolver env resolverName variablesPath ns)
      = (SetResolver env resolverName variablesPath ns, (account, None)))
  /\ (forall certificates, certCache ns !! resolverName = Some certificates ->
      GetCertificates resolverName (SetResolver env resolverName variablesPath ns)
      = (SetResolver env resolverName variablesPath ns, (certificates, None)))
  /\ client (SetResolver env resolverName variablesPath ns) = client ns.
Proof.
  repeat split.
  - intros account Hc. by apply GetAccount_cached.
  - intros certificates Hc. by apply GetCertificates_cached.
Qed.

(** X5. The last binding of a resolver is the one that counts, and bindings
    of different resolvers do not disturb one another, in whatever order
    they are made. *)
Theorem SetResolver_last_wins env1 env2 resolverName other hint1 hint2 ns :
  SetResolver env2 resolverName hint2 (SetResolver env1 resolverName hint1 ns)
  = SetResolver env2 resolverName hint2 ns
  /\ (other <> resolverName ->
      SetResolver env2 other hint2 (SetResolver env1 resolverName hint1 ns)
      = SetResolver env1 resolverName hint1 (SetResolver env2 other hint2 ns)).
Proof.
  unfold SetResolver, set_paths; simpl. split.
  - by rewrite insert_insert_eq.
  - intros Hne. f_equal. by apply insert_insert_ne.
Qed.

(** X6. Two resolvers whose names differ by the case of their letters only
    are two entries of [paths] (and of the caches), but when neither is
    given a path of its own both are bound to one and the same path in the
    remote store. *)
Theorem case_variants_share_path env r1 r2 hint1 hint2 ns :
  strings.ToLower unicode_lower r1 = strings.ToLower unicode_lower r2 ->
  strings.TrimPrefix hint1 "nomad://" = "" ->
  strings.TrimPrefix hint2 "nomad://" = "" ->
  let ns' := SetResolver env r1 hint1 (SetResolver env r2 hint2 ns) in
  exists p, bound_to ns' r1 p /\ bound_to ns' r2 p.
Proof.
  intros Hl Hh1 Hh2 ns'. subst ns'. unfold bound_to, SetResolver. simpl.
  rewrite Hh1, Hh2. simpl. rewrite Hl. eexists. rewrite lookup_insert_eq.
  repeat split; try apply Sprintf_variables_path_nonempty.
  destruct (decide (r1 = r2)) as [->|Hne].
  - apply lookup_insert_eq.
  - rewrite lookup_insert_ne by done. apply lookup_insert_eq.
Qed.

(** What a step leaves alone. *)
Lemma step_paths ns ns' :
  step ns ns' ->
  paths ns' = paths ns
  \/ exists env resolverName variablesPath,
       ns' = SetResolver env resolverName variablesPath ns.
Proof.
  intros [env r h s | r s | r a s | r s | r cs s | c s].
  - right; eauto.
  - left. apply GetAccount_paths.
  - left. apply SaveAccount_paths.
  - left. apply GetCertificates_paths.
  - left. apply SaveCertificates_paths.
  - by left.
Qed.

Lemma step_paths_nonempty ns ns' : step ns ns' -> paths_nonempty ns -> paths_nonempty ns'.
Proof.
  intros Hs Hinv. destruct (step_paths _ _ Hs) as [Hp | (env & r & h & ->)].
  - unfold paths_nonempty. by rewrite Hp.
  - by apply SetResolver_paths_nonempty.
Qed.

Lemma step_keeps_bound ns ns' resolverName :
  step ns ns' -> is_Some (paths ns !! resolverName) -> is_Some (paths ns' !! resolverName).
Proof.
  intros Hs Hb. destruct (step_paths _ _ Hs) as [Hp | (env & r & h & ->)].
  - by rewrite Hp.
  - unfold SetResolver; simpl. destruct (decide (r = resolverName)) as [->|Hne].
    + rewrite lookup_insert_eq. by eexists.
    + by rewrite lookup_insert_ne.
Qed.

(** X7. In every store that [MaybeNewNomadStore] made and that was then used
    through its methods (its client possibly replaced), no resolver is
    mapped to the empty path: what [paths] knows, [pathForResolverLocked]
    accepts. *)
Theorem reachable_paths_nonempty ns :
  reachable ns ->
  forall resolverName p itemType,
    paths ns !! resolverName = Some p ->
    p <> "" /\ pathForResolverLocked ns resolverName itemType = (path_Join p itemType, true).
Proof.
  intros (env & c & ns0 & Hnew & Hsteps).
  assert (Hinv : paths_nonempty ns).
  { apply MaybeNewNomadStore_paths_nonempty in Hnew.
    induction Hsteps as [|x y z Hxy _ IH]; [done |].
    apply IH. by eapply step_paths_nonempty. }
  intros resolverName p itemType Hp.
  pose proof (paths_nonempty_bound_to _ _ _ Hinv Hp) as Hb.
  split; [apply Hb | by apply pathForResolverLocked_bound].
Qed.

(** X8. No method unbinds a resolver: once [SetResolver] has been called for
    it on a store in use, then after any further sequence of calls the
    resolver is still bound, to a path that is not empty. *)
Theorem bound_resolver_stays_bound env resolverName variablesPath ns ns' :
  reachable ns ->
  rtc step (SetResolver env resolverName variablesPath ns) ns' ->
  exists p, bound_to ns' resolverName p.
Proof.
  intros (env0 & c & ns0 & Hnew & Hsteps0) Hsteps.
  assert (Hinv : paths_nonempty ns' /\ is_Some (paths ns' !! resolverName)).
  { assert (Hstart : paths_nonempty (SetResolver env resolverName variablesPath ns)
                     /\ is_Some (paths (SetResolver env resolverName variablesPath ns)
                                   !! resolverName)).
    { split.
      - apply SetResolver_paths_nonempty.
        apply MaybeNewNomadStore_paths_nonempty in Hnew.
        clear Hsteps. induction Hsteps0 as [|x y z Hxy _ IH]; [done |].
        apply IH. by eapply step_paths_nonempty.
      - destruct (SetResolver_bound_to env resolverName variablesPath ns) as [q [Hq _]].
        by eexists. }
    clear Hsteps0 Hnew. induction Hsteps as [|x y z Hxy _ IH]; [done |].
    apply IH. destruct Hstart as [Ha Hb]. split.
    - by eapply step_paths_nonempty.
    - by eapply step_keeps_bound. }
  destruct Hinv as [Hne [p Hp]]. exists p. by apply paths_nonempty_bound_to.
Qed.

(** X9. A method called for one resolver leaves the cache entries of every
    other resolver as they are, and the methods for accounts never touch
    the cache of certificates, nor those for certificates the cache of
    accounts. *)
Theorem methods_touch_one_cache_entry resolverName other ns :
  other <> resolverName ->
  (accountCache (fst (GetAccount resolverName ns)) !! other = accountCache ns !! other
   /\ certCache (fst (GetAccount resolverName ns)) = certCache ns)
  /\ (forall V,
      accountCache (fst (SaveAccount resolverName V ns)) !! other = accountCache ns !! other
      /\ certCache (fst (SaveAccount resolverName V ns)) = certCache ns)
  /\ (certCache (fst (GetCertificates resolverName ns)) !! other = certCache ns !! other
      /\ accountCache (fst (GetCertificates resolverName ns)) = accountCache ns)
  /\ (forall V,
      certCache (fst (SaveCertificates resolverName V ns)) !! other = certCache ns !! other
      /\ accountCache (fst (SaveCertificates resolverName V ns)) = accountCache ns).
Proof.
  intros Hne. repeat split.
  - unfold GetAccount. destruct (accountCache ns !! resolverName); [done |].
    destruct (pathForResolverLocked _ _ _) as [accountPath [|]]; simpl; [| done].
    match goal with |- context [get ?s ?pa ?k] =>
      pose proof (get_frame (T := option Account) s pa k) as (_ & Hc & _);
      destruct (get s pa k) as [ns' [account err]] end.
    simpl in Hc. destruct (errors.Is err _); [simpl; by rewrite Hc |].
    destruct err; simpl; [by rewrite Hc |]. by rewrite lookup_insert_ne, Hc.
  - unfold GetAccount. destruct (accountCache ns !! resolverName); [done |].
    destruct (pathForResolverLocked _ _ _) as [accountPath [|]]; simpl; [| done].
    match goal with |- context [get ?s ?pa ?k] =>
      pose proof (get_frame (T := option Account) s pa k) as (Hc & _ & _);
      destruct (get s pa k) as [ns' [account err]] end.
    simpl in Hc. destruct (errors.Is err _); [done |]. by destruct err.
  - rewrite SaveAccount_accountCache. by rewrite lookup_insert_ne.
  - unfold SaveAccount. destruct V as [a|]; [| done].
    destruct (pathForResolverLocked _ _ _) as [accountPath [|]]; simpl; [| done].
    match goal with |- context [put ?s ?pa ?k ?i] =>
      pose proof (put_frame s pa k i) as (Hc & _ & _); destruct (put s pa k i) end.
    exact Hc.
  - unfold GetCertificates. destruct (certCache ns !! resolverName); [done |].
    destruct (pathForResolverLocked _ _ _) as [certPath [|]]; simpl; [| done].
    match goal with |- context [get ?s ?pa ?k] =>
      pose proof (get_frame (T := option (list (option CertAndStore))) s pa k)
        as (Hc & _ & _);
      destruct (get s pa k) as [ns' [certificates err]] end.
    simpl in Hc. destruct (errors.Is err _); [simpl; by rewrite Hc |].
    destruct err; simpl; [by rewrite Hc |]. by rewrite lookup_insert_ne, Hc.
  - unfold GetCertificates. destruct (certCache ns !! resolverName); [done |].
    destruct (pathForResolverLocked _ _ _) as [certPath [|]]; simpl; [| done].
    match goal with |- context [get ?s ?pa ?k] =>
      pose proof (get_frame (T := option (list (option CertAndStore))) s pa k)
        as (_ & Hc & _);
      destruct (get s pa k) as [ns' [certificates err]] end.
    simpl in Hc. destruct (errors.Is err _); [done |]. by destruct err.
  - rewrite SaveCertificates_certCache. by rewrite lookup_insert_ne.
  - unfold SaveCertificates.
    destruct (pathForResolverLocked _ _ _) as [certPath [|]]; simpl; [| done].
    match goal with |- context [put ?s ?pa ?k ?i] =>
      pose proof (put_frame s pa k i) as (_ & Hc & _) end.
    exact Hc.
Qed.

End StoreLife.

(** * The store over the mock client: what is saved can be read back *)

Section Persistence.
Context `{GoLibrary}.
Context `{JSON (ptr Account)} `{JSON (slice (ptr CertAndStore))}.

Implicit Types (m : mockNomadVariablesAPI) (ms : NomadStore mockNomadVariablesAPI).
Implicit Types (resolverName p : string).

Lemma mock_Create_ok (v : api.Variable_) m :
  createErr m = None ->
  mock.Create v m
  = (mkMock None (getVarItemsErr m) (<[api.Path v := v]> (variables m))
       (int_incr (createHitCounter m)) (getVarHitCounter m), None).
Proof. intros He. unfold mock.Create. simpl. by rewrite He. Qed.

Lemma mock_GetVariableItems_ok (path : string) m :
  getVarItemsErr m = None ->
  mock.GetVariableItems path m
  = (mkMock (createErr m) None (variables m) (createHitCounter m)
       (int_incr (getVarHitCounter m)),
     match variables m !! path with
     | Some v => (api.Items v, None)
     | None => (∅, Some ErrVariablePathNotFound)
     end).
Proof.
  intros He. unfold mock.GetVariableItems. simpl. rewrite He.
  by destruct (variables m !! path).
Qed.

(** X10. The mock is a store of variables by path: when no error is
    injected, a variable that has been created is what a read of its path
    gives, a read of any other path gives what it gave before, and each call
    moves its own counter by one and leaves the other alone. With an error
    injected, a [Create] stores nothing and still counts. *)
Theorem mock_reads_what_was_created (v : api.Variable_) (path : string) m :
  getVarItemsErr m = None ->
  let m' := (mock.Create v m).1 in
  (createErr m = None ->
   (mock.GetVariableItems (api.Path v) m').2 = (api.Items v, None)
   /\ (path <> api.Path v ->
       (mock.GetVariableItems path m').2 = (mock.GetVariableItems path m).2))
  /\ (createErr m <> None ->
      (mock.GetVariableItems path m').2 = (mock.GetVariableItems path m).2)
  /\ createHitCounter m' = int_incr (createHitCounter m)
  /\ getVarHitCounter m' = getVarHitCounter m
  /\ createHitCounter (mock.GetVariableItems path m').1 = createHitCounter m'
  /\ getVarHitCounter (mock.GetVariableItems path m').1 = int_incr (getVarHitCounter m').
Proof.
  intros Hg. cbv zeta. destruct (createErr m) as [e|] eqn:He.
  - unfold mock.Create. simpl. rewrite He. simpl.
    rewrite !mock_GetVariableItems_ok by done. simpl. by repeat split.
  - rewrite mock_Create_ok by done. simpl.
    rewrite !mock_GetVariableItems_ok by done. simpl.
    rewrite lookup_insert_eq. repeat split; try done.
    intros Hne. by rewrite lookup_insert_ne.
Qed.

(** X11. An account saved by one store is what another store reads: the
    second store has its own (empty) cache, talks to the mock as the first
    left it, and has a resolver bound to the same path. The value read is
    the saved bytes, decoded. Likewise for certificates. *)
Theorem saved_value_is_read_back ms ms2 r r2 p (A : Account)
    (Cs : slice (ptr CertAndStore)) b bc v vc :
  createErr (client ms) = None ->
  getVarItemsErr (client ms) = None ->
  bound_to ms r p -> bound_to ms2 r2 p ->
  accountCache ms2 !! r2 = None -> certCache ms2 !! r2 = None ->
  json_Marshal (Some A) = (b, None) -> json_Unmarshal b (None : ptr Account) = (v, None) ->
  json_Marshal Cs = (bc, None) ->
  json_Unmarshal bc (None : slice (ptr CertAndStore)) = (vc, None) ->
  ((SaveAccount r (Some A) ms).2 = Returns None
   /\ (GetAccount r2 (set_client (client (SaveAccount r (Some A) ms).1) ms2)).2 = (v, None))
  /\ ((SaveCertificates r Cs ms).2 = None
      /\ (GetCertificates r2 (set_client (client (SaveCertificates r Cs ms).1) ms2)).2
         = (vc, None)).
Proof.
  intros Hce Hge Hb Hb2 Hc2 Hcc2 Hm Hu Hmc Huc. split.
  - rewrite (SaveAccount_bound _ _ _ _ Hb), Hm. cbv zeta. simpl.
    change (@Create _ mock_nomadVariablesAPI) with mock.Create.
    rewrite mock_Create_ok by done. simpl. split; [done |].
    erewrite (GetAccount_decoded r2 _ p); [| done | done |].
    2:{ simpl. change (@GetVariableItems _ mock_nomadVariablesAPI) with mock.GetVariableItems.
        rewrite mock_GetVariableItems_ok by done. simpl. by rewrite lookup_insert_eq. }
    simpl. rewrite lookup_singleton_eq. simpl. by rewrite Hu.
  - rewrite (SaveCertificates_bound _ _ _ _ Hb), Hmc. cbv zeta. simpl.
    change (@Create _ mock_nomadVariablesAPI) with mock.Create.
    rewrite mock_Create_ok by done. simpl. split; [done |].
    erewrite (GetCertificates_decoded r2 _ p); [| done | done |].
    2:{ simpl. change (@GetVariableItems _ mock_nomadVariablesAPI) with mock.GetVariableItems.
        rewrite mock_GetVariableItems_ok by done. simpl. by rewrite lookup_insert_eq. }
    simpl. rewrite lookup_singleton_eq. simpl. by rewrite Huc.
Qed.

(** X12. The account and the certificates of a resolver live in two
    variables: provided [path.Join] gives two paths for the two kinds,
    saving the certificates after the account leaves the account readable
    by a store that starts with an empty cache. *)
Theorem certificates_do_not_overwrite_account ms ms2 r r2 p (A : Account)
    (Cs : slice (ptr CertAndStore)) b bc v :
  createErr (client ms) = None ->
  getVarItemsErr (client ms) = None ->
  path_Join p nomadStoreAccountType <> path_Join p nomadStoreCertsType ->
  bound_to ms r p -> bound_to ms2 r2 p ->
  accountCache ms2 !! r2 = None ->
  json_Marshal (Some A) = (b, None) -> json_Unmarshal b (None : ptr Account) = (v, None) ->
  json_Marshal Cs = (bc, None) ->
  let ms' := (SaveCertificates r Cs (SaveAccount r (Some A) ms).1).1 in
  (GetAccount r2 (set_client (client ms') ms2)).2 = (v, None).
Proof.
  intros Hce Hge Hne Hb Hb2 Hc2 Hm Hu Hmc. cbv zeta.
  rewrite (SaveAccount_bound _ _ _ _ Hb), Hm. cbv zeta. simpl.
  change (@Create _ mock_nomadVariablesAPI) with mock.Create.
  rewrite mock_Create_ok by done. simpl.
  erewrite (SaveCertificates_bound r _ p); [| done]. rewrite Hmc. cbv zeta. simpl.
  erewrite (GetAccount_decoded r2 _ p); [| done | done |].
  2:{ simpl. change (@GetVariableItems _ mock_nomadVariablesAPI) with mock.GetVariableItems.
      rewrite mock_GetVariableItems_ok by done. simpl.
      rewrite lookup_insert_ne by done. by rewrite lookup_insert_eq. }
  simpl. rewrite lookup_singleton_eq. simpl. by rewrite Hu.
Qed.

End Persistence.

(** * The provider *)

(** ** Strings *)

Lemma append_cons (x : ascii) (a b : string) : String x a +:+ b = String x (a +:+ b).
Proof. reflexivity. Qed.

Lemma append_assoc (a b c : string) : (a +:+ b) +:+ c = a +:+ (b +:+ c).
Proof. induction a as [|x a IH]; [done |]. by rewrite !append_cons, IH. Qed.

Lemma has_byte_app (c : ascii) (a b : string) :
  net.has_byte c (a +:+ b) = (net.has_byte c a || net.has_byte c b)%bool.
Proof.
  induction a as [|x a IH]; [done |].
  rewrite append_cons. simpl. by rewrite IH, orb_assoc.
Qed.

(** [cut] finds the first separator: what it returns puts the string back
    together, and the first part has no separator in it. *)
Lemma cut_Some (sep : ascii) (s a b : string) :
  strings2.cut sep s = Some (a, b) <-> s = a +:+ String sep b /\ net.has_byte sep a = false.
Proof.
  revert a. induction s as [|c s IH]; intros a; simpl.
  - split; [done |]. intros [Hs _]. by destruct a.
  - case_decide as Hc.
    + subst c. split.
      * by intros [= <- <-].
      * intros [Hs Ha]. destruct a as [|x a]; simpl in *; [by injection Hs as -> |].
        injection Hs as -> _. rewrite bool_decide_eq_true_2 in Ha by done. done.
    + destruct (strings2.cut sep s) as [[a' b']|] eqn:Hcut.
      * split.
        -- intros [= <- <-]. destruct (proj1 (IH a') eq_refl) as [Hs Ha']. rewrite Hs at 1.
           simpl. by rewrite bool_decide_eq_false_2.
        -- intros [Hs Ha]. destruct a as [|x a]; simpl in *; [by injection Hs |].
           injection Hs as -> Hs. apply orb_false_elim in Ha as [_ Ha].
           pose proof (proj2 (IH a) (conj Hs Ha)) as Hcut'. congruence.
      * split; [done |]. intros [Hs Ha].
        destruct a as [|x a]; simpl in *; [by injection Hs |].
        injection Hs as -> Hs. apply orb_false_elim in Ha as [_ Ha].
        pose proof (proj2 (IH a) (conj Hs Ha)) as Hcut'. congruence.
Qed.

Lemma cut_None (sep : ascii) (s : string) :
  strings2.cut sep s = None <-> net.has_byte sep s = false.
Proof.
  induction s as [|c s IH]; simpl; [done |].
  case_decide as Hc.
  - subst. by rewrite bool_decide_eq_true_2.
  - rewrite bool_decide_eq_false_2 by done. simpl. rewrite <- IH.
    by destruct (strings2.cut sep s) as [[??]|].
Qed.

(** [SplitN] with [n = 2]: two parts when there is a separator, the string
    itself when there is none (the empty string included). *)
Lemma SplitN_2 (s : string) (sep : ascii) :
  strings2.SplitN s sep 2
  = match strings2.cut sep s with Some (a, b) => [a; b] | None => [s] end.
Proof.
  unfold strings2.SplitN. destruct s as [|c s]; [done |].
  simpl String.length. replace (Nat.min 2 (S (String.length s) + 1) - 1) with 1 by lia.
  simpl. by destruct (if decide (c = sep) then _ else _) as [[??]|].
Qed.

(** ** Tags *)

Lemma label_step (prefix tag : string) (labels : gmap string string) :
  (if strings.HasPrefix tag prefix then
     match strings2.SplitN tag "=" 2 with
     | [key; value] => <["traefik" +:+ strings.TrimPrefix key prefix := value]> labels
     | _ => labels
     end
   else labels)
  = match tag_label prefix tag with
    | Some (k, v) => <[k := v]> labels
    | None => labels
    end.
Proof.
  unfold tag_label. destruct (strings.HasPrefix tag prefix); [| done].
  rewrite SplitN_2. by destruct (strings2.cut "=" tag) as [[??]|].
Qed.

Lemma tagsToLabels_fold (tags : slice string) (prefix : string) :
  nomad.tagsToLabels tags prefix
  = foldl (fun labels tag =>
             match tag_label prefix tag with
             | Some (k, v) => <[k := v]> labels
             | None => labels
             end) ∅ (default [] tags).
Proof.
  unfold nomad.tagsToLabels. generalize (∅ : gmap string string).
  induction (default [] tags) as [|t l IH]; intros acc; [done |].
  simpl foldl. rewrite label_step. apply IH.
Qed.

Lemma fold_labels_acc (prefix : string) (l : list string) (acc : gmap string string) :
  foldl (fun labels tag =>
           match tag_label prefix tag with
           | Some (k, v) => <[k := v]> labels
           | None => labels
           end) acc l
  = foldl (fun labels tag =>
             match tag_label prefix tag with
             | Some (k, v) => <[k := v]> labels
             | None => labels
             end) ∅ l ∪ acc.
Proof.
  revert acc. induction l as [|t l IH]; intros acc; simpl.
  - by rewrite (left_id_L ∅ (∪)).
  - rewrite IH. rewrite (IH (match tag_label prefix t with
                             | Some (k, v) => <[k:=v]> ∅ | None => ∅ end)).
    destruct (tag_label prefix t) as [[k v]|].
    + rewrite (insert_union_singleton_l acc), <- insert_empty.
      by rewrite (assoc_L (∪)).
    + by rewrite (right_id_L ∅ (∪)).
Qed.

(** X13. The labels of a list of tags put after another are the labels of the
    second list, completed by those of the first: where two tags give the
    same key, the later tag wins. *)
Theorem tagsToLabels_later_tag_wins (l1 l2 : list string) (prefix : string) :
  nomad.tagsToLabels (Some (l1 ++ l2)%list) prefix
  = nomad.tagsToLabels (Some l2) prefix ∪ nomad.tagsToLabels (Some l1) prefix.
Proof.
  rewrite !tagsToLabels_fold. simpl. rewrite foldl_app. apply fold_labels_acc.
Qed.

(** A tag made of the prefix, a key, an equals sign and a value. *)
Lemma tag_label_well_formed (prefix k v : string) :
  net.has_byte "=" prefix = false -> net.has_byte "=" k = false ->
  tag_label prefix (prefix +:+ k +:+ "=" +:+ v) = Some ("traefik" +:+ k, v).
Proof.
  intros Hp Hk. unfold tag_label, strings.HasPrefix. rewrite prefix_app.
  assert (Hcut : strings2.cut "=" (prefix +:+ k +:+ "=" +:+ v) = Some (prefix +:+ k, v)).
  { apply cut_Some. split.
    - by rewrite append_assoc.
    - by rewrite has_byte_app, Hp, Hk. }
  rewrite Hcut. by rewrite TrimPrefix_app.
Qed.

(** X14. With a prefix that has no equals sign in it, a tag [prefix k = v],
    where [k] has no equals sign either, gives the label [traefik k] the
    value [v], equals signs in [v] included; it does so wherever the tag is
    in the list, provided no later tag gives that label too. *)
Theorem tagsToLabels_reads_tag (before after : list string) (prefix k v : string) :
  net.has_byte "=" prefix = false ->
  net.has_byte "=" k = false ->
  nomad.tagsToLabels (Some after) prefix !! ("traefik" +:+ k) = None ->
  nomad.tagsToLabels (Some (before ++ (prefix +:+ k +:+ "=" +:+ v) :: after)%list) prefix
    !! ("traefik" +:+ k) = Some v.
Proof.
  intros Hp Hk Hafter.
  change (before ++ (prefix +:+ k +:+ "=" +:+ v) :: after)%list
    with (before ++ [prefix +:+ k +:+ "=" +:+ v] ++ after)%list.
  rewrite !tagsToLabels_fold in *. simpl in *. rewrite !foldl_app. simpl.
  rewrite fold_labels_acc. rewrite lookup_union_r by exact Hafter.
  rewrite (tag_label_well_formed _ _ _ Hp Hk). apply lookup_insert_eq.
Qed.

(** X15. Nothing is made up: every label comes from a tag of the list that
    starts with the prefix and has an equals sign; its value is all that
    follows the first equals sign of the tag, and its key is [traefik]
    followed by what precedes it, less the prefix. *)
Theorem tagsToLabels_only_from_tags (tags : slice string) (prefix key value : string) :
  nomad.tagsToLabels tags prefix !! key = Some value ->
  exists tag k,
    tag ∈ default [] tags
    /\ strings.HasPrefix tag prefix = true
    /\ tag = k +:+ "=" +:+ value
    /\ net.has_byte "=" k = false
    /\ key = "traefik" +:+ strings.TrimPrefix k prefix.
Proof.
  rewrite tagsToLabels_fold.
  induction (default [] tags) as [|t l IH] using rev_ind;
    [simpl; by rewrite lookup_empty |].
  rewrite foldl_snoc. destruct (tag_label prefix t) as [[k' v']|] eqn:Ht.
  - destruct (decide (k' = key)) as [->|Hne].
    + rewrite lookup_insert_eq. intros [= ->].
      unfold tag_label in Ht. destruct (strings.HasPrefix t prefix) eqn:Hpre; [| done].
      destruct (strings2.cut "=" t) as [[k v]|] eqn:Hcut; [| done].
      injection Ht as <- <-. apply cut_Some in Hcut as [-> Hk].
      exists (k +:+ "=" +:+ v), k. repeat split; try done.
      apply elem_of_app. right. apply list_elem_of_singleton. done.
    + rewrite lookup_insert_ne by done. intros Hl.
      destruct (IH Hl) as (tag & k & Hin & Hrest). exists tag, k.
      split; [apply elem_of_app; by left | done].
  - intros Hl. destruct (IH Hl) as (tag & k & Hin & Hrest). exists tag, k.
    split; [apply elem_of_app; by left | done].
Qed.

(** X16. Tags that do not start with the prefix, and tags without an equals
    sign, count for nothing: leaving them out of the list changes no label.
    A nil list of tags gives no label at all. *)
Theorem tagsToLabels_skips_other_tags (tags : list string) (prefix : string) :
  nomad.tagsToLabels (Some tags) prefix
  = nomad.tagsToLabels
      (Some (filter (fun tag => strings.HasPrefix tag prefix = true
                                /\ net.has_byte "=" tag = true) tags)) prefix
  /\ nomad.tagsToLabels None prefix = ∅.
Proof.
  split; [| done]. rewrite !tagsToLabels_fold. simpl.
  generalize (∅ : gmap string string).
  induction tags as [|t l IH]; intros acc; [done |].
  rewrite filter_cons. simpl.
  assert (Hlabel : ~ (strings.HasPrefix t prefix = true /\ net.has_byte "=" t = true)
                   -> tag_label prefix t = None).
  { intros Hn. unfold tag_label. destruct (strings.HasPrefix t prefix); [| done].
    destruct (strings2.cut "=" t) as [[k v]|] eqn:Hcut; [| done].
    destruct Hn. split; [done |]. apply not_false_iff_true. intros Hb.
    apply cut_None in Hb. congruence. }
  case_decide as Hd.
  - simpl. apply IH.
  - rewrite (Hlabel Hd). apply IH.
Qed.

(** ** Ports *)

Lemma pretty_N_go_nonempty (x : N) (s : string) : s <> "" -> pretty_N_go x s <> "".
Proof.
  revert s. induction (N.lt_wf_0 x) as [x _ IH]; intros s Hs.
  destruct (decide (x = 0%N)) as [->|Hx].
  - by rewrite pretty_N_go_0.
  - rewrite pretty_N_go_step by lia. apply IH; [apply N.div_lt; lia | done].
Qed.

Lemma pretty_N_nonempty (x : N) : pretty x <> "".
Proof.
  unfold pretty, pretty_N. case_decide as Hx; [done |].
  rewrite pretty_N_go_step by lia. by apply pretty_N_go_nonempty.
Qed.

(** The decimal writing of a number is never empty. *)
Lemma Itoa_nonempty (i : Z) : strconv.Itoa i <> "".
Proof.
  unfold strconv.Itoa, pretty, pretty_Z. destruct i as [|p|p]; [done | |done].
  apply pretty_N_nonempty.
Qed.

Lemma chosen_port_empty (labelPort : string) (itemPort : Z) :
  chosen_port labelPort itemPort = "" <-> labelPort = "" /\ itemPort = 0%Z.
Proof.
  unfold chosen_port. repeat case_decide; subst; try tauto.
  all: split; [intros Hi; first [done | by destruct (Itoa_nonempty itemPort)] | tauto].
Qed.

(** The port the three functions compute is [chosen_port]. *)
Lemma port_is_chosen_port (labelPort : string) (itemPort : Z) :
  (if (bool_decide (itemPort <> 0%Z) && bool_decide (labelPort = ""))%bool
   then strconv.Itoa itemPort else labelPort)
  = chosen_port labelPort itemPort.
Proof.
  unfold chosen_port.
  destruct (decide (labelPort = "")) as [Hl|Hl], (decide (itemPort = 0%Z)) as [Hi|Hi].
  - by rewrite (bool_decide_eq_false_2 (itemPort <> 0%Z)) by tauto.
  - by rewrite !bool_decide_eq_true_2.
  - rewrite (bool_decide_eq_false_2 (labelPort = "")) by done. by rewrite andb_false_r.
  - rewrite (bool_decide_eq_false_2 (labelPort = "")) by done. by rewrite andb_false_r.
Qed.

Section Servers.
Context {R L : Type} {ZR : Zero R}.

(** The cases the three functions distinguish: is there a first server,
    has it a port, has the item one, has the item an address. *)
Ltac servers_cases i lb0 port_of :=
  let s := fresh "s" in
  let rest := fresh "rest" in
  let other := fresh "other" in
  destruct lb0 as [[[|s rest]|] other];
  unfold chosen_port; cbn [default]; cbv zeta;
  (destruct (decide (nomad.Port i = 0%Z));
   [rewrite ?(bool_decide_eq_false_2 (nomad.Port i <> 0%Z)) by tauto
   |rewrite ?(bool_decide_eq_true_2 (nomad.Port i <> 0%Z)) by done]);
  try (destruct (decide (port_of s = ""));
       [rewrite ?(bool_decide_eq_true_2 (port_of s = "")) by done
       |rewrite ?(bool_decide_eq_false_2 (port_of s = "")) by done]);
  simpl; repeat case_decide; try done; try congruence.

(** What [addServerTCP] gives for a load balancer that is there, in terms of
    the first server and the chosen port. *)
Lemma addServerTCP_unfold (i : nomad.item) (lb0 : dynamic.TCPServersLoadBalancer R L) :
  nomad.addServerTCP i (Some lb0)
  = let f := tcp_first lb0 in
    let port := chosen_port (dynamic.tcp_Port f) (nomad.Port i) in
    let rest := tail (default [] (dynamic.tcp_Servers lb0)) in
    let lb_with s :=
      Some (dynamic.mkTCPServersLoadBalancer (Some (s :: rest)) (dynamic.tcp_lb_other lb0)) in
    if decide (port = "") then
      (lb_with (dynamic.mkTCPServer (dynamic.tcp_Address f) "" (dynamic.tcp_other f)),
       Returns (Some (errorString "port is missing")))
    else if decide (nomad.Address i = "") then
      (lb_with (dynamic.mkTCPServer (dynamic.tcp_Address f) "" (dynamic.tcp_other f)),
       Returns (Some (errorString "address is missing")))
    else
      (lb_with (dynamic.mkTCPServer (net.JoinHostPort (nomad.Address i) port) ""
                  (dynamic.tcp_other f)),
       Returns None).
Proof.
  unfold nomad.addServerTCP, tcp_first. servers_cases i lb0 (@dynamic.tcp_Port R).
Qed.

Lemma addServerTCP_nil (i : nomad.item) :
  nomad.addServerTCP (R := R) (L := L) i None
  = (None, Returns (Some (errorString "load-balancer is missing"))).
Proof. reflexivity. Qed.

(** X17. [addServerTCP] never indexes an empty list of servers: it returns,
    whatever it is given. A nil load balancer stays nil; one that is there
    has a first server afterwards, whose port is empty, and nothing but the
    address and the port of that first server has changed. *)
Theorem addServerTCP_never_panics (i : nomad.item)
    (lb : ptr (dynamic.TCPServersLoadBalancer R L)) :
  exists err,
    (nomad.addServerTCP i lb).2 = Returns err
    /\ match lb with
       | None => (nomad.addServerTCP i lb).1 = None
       | Some lb0 =>
           exists s,
             (nomad.addServerTCP i lb).1
             = Some (dynamic.mkTCPServersLoadBalancer
                       (Some (s :: tail (default [] (dynamic.tcp_Servers lb0))))
                       (dynamic.tcp_lb_other lb0))
             /\ dynamic.tcp_Port s = ""
             /\ dynamic.tcp_other s = dynamic.tcp_other (tcp_first lb0)
       end.
Proof.
  destruct lb as [lb0|]; [| by eexists].
  rewrite addServerTCP_unfold. cbv zeta. repeat case_decide; simpl; eauto 10.
Qed.

(** X18. The error of [addServerTCP], case by case and in this order: no
    load balancer; no port, neither on the first server nor on the item;
    no address on the item; otherwise none. *)
Theorem addServerTCP_errors (i : nomad.item) (lb : ptr (dynamic.TCPServersLoadBalancer R L)) :
  let err := (nomad.addServerTCP i lb).2 in
  let has_port lb0 := dynamic.tcp_Port (tcp_first lb0) <> "" \/ nomad.Port i <> 0%Z in
  (err = Returns (Some (errorString "load-balancer is missing")) <-> lb = None)
  /\ (err = Returns (Some (errorString "port is missing"))
      <-> exists lb0, lb = Some lb0 /\ ~ has_port lb0)
  /\ (err = Returns (Some (errorString "address is missing"))
      <-> exists lb0, lb = Some lb0 /\ has_port lb0 /\ nomad.Address i = "")
  /\ (err = Returns None
      <-> exists lb0, lb = Some lb0 /\ has_port lb0 /\ nomad.Address i <> "").
Proof.
  cbv zeta. destruct lb as [lb0|].
  - rewrite addServerTCP_unfold. cbv zeta.
    destruct (decide (chosen_port _ _ = "")) as [Hp|Hp];
      [| destruct (decide (nomad.Address i = "")) as [Ha|Ha]];
      rewrite chosen_port_empty in Hp; simpl.
    all: try (assert (dynamic.tcp_Port (tcp_first lb0) <> "" \/ nomad.Port i <> 0%Z)
               by (destruct (decide (dynamic.tcp_Port (tcp_first lb0) = ""));
                   destruct (decide (nomad.Port i = 0%Z)); tauto)).
    all: repeat split; try (intros; discriminate).
    all: try (intros (? & [= <-] & ?); tauto).
    all: intros _; exists lb0; tauto.
  - rewrite addServerTCP_nil. simpl.
    repeat split; try done; by intros (? & [=] & ?).
Qed.

(** X19. When [addServerTCP] succeeds, the first server has the address of
    the item joined to a port: the port the first server had when it had one,
    and only otherwise the port of the item, in decimal. *)
Theorem addServerTCP_address (i : nomad.item) (lb0 : dynamic.TCPServersLoadBalancer R L) :
  (nomad.addServerTCP i (Some lb0)).2 = Returns None ->
  let f := tcp_first lb0 in
  let port :=
    if decide (dynamic.tcp_Port f = "") then strconv.Itoa (nomad.Port i)
    else dynamic.tcp_Port f in
  (nomad.addServerTCP i (Some lb0)).1
  = Some (dynamic.mkTCPServersLoadBalancer
            (Some (dynamic.mkTCPServer (net.JoinHostPort (nomad.Address i) port) ""
                     (dynamic.tcp_other f)
                   :: tail (default [] (dynamic.tcp_Servers lb0))))
            (dynamic.tcp_lb_other lb0)).
Proof.
  rewrite addServerTCP_unfold. cbv zeta.
  destruct (decide (chosen_port _ _ = "")) as [Hp|Hp]; [done |].
  destruct (decide (nomad.Address i = "")) as [Ha|Ha]; [done |].
  intros _. simpl. do 4 f_equal. unfold chosen_port in *.
  repeat case_decide; congruence.
Qed.

(** X20. When [addServerTCP] returns an error for a load balancer that is
    there, the first server keeps the address it had (none, if the server
    was made by the call), and has lost its port all the same. *)
Theorem addServerTCP_error_keeps_address (i : nomad.item)
    (lb0 : dynamic.TCPServersLoadBalancer R L) (e : error) :
  (nomad.addServerTCP i (Some lb0)).2 = Returns (Some e) ->
  (nomad.addServerTCP i (Some lb0)).1
  = Some (dynamic.mkTCPServersLoadBalancer
            (Some (dynamic.mkTCPServer (dynamic.tcp_Address (tcp_first lb0)) ""
                     (dynamic.tcp_other (tcp_first lb0))
                   :: tail (default [] (dynamic.tcp_Servers lb0))))
            (dynamic.tcp_lb_other lb0)).
Proof.
  rewrite addServerTCP_unfold. cbv zeta. by repeat case_decide.
Qed.

(** X21. The port of the first server is used up by a call: on a load
    balancer that has been through [addServerTCP] once, with any result, a
    second call succeeds exactly when the item has a port of its own and an
    address. *)
Theorem addServerTCP_port_used_once (i i' : nomad.item)
    (lb : ptr (dynamic.TCPServersLoadBalancer R L)) :
  (nomad.addServerTCP i' (nomad.addServerTCP i lb).1).2 = Returns None
  <-> lb <> None /\ nomad.Port i' <> 0%Z /\ nomad.Address i' <> "".
Proof.
  destruct lb as [lb0|]; [| rewrite !addServerTCP_nil; simpl; by split; [| tauto]].
  assert (Hfirst : exists lb1, (nomad.addServerTCP i (Some lb0)).1 = Some lb1
                               /\ dynamic.tcp_Port (tcp_first lb1) = "").
  { rewrite addServerTCP_unfold. cbv zeta. repeat case_decide; simpl; eauto. }
  destruct Hfirst as (lb1 & -> & Hport).
  rewrite addServerTCP_unfold. cbv zeta. rewrite Hport.
  destruct (decide (chosen_port _ _ = "")) as [Hp|Hp]; rewrite chosen_port_empty in Hp.
  - split; [done |]. tauto.
  - destruct (decide (nomad.Address i' = "")) as [Ha|Ha]; simpl.
    + split; [done | tauto].
    + split; [| done]. intros _. repeat split; try done.
      intros Hi. apply Hp. tauto.
Qed.

Lemma addServerUDP_unfold (i : nomad.item) (lb0 : dynamic.UDPServersLoadBalancer R L) :
  nomad.addServerUDP i (Some lb0)
  = let f := udp_first lb0 in
    let port := chosen_port (dynamic.udp_Port f) (nomad.Port i) in
    let rest := tail (default [] (dynamic.udp_Servers lb0)) in
    let lb_with s :=
      Some (dynamic.mkUDPServersLoadBalancer (Some (s :: rest)) (dynamic.udp_lb_other lb0)) in
    if decide (port = "") then
      (lb_with (dynamic.mkUDPServer (dynamic.udp_Address f) "" (dynamic.udp_other f)),
       Returns (Some (errorString "port is missing")))
    else if decide (nomad.Address i = "") then
      (lb_with (dynamic.mkUDPServer (dynamic.udp_Address f) "" (dynamic.udp_other f)),
       Returns (Some (errorString "address is missing")))
    else
      (lb_with (dynamic.mkUDPServer (net.JoinHostPort (nomad.Address i) port) ""
                  (dynamic.udp_other f)),
       Returns None).
Proof.
  unfold nomad.addServerUDP, udp_first. servers_cases i lb0 (@dynamic.udp_Port R).
Qed.

(** X22. [addServerUDP] is [addServerTCP] on the other pair of types: read
    as TCP values, its result is what [addServerTCP] gives for its argument
    read as a TCP value, error included. *)
Theorem addServerUDP_as_TCP (i : nomad.item) (lb : ptr (dynamic.UDPServersLoadBalancer R L)) :
  (option_map udp_lb_as_tcp (nomad.addServerUDP i lb).1, (nomad.addServerUDP i lb).2)
  = nomad.addServerTCP i (option_map udp_lb_as_tcp lb).
Proof.
  destruct lb as [lb0|]; [| reflexivity]. simpl option_map at 2.
  rewrite addServerUDP_unfold, addServerTCP_unfold. cbv zeta.
  assert (Hf : tcp_first (udp_lb_as_tcp lb0) = udp_as_tcp (udp_first lb0)).
  { by destruct lb0 as [[[|s rest]|] other]. }
  assert (Ht : tail (default [] (dynamic.tcp_Servers (udp_lb_as_tcp lb0)))
               = map udp_as_tcp (tail (default [] (dynamic.udp_Servers lb0)))).
  { by destruct lb0 as [[[|s rest]|] other]. }
  rewrite Hf, Ht. simpl. by repeat case_decide.
Qed.

End Servers.

Section HTTPServers.
Context {R L : Type} {ZR : Zero R} {DR : dynamic.ServerDefaults R}.

Lemma addServer_unfold (i : nomad.item) (lb0 : dynamic.ServersLoadBalancer R L) :
  nomad.addServer i (Some lb0)
  = let f := http_first lb0 in
    let port := chosen_port (dynamic.Port f) (nomad.Port i) in
    let rest := tail (default [] (dynamic.Servers lb0)) in
    let lb_with s :=
      Some (dynamic.mkServersLoadBalancer (Some (s :: rest)) (dynamic.lb_other lb0)) in
    if decide (port = "") then
      (lb_with (dynamic.mkServer (dynamic.URL f) (dynamic.Scheme f) ""
                  (dynamic.server_other f)),
       Returns (Some (errorString "port is missing")))
    else if decide (nomad.Address i = "") then
      (lb_with (dynamic.mkServer (dynamic.URL f) (dynamic.Scheme f) ""
                  (dynamic.server_other f)),
       Returns (Some (errorString "address is missing")))
    else
      (lb_with (dynamic.mkServer
                  (dynamic.Scheme f +:+ "://" +:+ net.JoinHostPort (nomad.Address i) port)
                  "" "" (dynamic.server_other f)),
       Returns None).
Proof.
  unfold nomad.addServer, http_first.
  destruct lb0 as [[[|s rest]|] other]; cbn [default dynamic.Servers length];
    cbv zeta; rewrite port_is_chosen_port; simpl; by repeat case_decide.
Qed.

Lemma addServer_nil (i : nomad.item) :
  nomad.addServer (R := R) (L := L) i None
  = (None, Returns (Some (errorString "load-balancer is missing"))).
Proof. reflexivity. Qed.

(** X23. [addServer] never panics either, and its error follows the same
    cases in the same order; the first server is the one that is there or,
    when there is none, a server with the defaults of [SetDefaults], whose
    port counts if it has one. *)
Theorem addServer_errors (i : nomad.item) (lb : ptr (dynamic.ServersLoadBalancer R L)) :
  let err := (nomad.addServer i lb).2 in
  let has_port lb0 := dynamic.Port (http_first lb0) <> "" \/ nomad.Port i <> 0%Z in
  err <> Panics
  /\ (err = Returns (Some (errorString "load-balancer is missing")) <-> lb = None)
  /\ (err = Returns (Some (errorString "port is missing"))
      <-> exists lb0, lb = Some lb0 /\ ~ has_port lb0)
  /\ (err = Returns (Some (errorString "address is missing"))
      <-> exists lb0, lb = Some lb0 /\ has_port lb0 /\ nomad.Address i = "")
  /\ (err = Returns None
      <-> exists lb0, lb = Some lb0 /\ has_port lb0 /\ nomad.Address i <> "").
Proof.
  cbv zeta. destruct lb as [lb0|].
  - rewrite addServer_unfold. cbv zeta.
    destruct (decide (chosen_port _ _ = "")) as [Hp|Hp];
      [| destruct (decide (nomad.Address i = "")) as [Ha|Ha]];
      rewrite chosen_port_empty in Hp; simpl.
    all: try (assert (dynamic.Port (http_first lb0) <> "" \/ nomad.Port i <> 0%Z)
               by (destruct (decide (dynamic.Port (http_first lb0) = ""));
                   destruct (decide (nomad.Port i = 0%Z)); tauto)).
    all: repeat split; try (intros; discriminate).
    all: try (intros (? & [= <-] & ?); tauto).
    all: intros _; exists lb0; tauto.
  - rewrite addServer_nil. simpl.
    repeat split; try done; by intros (? & [=] & ?).
Qed.

(** X24. When [addServer] succeeds, the first server has a URL made of the
    scheme it had, [://], and the address of the item joined to the port
    (that of the server before that of the item); its scheme and its port
    are empty afterwards, and the other servers are as they were. *)
Theorem addServer_url (i : nomad.item) (lb0 : dynamic.ServersLoadBalancer R L) :
  (nomad.addServer i (Some lb0)).2 = Returns None ->
  let f := http_first lb0 in
  let port :=
    if decide (dynamic.Port f = "") then strconv.Itoa (nomad.Port i) else dynamic.Port f in
  (nomad.addServer i (Some lb0)).1
  = Some (dynamic.mkServersLoadBalancer
            (Some (dynamic.mkServer
                     (dynamic.Scheme f +:+ "://" +:+ net.JoinHostPort (nomad.Address i) port)
                     "" "" (dynamic.server_other f)
                   :: tail (default [] (dynamic.Servers lb0))))
            (dynamic.lb_other lb0)).
Proof.
  rewrite addServer_unfold. cbv zeta.
  destruct (decide (chosen_port _ _ = "")) as [Hp|Hp]; [done |].
  destruct (decide (nomad.Address i = "")) as [Ha|Ha]; [done |].
  intros _. simpl. do 6 f_equal. unfold chosen_port in *.
  repeat case_decide; congruence.
Qed.

(** X25. When [addServer] returns an error for a load balancer that is
    there, the first server keeps its URL and its scheme, and has lost its
    port. *)
Theorem addServer_error_keeps_url_and_scheme (i : nomad.item)
    (lb0 : dynamic.ServersLoadBalancer R L) (e : error) :
  (nomad.addServer i (Some lb0)).2 = Returns (Some e) ->
  (nomad.addServer i (Some lb0)).1
  = Some (dynamic.mkServersLoadBalancer
            (Some (dynamic.mkServer (dynamic.URL (http_first lb0))
                     (dynamic.Scheme (http_first lb0)) ""
                     (dynamic.server_other (http_first lb0))
                   :: tail (default [] (dynamic.Servers lb0))))
            (dynamic.lb_other lb0)).
Proof.
  rewrite addServer_unfold. cbv zeta. by repeat case_decide.
Qed.

End HTTPServers.
(** * The provider: services and their load balancers *)

Section Loops.
Context {V St : Type} (body : V -> St -> St * outcome (option error)).

Lemma all_ok_for_range (vs : list V) (st st' : St) :
  all_ok body vs st = Some st' <-> for_range body vs st = (st', Returns None).
Proof.
  revert st. induction vs as [|v vs IH]; intros st; simpl.
  - split; by intros [= ->].
  - destruct (body v st) as [st1 [[e|]|]]; [| apply IH |]; split; intros [=].
Qed.

Lemma for_range_ok (vs : list V) (st : St) :
  (for_range body vs st).2 = Returns None
  <-> all_ok body vs st = Some (for_range body vs st).1.
Proof.
  rewrite all_ok_for_range. destruct (for_range body vs st) as [st' r]; simpl.
  split; [by intros -> | by intros [= ->]].
Qed.

Lemma all_ok_app (vs ws : list V) (st : St) :
  all_ok body (vs ++ ws) st = all_ok body vs st ≫= all_ok body ws.
Proof.
  revert st. induction vs as [|v vs IH]; intros st; simpl; [done |].
  by destruct (body v st) as [st1 [[e|]|]].
Qed.

(** When two passes may always be swapped, the passes of a loop may be
    made in any order, as far as the loop ending without an error and the
    state it ends in are concerned. *)
Lemma all_ok_perm (vs vs' : list V) :
  (forall v1 v2 st, all_ok body [v1; v2] st = all_ok body [v2; v1] st) ->
  vs ≡ₚ vs' -> forall st, all_ok body vs st = all_ok body vs' st.
Proof.
  intros Hswap Hperm. induction Hperm as [|v vs vs' _ IH|v1 v2 vs|vs1 vs2 vs3 _ IH1 _ IH2];
    intros st.
  - done.
  - simpl. destruct (body v st) as [st1 [[e|]|]]; [done | apply IH | done].
  - rewrite (all_ok_app [v2; v1] vs), (all_ok_app [v1; v2] vs).
    by rewrite (Hswap v2 v1 st).
  - by rewrite IH1.
Qed.

(** What no pass undoes holds at the end when it holds at the start. *)
Lemma all_ok_preserves (Q : St -> Prop) (vs : list V) (st st' : St) :
  (forall v st st', Q st -> body v st = (st', Returns None) -> Q st') ->
  all_ok body vs st = Some st' -> Q st -> Q st'.
Proof.
  intros Hkeep. revert st. induction vs as [|v vs IH]; intros st Hok Hq; simpl in Hok.
  - by injection Hok as <-.
  - destruct (body v st) as [s1 [[e|]|]] eqn:Hb; try done.
    eapply IH; [done |]. by eapply Hkeep.
Qed.

(** What every pass establishes and no later pass undoes holds at the end
    for every value visited. *)
Lemma all_ok_invariant (P : V -> St -> Prop) (vs : list V) (st st' : St) :
  (forall v st st', body v st = (st', Returns None) -> P v st') ->
  (forall v v' st st', P v st -> body v' st = (st', Returns None) -> P v st') ->
  all_ok body vs st = Some st' ->
  forall v, v ∈ vs -> P v st'.
Proof.
  intros Hest Hkeep. revert st.
  assert (Hall : forall vs st st', all_ok body vs st = Some st' ->
                   forall v, P v st -> P v st').
  { intros ws. induction ws as [|w ws IH]; intros s s' Hok v Hv; simpl in Hok.
    - by injection Hok as <-.
    - destruct (body w s) as [s1 [[e|]|]] eqn:Hb; try done.
      eapply IH; [done |]. by eapply Hkeep. }
  induction vs as [|w ws IH]; intros st Hok v Hin; [by apply elem_of_nil in Hin |].
  simpl in Hok. destruct (body w st) as [s1 [[e|]|]] eqn:Hb; try done.
  apply elem_of_cons in Hin as [->|Hin].
  - eapply Hall; [done |]. by eapply Hest.
  - by eapply IH.
Qed.

End Loops.

Section Visits.
Context {T Svc : Type} (f : ptr T -> ptr T * outcome (option error)) (lb_of : Svc -> ptr loc).

Lemma call_on_swap (p1 p2 : ptr loc) (h : heap T) :
  all_ok (call_on f) [p1; p2] h = all_ok (call_on f) [p2; p1] h.
Proof.
  destruct (decide (p1 = p2)) as [->|Hne]; [done |].
  destruct p1 as [l1|], p2 as [l2|]; simpl; unfold call_on.
  - assert (l1 <> l2) by congruence. assert (l2 <> l1) by congruence.
    destruct (h !! l1) as [t1|] eqn:H1, (h !! l2) as [t2|] eqn:H2;
      try destruct (f (Some t1)) as [[t1'|] [[e1|]|]] eqn:F1;
      try destruct (f (Some t2)) as [[t2'|] [[e2|]|]] eqn:F2;
      simpl; rewrite ?lookup_insert_ne, ?H1, ?H2 by done;
      rewrite ?F1, ?F2; simpl;
      first [done | by rewrite insert_insert_ne].
  - destruct (f None) as [x [[e|]|]], (h !! l1) as [t1|] eqn:H1; simpl; try done.
    all: destruct (f (Some t1)) as [[t1'|] [[e1|]|]]; simpl; done.
  - destruct (f None) as [x [[e|]|]], (h !! l2) as [t2|] eqn:H2; simpl; try done.
    all: destruct (f (Some t2)) as [[t2'|] [[e2|]|]]; simpl; done.
  - done.
Qed.

Lemma visit_swap (v1 v2 : ptr Svc) (h : heap T) :
  all_ok (visit f lb_of) [v1; v2] h = all_ok (visit f lb_of) [v2; v1] h.
Proof.
  destruct v1 as [s1|], v2 as [s2|]; try done.
  - exact (call_on_swap (lb_of s1) (lb_of s2) h).
  - simpl. by destruct (call_on f (lb_of s1) h) as [h1 [[e|]|]].
  - simpl. by destruct (call_on f (lb_of s2) h) as [h1 [[e|]|]].
Qed.

(** The loop over the services in two orders: it ends without an error in
    the one exactly when it does in the other, and then in the same state. *)
Lemma for_range_visit_perm (vs vs' : list (ptr Svc)) (h : heap T) :
  vs ≡ₚ vs' ->
  ((for_range (visit f lb_of) vs h).2 = Returns None
   <-> (for_range (visit f lb_of) vs' h).2 = Returns None)
  /\ ((for_range (visit f lb_of) vs h).2 = Returns None ->
      for_range (visit f lb_of) vs h = for_range (visit f lb_of) vs' h).
Proof.
  intros Hperm. rewrite !for_range_ok.
  pose proof (all_ok_perm (visit f lb_of) vs vs' visit_swap Hperm h) as Heq.
  split.
  - split; intros Hok.
    + rewrite <- Heq, Hok. f_equal. symmetry.
      rewrite Heq in Hok. apply all_ok_for_range in Hok. by rewrite Hok.
    + rewrite Heq, Hok. f_equal. symmetry.
      rewrite <- Heq in Hok. apply all_ok_for_range in Hok. by rewrite Hok.
  - intros Hok. pose proof Hok as Hok'. rewrite Heq in Hok'.
    apply all_ok_for_range in Hok, Hok'.
    rewrite Hok'. by destruct (for_range (visit f lb_of) vs h).
Qed.

(** A pass that returns no error. *)
Lemma visit_ok_inv (v : ptr Svc) (h h' : heap T) :
  visit f lb_of v h = (h', Returns None) ->
  exists svc,
    v = Some svc
    /\ ((lb_of svc = None /\ h' = h /\ (f None).2 = Returns None)
        \/ exists l t t',
             lb_of svc = Some l /\ h !! l = Some t /\ f (Some t) = (t', Returns None)
             /\ h' = match t' with Some t'' => <[l := t'']> h | None => h end).
Proof.
  destruct v as [svc|]; [| done]. simpl. intros Hv. exists svc. split; [done |].
  unfold call_on in Hv. destruct (lb_of svc) as [l|].
  - right. destruct (h !! l) as [t|] eqn:Hl; [| done].
    destruct (f (Some t)) as [t' r] eqn:Hf. injection Hv as <- ->. by exists l, t, t'.
  - left. by injection Hv as <- ->.
Qed.

(** No pass takes a load balancer out of the heap. *)
Lemma visit_keeps_locations (v : ptr Svc) (h : heap T) (l : loc) :
  is_Some (h !! l) -> is_Some ((visit f lb_of v h).1 !! l).
Proof.
  intros Hl. destruct v as [svc|]; [| done]. simpl. unfold call_on.
  destruct (lb_of svc) as [l'|]; [| done].
  destruct (h !! l') as [t|] eqn:Hl'; [| done].
  destruct (f (Some t)) as [[t'|] r]; simpl; [| done].
  destruct (decide (l' = l)) as [->|Hne].
  - rewrite lookup_insert_eq. by eexists.
  - by rewrite lookup_insert_ne.
Qed.

(** When [f] returns no error only with its argument in a state [D], a
    loop that ends without an error leaves the load balancer of every
    service it visited in such a state. *)
Lemma visits_done (D : T -> Prop) (vs : list (ptr Svc)) (h h' : heap T) :
  (forall t t', f t = (t', Returns None) -> exists t1, t <> None /\ t' = Some t1 /\ D t1) ->
  all_ok (visit f lb_of) vs h = Some h' ->
  forall v, v ∈ vs ->
    exists svc l t, v = Some svc /\ lb_of svc = Some l /\ h' !! l = Some t /\ D t.
Proof.
  intros Hf. apply (all_ok_invariant (visit f lb_of)
    (fun v h => exists svc l t, v = Some svc /\ lb_of svc = Some l /\ h !! l = Some t /\ D t)).
  - intros v st st' Hv. apply visit_ok_inv in Hv as (svc & -> & [(Hn & -> & Hr) | Hv]).
    + destruct (f None) as [t' r] eqn:Hfn. simpl in Hr. subst r.
      by destruct (Hf _ _ Hfn) as (t1 & Hne & _).
    + destruct Hv as (l & t & t' & Hl & Ht & Hft & ->).
      destruct (Hf _ _ Hft) as (t1 & _ & -> & Hd).
      exists svc, l, t1. by rewrite lookup_insert_eq.
  - intros v v' st st' (svc & l & t & -> & Hl & Ht & Hd) Hv.
    apply visit_ok_inv in Hv as (svc' & -> & [(Hn & -> & Hr) | Hv]).
    + by exists svc, l, t.
    + destruct Hv as (l' & t0 & t' & Hl' & Ht0 & Hft & ->).
      destruct (Hf _ _ Hft) as (t1 & _ & -> & Hd1).
      destruct (decide (l' = l)) as [->|Hne].
      * exists svc, l, t1. by rewrite lookup_insert_eq.
      * exists svc, l, t. by rewrite lookup_insert_ne.
Qed.

(** A loop over services that are there, whose load balancer is nil or in
    the heap, does not panic when [f] does not. *)
Lemma for_range_visit_no_panic (vs : list (ptr Svc)) (h : heap T) :
  (forall p, (f p).2 <> Panics) ->
  (forall v, v ∈ vs ->
     exists svc, v = Some svc /\ forall l, lb_of svc = Some l -> is_Some (h !! l)) ->
  (for_range (visit f lb_of) vs h).2 <> Panics.
Proof.
  intros Hf. revert h. induction vs as [|v vs IH]; intros h Hwf; [done |].
  simpl. destruct (visit f lb_of v h) as [h1 r] eqn:Hv.
  assert (Hr : r <> Panics).
  { destruct (Hwf v) as (svc & -> & Hl); [by left |].
    simpl in Hv. unfold call_on in Hv. destruct (lb_of svc) as [l|].
    - destruct (Hl l eq_refl) as [t Ht]. rewrite Ht in Hv.
      pose proof (Hf (Some t)) as Hp. destruct (f (Some t)) as [t' r'].
      by injection Hv as _ <-.
    - injection Hv as _ <-. apply Hf. }
  destruct r as [[e|]|]; [done | | done].
  apply IH. intros v' Hin. destruct (Hwf v') as (svc & -> & Hl); [by right |].
  exists svc. split; [done |]. intros l Hlb.
  replace h1 with (visit f lb_of v h).1 by by rewrite Hv.
  apply visit_keeps_locations. by apply Hl.
Qed.

End Visits.

Lemma range_values_perm {V : Type} (order1 order2 : range_order) (m : gmap string V) :
  (forall X, order1 X ≡ₚ order2 X) -> range_values order1 m ≡ₚ range_values order2 m.
Proof. intros Ho. unfold range_values. by rewrite (Ho (dom m)). Qed.

Lemma range_values_elem {V : Type} (order : range_order) (m : gmap string V)
    (name : string) (v : V) :
  enumerates order -> m !! name = Some v -> v ∈ range_values order m.
Proof.
  intros Ho Hm. unfold range_values. apply list_elem_of_omap. exists name.
  split; [| done]. rewrite (Ho (dom m)). apply elem_of_elements, elem_of_dom. by eexists.
Qed.

Lemma range_values_from_map {V : Type} (order : range_order) (m : gmap string V) (v : V) :
  v ∈ range_values order m -> exists name, m !! name = Some v.
Proof.
  unfold range_values. intros Hin. apply list_elem_of_omap in Hin as (name & _ & Hm).
  by exists name.
Qed.

Lemma range_values_singleton {V : Type} (order : range_order) (name : string) (v : V) :
  enumerates order -> range_values order ({[ name := v ]} : gmap string V) = [v].
Proof.
  intros Ho. unfold range_values. rewrite dom_singleton_L.
  pose proof (Ho {[ name ]}) as Hp. rewrite elements_singleton in Hp.
  apply Permutation_singleton_r in Hp. rewrite Hp. simpl.
  by rewrite lookup_singleton_eq.
Qed.

Lemma new_loc_fresh {T : Type} (h : heap T) : h !! new_loc h = None.
Proof. apply not_elem_of_dom. unfold new_loc. apply is_fresh. Qed.

Lemma for_range_single {V St : Type} (body : V -> St -> St * outcome (option error))
    (v : V) (st : St) :
  for_range body [v] st = body v st.
Proof. simpl. by destruct (body v st) as [st' [[e|]|]]. Qed.

(** The loop of the three functions, when it ends without an error. *)
Lemma loop_done {T Svc : Type} (f : ptr T -> ptr T * outcome (option error))
    (lb_of : Svc -> ptr loc) (D : T -> Prop) (order : range_order)
    (m : gmap string (ptr Svc)) (h h' : heap T) :
  enumerates order ->
  (forall t t', f t = (t', Returns None) -> exists t1, t <> None /\ t' = Some t1 /\ D t1) ->
  for_range (visit f lb_of) (range_values order m) h = (h', Returns None) ->
  forall name service, m !! name = Some service ->
    exists svc l t, service = Some svc /\ lb_of svc = Some l /\ h' !! l = Some t /\ D t.
Proof.
  intros Ho Hf Hloop name service Hm. apply all_ok_for_range in Hloop.
  apply (visits_done f lb_of D _ h h' Hf Hloop). by eapply range_values_elem.
Qed.

(** The loop of the three functions does not panic on services that are
    there and whose load balancer is nil or in the heap. *)
Lemma loop_no_panic {T Svc : Type} (f : ptr T -> ptr T * outcome (option error))
    (lb_of : Svc -> ptr loc) (order : range_order) (m : gmap string (ptr Svc)) (h : heap T) :
  (forall p, (f p).2 <> Panics) ->
  (forall name service, m !! name = Some service ->
     exists svc, service = Some svc /\ forall l, lb_of svc = Some l -> is_Some (h !! l)) ->
  (for_range (visit f lb_of) (range_values order m) h).2 <> Panics.
Proof.
  intros Hf Hwf. apply for_range_visit_no_panic; [done |].
  intros v Hin. apply range_values_from_map in Hin as [name Hm]. by eapply Hwf.
Qed.

Section Build.
Context {R L S G : Type} {ZR : Zero R} {ZL : Zero L} {ZS : Zero S}.
Context {TD : dynamic.TCPLoadBalancerDefaults R L} {DR : dynamic.ServerDefaults R}.
Context {LD : dynamic.LoadBalancerDefaults R L} {PL : ProviderLibrary}.

(** X26. The order in which the services of the map are visited, which Go
    leaves open, does not decide whether [buildTCPConfig], [buildUDPConfig]
    or [buildServiceConfiguration] returns a nil error, nor what the
    configuration and the load balancers are when it does, even when
    services share a load balancer. (Which error is returned, and what has
    been changed by then, does depend on it.) *)
Theorem build_order_does_not_matter (order1 order2 : range_order) (i : nomad.item) :
  (forall X, order1 X ≡ₚ order2 X) ->
  (forall (configuration : ptr (dynamic.TCPConfiguration S G))
          (h : heap (dynamic.TCPServersLoadBalancer R L)),
      let r1 := nomad.buildTCPConfig order1 i configuration h in
      let r2 := nomad.buildTCPConfig order2 i configuration h in
      (r1.2 = Returns None <-> r2.2 = Returns None) /\ (r1.2 = Returns None -> r1 = r2))
  /\ (forall (configuration : ptr (dynamic.UDPConfiguration S G))
             (h : heap (dynamic.UDPServersLoadBalancer R L)),
      let r1 := nomad.buildUDPConfig order1 i configuration h in
      let r2 := nomad.buildUDPConfig order2 i configuration h in
      (r1.2 = Returns None <-> r2.2 = Returns None) /\ (r1.2 = Returns None -> r1 = r2))
  /\ (forall (configuration : ptr (dynamic.HTTPConfiguration S G))
             (h : heap (dynamic.ServersLoadBalancer R L)),
      let r1 := nomad.buildServiceConfiguration order1 i configuration h in
      let r2 := nomad.buildServiceConfiguration order2 i configuration h in
      (r1.2 = Returns None <-> r2.2 = Returns None) /\ (r1.2 = Returns None -> r1 = r2)).
Proof.
  intros Ho. split; [| split]; intros configuration h; cbv zeta.
  - unfold nomad.buildTCPConfig. destruct configuration as [c|]; [| done].
    destruct (if decide _ then _ else _) as [c' h0].
    destruct (for_range_visit_perm (nomad.addServerTCP i) dynamic.tcp_LoadBalancer _ _ h0
                (range_values_perm order1 order2 (dynamic.tcp_Services c') Ho)) as [Hiff Heq].
    unfold visit in Hiff, Heq.
    destruct (for_range _ (range_values order1 _) h0) as [h1 r1].
    destruct (for_range _ (range_values order2 _) h0) as [h2 r2].
    simpl in *. split; [done |]. intros Hr. by injection (Heq Hr) as -> ->.
  - unfold nomad.buildUDPConfig. destruct configuration as [c|]; [| done].
    destruct (if decide _ then _ else _) as [c' h0].
    destruct (for_range_visit_perm (nomad.addServerUDP i) dynamic.udp_LoadBalancer _ _ h0
                (range_values_perm order1 order2 (dynamic.udp_Services c') Ho)) as [Hiff Heq].
    unfold visit in Hiff, Heq.
    destruct (for_range _ (range_values order1 _) h0) as [h1 r1].
    destruct (for_range _ (range_values order2 _) h0) as [h2 r2].
    simpl in *. split; [done |]. intros Hr. by injection (Heq Hr) as -> ->.
  - unfold nomad.buildServiceConfiguration. destruct configuration as [c|]; [| done].
    destruct (if decide _ then _ else _) as [c' h0].
    destruct (for_range_visit_perm (nomad.addServer i) dynamic.LoadBalancer _ _ h0
                (range_values_perm order1 order2 (dynamic.Services c') Ho)) as [Hiff Heq].
    unfold visit in Hiff, Heq.
    destruct (for_range _ (range_values order1 _) h0) as [h1 r1].
    destruct (for_range _ (range_values order2 _) h0) as [h2 r2].
    simpl in *. split; [done |]. intros Hr. by injection (Heq Hr) as -> ->.
Qed.

(** The three functions return, and hand back a load balancer for the one
    they were given. *)
Lemma addServerTCP_returns (i : nomad.item) (t : ptr (dynamic.TCPServersLoadBalancer R L)) :
  (nomad.addServerTCP i t).2 <> Panics
  /\ (t <> None -> is_Some (nomad.addServerTCP i t).1).
Proof.
  destruct t as [lb0|]; [| done]. rewrite addServerTCP_unfold. cbv zeta.
  repeat case_decide; simpl; split; try done; intros _; by eexists.
Qed.

Lemma addServerUDP_returns (i : nomad.item) (t : ptr (dynamic.UDPServersLoadBalancer R L)) :
  (nomad.addServerUDP i t).2 <> Panics
  /\ (t <> None -> is_Some (nomad.addServerUDP i t).1).
Proof.
  destruct t as [lb0|]; [| done]. rewrite addServerUDP_unfold. cbv zeta.
  repeat case_decide; simpl; split; try done; intros _; by eexists.
Qed.

Lemma addServer_returns (i : nomad.item) (t : ptr (dynamic.ServersLoadBalancer R L)) :
  (nomad.addServer i t).2 <> Panics
  /\ (t <> None -> is_Some (nomad.addServer i t).1).
Proof.
  destruct t as [lb0|]; [| done]. rewrite addServer_unfold. cbv zeta.
  repeat case_decide; simpl; split; try done; intros _; by eexists.
Qed.

(** X27. A configuration without services gets one, under the normalized
    name of the item, with a load balancer of its own: a new one with its
    defaults, at a location that was not in use, so that no load balancer
    that was there is touched. The function then does to it what
    [addServerTCP], resp. [addServerUDP] or [addServer], does, and returns
    its error. *)
Theorem build_makes_a_service (order : range_order) (i : nomad.item) :
  enumerates order ->
  (forall (c : dynamic.TCPConfiguration S G) (h : heap (dynamic.TCPServersLoadBalancer R L)),
      size (dynamic.tcp_Services c) = 0 ->
      let lb :=
        dynamic.TCPServersLoadBalancer_SetDefaults
          (dynamic.mkTCPServersLoadBalancer None zero) in
      h !! new_loc h = None
      /\ exists lb',
           (nomad.addServerTCP i (Some lb)).1 = Some lb'
           /\ nomad.buildTCPConfig order i (Some c) h
              = ((Some (dynamic.mkTCPConfiguration
                          {[ provider_Normalize (nomad.Name i)
                             := Some (dynamic.mkTCPService (Some (new_loc h)) zero) ]}
                          (dynamic.tcp_configuration_other c)),
                  <[new_loc h := lb']> h),
                 (nomad.addServerTCP i (Some lb)).2))
  /\ (forall (c : dynamic.UDPConfiguration S G)
             (h : heap (dynamic.UDPServersLoadBalancer R L)),
      size (dynamic.udp_Services c) = 0 ->
      let lb := dynamic.mkUDPServersLoadBalancer None zero in
      h !! new_loc h = None
      /\ exists lb',
           (nomad.addServerUDP i (Some lb)).1 = Some lb'
           /\ nomad.buildUDPConfig order i (Some c) h
              = ((Some (dynamic.mkUDPConfiguration
                          {[ provider_Normalize (nomad.Name i)
                             := Some (dynamic.mkUDPService (Some (new_loc h)) zero) ]}
                          (dynamic.udp_configuration_other c)),
                  <[new_loc h := lb']> h),
                 (nomad.addServerUDP i (Some lb)).2))
  /\ (forall (c : dynamic.HTTPConfiguration S G)
             (h : heap (dynamic.ServersLoadBalancer R L)),
      size (dynamic.Services c) = 0 ->
      let lb :=
        dynamic.ServersLoadBalancer_SetDefaults (dynamic.mkServersLoadBalancer None zero) in
      h !! new_loc h = None
      /\ exists lb',
           (nomad.addServer i (Some lb)).1 = Some lb'
           /\ nomad.buildServiceConfiguration order i (Some c) h
              = ((Some (dynamic.mkHTTPConfiguration
                          {[ provider_Normalize (nomad.Name i)
                             := Some (dynamic.mkService (Some (new_loc h)) zero) ]}
                          (dynamic.configuration_other c)),
                  <[new_loc h := lb']> h),
                 (nomad.addServer i (Some lb)).2)).
Proof.
  intros Ho. split; [| split]; intros c h Hsize lb;
    (split; [apply new_loc_fresh |]).
  - destruct (proj2 (addServerTCP_returns i (Some lb)) ltac:(done)) as [lb' Hlb'].
    exists lb'. split; [done |]. unfold nomad.buildTCPConfig.
    rewrite decide_True by done. cbv beta iota zeta. simpl dynamic.tcp_Services.
    simpl dynamic.udp_Services. simpl dynamic.Services.
    rewrite range_values_singleton, for_range_single by done.
    unfold call_on.
    cbn [dynamic.tcp_LoadBalancer dynamic.udp_LoadBalancer dynamic.LoadBalancer].
    rewrite lookup_insert_eq.
    change (nomad.addServerTCP i (Some _)) with (nomad.addServerTCP i (Some lb)).
    destruct (nomad.addServerTCP i (Some lb)) as [t' r]. simpl in Hlb'. subst t'.
    by rewrite insert_insert_eq.
  - destruct (proj2 (addServerUDP_returns i (Some lb)) ltac:(done)) as [lb' Hlb'].
    exists lb'. split; [done |]. unfold nomad.buildUDPConfig.
    rewrite decide_True by done. cbv beta iota zeta. simpl dynamic.tcp_Services.
    simpl dynamic.udp_Services. simpl dynamic.Services.
    rewrite range_values_singleton, for_range_single by done.
    unfold call_on.
    cbn [dynamic.tcp_LoadBalancer dynamic.udp_LoadBalancer dynamic.LoadBalancer].
    rewrite lookup_insert_eq.
    change (nomad.addServerUDP i (Some _)) with (nomad.addServerUDP i (Some lb)).
    destruct (nomad.addServerUDP i (Some lb)) as [t' r]. simpl in Hlb'. subst t'.
    by rewrite insert_insert_eq.
  - destruct (proj2 (addServer_returns i (Some lb)) ltac:(done)) as [lb' Hlb'].
    exists lb'. split; [done |]. unfold nomad.buildServiceConfiguration.
    rewrite decide_True by done. cbv beta iota zeta. simpl dynamic.tcp_Services.
    simpl dynamic.udp_Services. simpl dynamic.Services.
    rewrite range_values_singleton, for_range_single by done.
    unfold call_on.
    cbn [dynamic.tcp_LoadBalancer dynamic.udp_LoadBalancer dynamic.LoadBalancer].
    rewrite lookup_insert_eq.
    change (nomad.addServer i (Some _)) with (nomad.addServer i (Some lb)).
    destruct (nomad.addServer i (Some lb)) as [t' r]. simpl in Hlb'. subst t'.
    by rewrite insert_insert_eq.
Qed.

(** What a load balancer looks like after a call that returned no error. *)
Lemma addServerTCP_done (i : nomad.item) (t t' : ptr (dynamic.TCPServersLoadBalancer R L)) :
  nomad.addServerTCP i t = (t', Returns None) ->
  exists lb, t <> None /\ t' = Some lb
    /\ (nomad.Address i <> ""
        /\ exists s rest port,
             dynamic.tcp_Servers lb = Some (s :: rest) /\ dynamic.tcp_Port s = ""
             /\ port <> "" /\ dynamic.tcp_Address s = net.JoinHostPort (nomad.Address i) port).
Proof.
  destruct t as [lb0|]; [| done]. rewrite addServerTCP_unfold. cbv zeta.
  repeat case_decide; intros [= <-]. eexists. repeat split; try done.
  by eexists _, _, (chosen_port (dynamic.tcp_Port (tcp_first lb0)) (nomad.Port i)).
Qed.

Lemma addServerUDP_done (i : nomad.item) (t t' : ptr (dynamic.UDPServersLoadBalancer R L)) :
  nomad.addServerUDP i t = (t', Returns None) ->
  exists lb, t <> None /\ t' = Some lb
    /\ (nomad.Address i <> ""
        /\ exists s rest port,
             dynamic.udp_Servers lb = Some (s :: rest) /\ dynamic.udp_Port s = ""
             /\ port <> "" /\ dynamic.udp_Address s = net.JoinHostPort (nomad.Address i) port).
Proof.
  destruct t as [lb0|]; [| done]. rewrite addServerUDP_unfold. cbv zeta.
  repeat case_decide; intros [= <-]. eexists. repeat split; try done.
  by eexists _, _, (chosen_port (dynamic.udp_Port (udp_first lb0)) (nomad.Port i)).
Qed.

Lemma addServer_done (i : nomad.item) (t t' : ptr (dynamic.ServersLoadBalancer R L)) :
  nomad.addServer i t = (t', Returns None) ->
  exists lb, t <> None /\ t' = Some lb
    /\ (nomad.Address i <> ""
        /\ exists s rest scheme port,
             dynamic.Servers lb = Some (s :: rest)
             /\ dynamic.Port s = "" /\ dynamic.Scheme s = "" /\ port <> ""
             /\ dynamic.URL s
                = scheme +:+ "://" +:+ net.JoinHostPort (nomad.Address i) port).
Proof.
  destruct t as [lb0|]; [| done]. rewrite addServer_unfold. cbv zeta.
  repeat case_decide; intros [= <-]. eexists. repeat split; try done.
  by eexists _, _, (dynamic.Scheme (http_first lb0)),
       (chosen_port (dynamic.Port (http_first lb0)) (nomad.Port i)).
Qed.

(** X28. When [buildTCPConfig] returns a nil error, the item has an
    address, the configuration has at least one service (its own services
    if it had any), every service is there and has a load balancer, and the
    first server of each load balancer has an empty port and, for address,
    the address of the item joined to a port. Likewise for [buildUDPConfig],
    and for [buildServiceConfiguration] with the URL of the first server,
    whose scheme is empty afterwards. *)
Theorem build_success_sets_every_server (order : range_order) (i : nomad.item) :
  enumerates order ->
  (forall (c c' : dynamic.TCPConfiguration S G)
          (h h' : heap (dynamic.TCPServersLoadBalancer R L)),
      nomad.buildTCPConfig order i (Some c) h = ((Some c', h'), Returns None) ->
      nomad.Address i <> ""
      /\ dynamic.tcp_Services c' <> ∅
      /\ (dynamic.tcp_Services c <> ∅ -> c' = c)
      /\ forall name service, dynamic.tcp_Services c' !! name = Some service ->
           exists svc l lb s rest port,
             service = Some svc /\ dynamic.tcp_LoadBalancer svc = Some l
             /\ h' !! l = Some lb /\ dynamic.tcp_Servers lb = Some (s :: rest)
             /\ dynamic.tcp_Port s = "" /\ port <> ""
             /\ dynamic.tcp_Address s = net.JoinHostPort (nomad.Address i) port)
  /\ (forall (c c' : dynamic.UDPConfiguration S G)
             (h h' : heap (dynamic.UDPServersLoadBalancer R L)),
      nomad.buildUDPConfig order i (Some c) h = ((Some c', h'), Returns None) ->
      nomad.Address i <> ""
      /\ dynamic.udp_Services c' <> ∅
      /\ (dynamic.udp_Services c <> ∅ -> c' = c)
      /\ forall name service, dynamic.udp_Services c' !! name = Some service ->
           exists svc l lb s rest port,
             service = Some svc /\ dynamic.udp_LoadBalancer svc = Some l
             /\ h' !! l = Some lb /\ dynamic.udp_Servers lb = Some (s :: rest)
             /\ dynamic.udp_Port s = "" /\ port <> ""
             /\ dynamic.udp_Address s = net.JoinHostPort (nomad.Address i) port)
  /\ (forall (c c' : dynamic.HTTPConfiguration S G)
             (h h' : heap (dynamic.ServersLoadBalancer R L)),
      nomad.buildServiceConfiguration order i (Some c) h = ((Some c', h'), Returns None) ->
      nomad.Address i <> ""
      /\ dynamic.Services c' <> ∅
      /\ (dynamic.Services c <> ∅ -> c' = c)
      /\ forall name service, dynamic.Services c' !! name = Some service ->
           exists svc l lb s rest scheme port,
             service = Some svc /\ dynamic.LoadBalancer svc = Some l
             /\ h' !! l = Some lb /\ dynamic.Servers lb = Some (s :: rest)
             /\ dynamic.Port s = "" /\ dynamic.Scheme s = "" /\ port <> ""
             /\ dynamic.URL s
                = scheme +:+ "://" +:+ net.JoinHostPort (nomad.Address i) port).
Proof.
  intros Ho. split; [| split]; intros c c' h h'.
  - unfold nomad.buildTCPConfig.
    destruct (if decide _ then _ else _) as [c1 h0] eqn:Hprep.
    destruct (for_range _ _ h0) as [h1 r] eqn:Hloop. intros [= -> -> ->].
    pose proof (loop_done (nomad.addServerTCP i) dynamic.tcp_LoadBalancer _ order
                  (dynamic.tcp_Services c') h0 h' Ho (addServerTCP_done i) Hloop) as Hall.
    assert (Hne : dynamic.tcp_Services c' <> ∅ /\ (dynamic.tcp_Services c <> ∅ -> c' = c)).
    { case_decide as Hsize; injection Hprep as <- <-; simpl.
      - apply map_size_empty_iff in Hsize. split; [apply insert_non_empty | done].
      - split; [by intros Hm%map_size_empty_iff | done]. }
    destruct Hne as [Hne Hsame].
    destruct (map_choose _ Hne) as (name & service & Hm).
    split; [| split; [done | split; [done |]]].
    + by destruct (Hall _ _ Hm) as (? & ? & ? & _ & _ & _ & ? & _).
    + intros name' service' Hm'.
      destruct (Hall _ _ Hm') as (svc & l & lb & ? & ? & ? & _ & s & rest & port & ?).
      by exists svc, l, lb, s, rest, port.
  - unfold nomad.buildUDPConfig.
    destruct (if decide _ then _ else _) as [c1 h0] eqn:Hprep.
    destruct (for_range _ _ h0) as [h1 r] eqn:Hloop. intros [= -> -> ->].
    pose proof (loop_done (nomad.addServerUDP i) dynamic.udp_LoadBalancer _ order
                  (dynamic.udp_Services c') h0 h' Ho (addServerUDP_done i) Hloop) as Hall.
    assert (Hne : dynamic.udp_Services c' <> ∅ /\ (dynamic.udp_Services c <> ∅ -> c' = c)).
    { case_decide as Hsize; injection Hprep as <- <-; simpl.
      - apply map_size_empty_iff in Hsize. split; [apply insert_non_empty | done].
      - split; [by intros Hm%map_size_empty_iff | done]. }
    destruct Hne as [Hne Hsame].
    destruct (map_choose _ Hne) as (name & service & Hm).
    split; [| split; [done | split; [done |]]].
    + by destruct (Hall _ _ Hm) as (? & ? & ? & _ & _ & _ & ? & _).
    + intros name' service' Hm'.
      destruct (Hall _ _ Hm') as (svc & l & lb & ? & ? & ? & _ & s & rest & port & ?).
      by exists svc, l, lb, s, rest, port.
  - unfold nomad.buildServiceConfiguration.
    destruct (if decide _ then _ else _) as [c1 h0] eqn:Hprep.
    destruct (for_range _ _ h0) as [h1 r] eqn:Hloop. intros [= -> -> ->].
    pose proof (loop_done (nomad.addServer i) dynamic.LoadBalancer _ order
                  (dynamic.Services c') h0 h' Ho (addServer_done i) Hloop) as Hall.
    assert (Hne : dynamic.Services c' <> ∅ /\ (dynamic.Services c <> ∅ -> c' = c)).
    { case_decide as Hsize; injection Hprep as <- <-; simpl.
      - apply map_size_empty_iff in Hsize. split; [apply insert_non_empty | done].
      - split; [by intros Hm%map_size_empty_iff | done]. }
    destruct Hne as [Hne Hsame].
    destruct (map_choose _ Hne) as (name & service & Hm).
    split; [| split; [done | split; [done |]]].
    + by destruct (Hall _ _ Hm) as (? & ? & ? & _ & _ & _ & ? & _).
    + intros name' service' Hm'.
      destruct (Hall _ _ Hm')
        as (svc & l & lb & ? & ? & ? & _ & s & rest & scheme & port & ?).
      by exists svc, l, lb, s, rest, scheme, port.
Qed.

(** X29. The three functions panic on nothing but what they were given:
    on a configuration that is there, whose services are all there and hold
    a load balancer that is nil or in the heap, they return, whatever the
    order of visit. *)
Theorem build_returns_on_sound_input (order : range_order) (i : nomad.item) :
  (forall (c : dynamic.TCPConfiguration S G) (h : heap (dynamic.TCPServersLoadBalancer R L)),
      (forall name service, dynamic.tcp_Services c !! name = Some service ->
         exists svc, service = Some svc
           /\ forall l, dynamic.tcp_LoadBalancer svc = Some l -> is_Some (h !! l)) ->
      (nomad.buildTCPConfig order i (Some c) h).2 <> Panics)
  /\ (forall (c : dynamic.UDPConfiguration S G)
             (h : heap (dynamic.UDPServersLoadBalancer R L)),
      (forall name service, dynamic.udp_Services c !! name = Some service ->
         exists svc, service = Some svc
           /\ forall l, dynamic.udp_LoadBalancer svc = Some l -> is_Some (h !! l)) ->
      (nomad.buildUDPConfig order i (Some c) h).2 <> Panics)
  /\ (forall (c : dynamic.HTTPConfiguration S G)
             (h : heap (dynamic.ServersLoadBalancer R L)),
      (forall name service, dynamic.Services c !! name = Some service ->
         exists svc, service = Some svc
           /\ forall l, dynamic.LoadBalancer svc = Some l -> is_Some (h !! l)) ->
      (nomad.buildServiceConfiguration order i (Some c) h).2 <> Panics).
Proof.
  split; [| split]; intros c h Hwf.
  - unfold nomad.buildTCPConfig.
    destruct (if decide _ then _ else _) as [c1 h0] eqn:Hprep.
    pose proof (loop_no_panic (nomad.addServerTCP i) dynamic.tcp_LoadBalancer order
                  (dynamic.tcp_Services c1) h0
                  (fun p => proj1 (addServerTCP_returns i p))) as Hloop.
    unfold visit in Hloop. destruct (for_range _ _ h0) as [h1 r]. simpl in *.
    apply Hloop. case_decide; injection Hprep as <- <-; [| done].
    simpl. intros name service [<- <-]%lookup_singleton_Some.
    eexists. split; [done |]. intros l [= <-]. rewrite lookup_insert_eq. by eexists.
  - unfold nomad.buildUDPConfig.
    destruct (if decide _ then _ else _) as [c1 h0] eqn:Hprep.
    pose proof (loop_no_panic (nomad.addServerUDP i) dynamic.udp_LoadBalancer order
                  (dynamic.udp_Services c1) h0
                  (fun p => proj1 (addServerUDP_returns i p))) as Hloop.
    unfold visit in Hloop. destruct (for_range _ _ h0) as [h1 r]. simpl in *.
    apply Hloop. case_decide; injection Hprep as <- <-; [| done].
    simpl. intros name service [<- <-]%lookup_singleton_Some.
    eexists. split; [done |]. intros l [= <-]. rewrite lookup_insert_eq. by eexists.
  - unfold nomad.buildServiceConfiguration.
    destruct (if decide _ then _ else _) as [c1 h0] eqn:Hprep.
    pose proof (loop_no_panic (nomad.addServer i) dynamic.LoadBalancer order
                  (dynamic.Services c1) h0
                  (fun p => proj1 (addServer_returns i p))) as Hloop.
    unfold visit in Hloop. destruct (for_range _ _ h0) as [h1 r]. simpl in *.
    apply Hloop. case_decide; injection Hprep as <- <-; [| done].
    simpl. intros name service [<- <-]%lookup_singleton_Some.
    eexists. split; [done |]. intros l [= <-]. rewrite lookup_insert_eq. by eexists.
Qed.

(** A second call on a load balancer whose first server has no port. *)
Lemma addServerTCP_again (i : nomad.item) (lb : dynamic.TCPServersLoadBalancer R L)
    (t' : ptr (dynamic.TCPServersLoadBalancer R L)) :
  dynamic.tcp_Port (tcp_first lb) = "" ->
  nomad.addServerTCP i (Some lb) = (t', Returns None) ->
  nomad.Port i <> 0%Z
  /\ exists lb' s rest,
       t' = Some lb' /\ dynamic.tcp_Servers lb' = Some (s :: rest)
       /\ dynamic.tcp_Port s = ""
       /\ dynamic.tcp_Address s
          = net.JoinHostPort (nomad.Address i) (strconv.Itoa (nomad.Port i)).
Proof.
  intros Hport. rewrite addServerTCP_unfold. cbv zeta. rewrite Hport.
  destruct (decide (chosen_port "" (nomad.Port i) = "")) as [Hp|Hp]; [done |].
  case_decide; [done |]. intros [= <-].
  assert (Hi : nomad.Port i <> 0%Z).
  { intros Hi. apply Hp. by apply chosen_port_empty. }
  split; [done |]. do 3 eexists. repeat split.
  simpl. unfold chosen_port. simpl. by rewrite decide_False.
Qed.

(** X30. Two services that hold the same load balancer: when
    [buildTCPConfig] returns a nil error, the load balancer has been through
    [addServerTCP] twice, so the item has a port of its own and that port is
    in the address of the first server, whatever port the server was given
    before and whatever the order of visit. *)
Theorem shared_load_balancer_gets_the_port_of_the_item (order : range_order)
    (i : nomad.item) (c c' : dynamic.TCPConfiguration S G)
    (h h' : heap (dynamic.TCPServersLoadBalancer R L))
    (name1 name2 : string) (svc1 svc2 : dynamic.TCPService S) (l : loc) :
  enumerates order ->
  name1 <> name2 ->
  dynamic.tcp_Services c !! name1 = Some (Some svc1) ->
  dynamic.tcp_Services c !! name2 = Some (Some svc2) ->
  dynamic.tcp_LoadBalancer svc1 = Some l ->
  dynamic.tcp_LoadBalancer svc2 = Some l ->
  nomad.buildTCPConfig order i (Some c) h = ((Some c', h'), Returns None) ->
  nomad.Port i <> 0%Z
  /\ exists lb s rest,
       h' !! l = Some lb /\ dynamic.tcp_Servers lb = Some (s :: rest)
       /\ dynamic.tcp_Port s = ""
       /\ dynamic.tcp_Address s
          = net.JoinHostPort (nomad.Address i) (strconv.Itoa (nomad.Port i)).
Proof.
  intros Ho Hne Hm1 Hm2 Hl1 Hl2. unfold nomad.buildTCPConfig.
  rewrite decide_False.
  2:{ intros Hsize%map_size_empty_iff. by rewrite Hsize, lookup_empty in Hm1. }
  destruct (for_range _ _ h) as [h1 r] eqn:Hloop. intros [= <- -> ->].
  change (for_range (visit (nomad.addServerTCP i) dynamic.tcp_LoadBalancer)
            (range_values order (dynamic.tcp_Services c)) h = (h', Returns None)) in Hloop.
  apply all_ok_for_range in Hloop.
  (* the two services first *)
  assert (Hperm : exists names,
             order (dom (dynamic.tcp_Services c)) ≡ₚ name1 :: name2 :: names).
  { assert (Hin1 : name1 ∈ order (dom (dynamic.tcp_Services c))).
    { rewrite (Ho _). apply elem_of_elements, elem_of_dom. by eexists. }
    apply elem_of_Permutation in Hin1 as [k Hk].
    assert (Hin2 : name2 ∈ k).
    { assert (Hin : name2 ∈ name1 :: k).
      { rewrite <- Hk, (Ho _). apply elem_of_elements, elem_of_dom. by eexists. }
      apply elem_of_cons in Hin as [Heq | Hin]; [by destruct Hne | done]. }
    apply elem_of_Permutation in Hin2 as [k' Hk'].
    exists k'. by rewrite Hk, Hk'. }
  destruct Hperm as [names Hperm].
  assert (Hvals : range_values order (dynamic.tcp_Services c)
                  ≡ₚ [Some svc1; Some svc2]
                     ++ omap (fun k => dynamic.tcp_Services c !! k) names).
  { unfold range_values. rewrite Hperm. simpl. by rewrite Hm1, Hm2. }
  rewrite (all_ok_perm _ _ _ (visit_swap _ _) Hvals), all_ok_app in Hloop.
  destruct (all_ok _ [Some svc1; Some svc2] h) as [h2|] eqn:Htwo; [| done].
  simpl in Hloop.
  (* two calls on the one load balancer *)
  assert (Hafter : nomad.Port i <> 0%Z
            /\ exists lb s rest,
                 h2 !! l = Some lb /\ dynamic.tcp_Servers lb = Some (s :: rest)
                 /\ dynamic.tcp_Port s = ""
                 /\ dynamic.tcp_Address s
                    = net.JoinHostPort (nomad.Address i) (strconv.Itoa (nomad.Port i))).
  { simpl in Htwo. rewrite Hl1, Hl2 in Htwo. unfold call_on in Htwo.
    destruct (h !! l) as [lb0|]; [| done].
    destruct (nomad.addServerTCP i (Some lb0)) as [t1 [[e|]|]] eqn:H1; try done.
    destruct (addServerTCP_done _ _ _ H1) as (lb1 & _ & -> & _ & s1 & rest1 & p1 & Hs1 & Hp1 & _).
    rewrite lookup_insert_eq in Htwo.
    destruct (nomad.addServerTCP i (Some lb1)) as [t2 [[e|]|]] eqn:H2; try done.
    apply addServerTCP_again in H2 as (Hi & lb2 & s2 & rest2 & -> & Hs2 & Hp2 & Ha2).
    2:{ unfold tcp_first. by rewrite Hs1. }
    injection Htwo as <-. split; [done |].
    exists lb2, s2, rest2. by rewrite lookup_insert_eq. }
  destruct Hafter as [Hi Hafter]. split; [done |].
  (* the other services *)
  apply (all_ok_preserves (visit (nomad.addServerTCP i) dynamic.tcp_LoadBalancer)
           (fun st => exists lb s rest,
              st !! l = Some lb /\ dynamic.tcp_Servers lb = Some (s :: rest)
              /\ dynamic.tcp_Port s = ""
              /\ dynamic.tcp_Address s
                 = net.JoinHostPort (nomad.Address i) (strconv.Itoa (nomad.Port i)))
           (omap (fun k => dynamic.tcp_Services c !! k) names) h2 h');
    [| exact Hloop | exact Hafter].
  intros v st st' (lb & s & rest & Hlb & Hs & Hp & Ha) Hv.
  apply visit_ok_inv in Hv as (svc & -> & [(_ & -> & _) | Hv]); [by exists lb, s, rest |].
  destruct Hv as (l' & t & t' & Hl' & Ht & Hf & ->).
  destruct (decide (l' = l)) as [->|Hl].
  - rewrite Hlb in Ht. injection Ht as <-.
    apply addServerTCP_again in Hf as (_ & lb' & s' & rest' & -> & Hs' & Hp' & Ha').
    2:{ unfold tcp_first. by rewrite Hs. }
    exists lb', s', rest'. by rewrite lookup_insert_eq.
  - destruct t' as [t''|]; [| by exists lb, s, rest].
    exists lb, s, rest. by rewrite lookup_insert_ne.
Qed.

End Build.

(** * The scenarios of the unit tests, as instances of the claims *)

Import fixture.

(** Instance of C1: the resolver [le] bound in the environment of the tests,
    [account1], resp. [cert1], saved through the mock; the read that follows
    leaves the read counter of the mock at zero. *)
Lemma save_then_get_is_cache_hit_witness :
  let ns := boundStore newMockNomadVariablesAPI in
  let na := fst (SaveAccount "le" account1 ns) in
  let nc := fst (SaveCertificates "le" (Some [cert1]) ns) in
  (SaveAccount "le" account1 ns = (na, Returns None)
   /\ GetAccount "le" na = (na, (account1, None))
   /\ getVarHitCounter (client (fst (GetAccount "le" na))) = 0%Z)
  /\ (SaveCertificates "le" (Some [cert1]) ns = (nc, None)
      /\ GetCertificates "le" nc = (nc, (Some [cert1], None))
      /\ getVarHitCounter (client (fst (GetCertificates "le" nc))) = 0%Z).
Proof.
  intros ns na nc.
  destruct (save_then_get_is_cache_hit "le" ns) as [Ha Hc].
  assert (Hsa : SaveAccount "le" account1 ns = (na, Returns None))
    by (vm_compute; reflexivity).
  assert (Hsc : SaveCertificates "le" (Some [cert1]) ns = (nc, None))
    by (vm_compute; reflexivity).
  split; split; try assumption.
  - split; [exact (Ha account1_value na Hsa) |].
    rewrite (Ha account1_value na Hsa). vm_compute; reflexivity.
  - split; [exact (Hc (Some [cert1]) nc Hsc) |].
    rewrite (Hc (Some [cert1]) nc Hsc). vm_compute; reflexivity.
Defined.

(** Instance of C2: a store fresh from [MaybeNewNomadStore], no resolver
    bound; the four calls are refused and the counters of the mock stay at
    zero. *)
Lemma unbound_resolver_is_refused_witness :
  let ns := newStore newMockNomadVariablesAPI in
  paths ns !! "le" = None
  /\ GetAccount "le" ns = (ns, (None, Some ErrNoNomadVariableForResolver))
  /\ GetCertificates "le" ns = (ns, (None, Some ErrNoNomadVariableForResolver))
  /\ snd (SaveAccount "le" account1 ns) = Returns (Some ErrNoNomadVariableForResolver)
  /\ client (fst (SaveAccount "le" account1 ns)) = newMockNomadVariablesAPI
  /\ snd (SaveCertificates "le" (Some [cert1]) ns) = Some ErrNoNomadVariableForResolver
  /\ client (fst (SaveCertificates "le" (Some [cert1]) ns)) = newMockNomadVariablesAPI.
Proof.
  intros ns.
  assert (Hp : paths ns !! "le" = None) by reflexivity.
  destruct (unbound_resolver_is_refused "le" ns Hp) as (Ha & Hc & Hsa & Hsc).
  split; [exact Hp |].
  split; [apply Ha; reflexivity |].
  split; [apply Hc; reflexivity |].
  unfold account1. rewrite (Hsa account1_value), (Hsc (Some [cert1])).
  repeat split.
Defined.

(** The resolver [le], bound without a path of its own, is bound to
    [lePath] whatever the mock. *)
Lemma boundStore_bound_to (m : mockNomadVariablesAPI) : bound_to (boundStore m) "le" lePath.
Proof. split; [reflexivity | discriminate]. Qed.

(** Instance of C4: the mock whose reads fail with [oops], and mocks that
    hold a payload the decoder rejects: an opening brace and nothing after
    it, for which [json.Unmarshal] returns the syntax error
    [unexpected end of JSON input]. *)
Lemma read_failure_propagates_witness :
  snd (GetAccount "le" (boundStore mockReadFails)) = (None, Some oops)
  /\ accountCache (fst (GetAccount "le" (boundStore mockReadFails))) !! "le" = None
  /\ snd (GetAccount "le" (boundStore (mockHolding (lePath +:+ "/account") "account" "{")))
     = (None, Some (jsonError eof_message))
  /\ snd (GetCertificates "le" (boundStore mockReadFails)) = (None, Some oops)
  /\ certCache (fst (GetCertificates "le" (boundStore mockReadFails))) !! "le" = None
  /\ snd (GetCertificates "le"
            (boundStore (mockHolding (lePath +:+ "/certificates") "certificates" "{")))
     = (None, Some (jsonError eof_message)).
Proof.
  pose (bad k := boundStore (mockHolding (lePath +:+ "/" +:+ k) k "{")).
  destruct (read_failure_propagates "le" (boundStore mockReadFails) lePath
              (boundStore_bound_to _)) as (Ha & _ & Hc & _).
  destruct (read_failure_propagates "le" (bad "account") lePath
              (boundStore_bound_to _)) as (_ & Hda & _ & _).
  destruct (read_failure_propagates "le" (bad "certificates") lePath
              (boundStore_bound_to _)) as (_ & _ & _ & Hdc).
  specialize (Ha (fst (mock.GetVariableItems (lePath +:+ "/account") mockReadFails))
                ∅ oops eq_refl eq_refl eq_refl).
  specialize (Hc (fst (mock.GetVariableItems (lePath +:+ "/certificates") mockReadFails))
                ∅ oops eq_refl eq_refl eq_refl).
  specialize (Hda (fst (mock.GetVariableItems (lePath +:+ "/account")
                          (client (bad "account"))))
                {[ "account" := "{" ]} None eof_message eq_refl eq_refl eq_refl).
  specialize (Hdc (fst (mock.GetVariableItems (lePath +:+ "/certificates")
                          (client (bad "certificates"))))
                {[ "certificates" := "{" ]} None eof_message eq_refl eq_refl eq_refl).
  subst bad. cbv beta in Hda, Hdc.
  rewrite Ha, Hc.
  change (boundStore (mockHolding (lePath +:+ "/account") "account" "{"))
    with (boundStore (mockHolding (lePath +:+ "/" +:+ "account") "account" "{")).
  change (boundStore (mockHolding (lePath +:+ "/certificates") "certificates" "{"))
    with (boundStore (mockHolding (lePath +:+ "/" +:+ "certificates") "certificates" "{")).
  rewrite Hda, Hdc.
  repeat split.
Defined.

(** Instance of C5: the resolver bound and nothing stored in the mock. *)
Lemma path_not_found_is_no_data_witness :
  let ns := boundStore newMockNomadVariablesAPI in
  snd (mock.GetVariableItems (lePath +:+ "/account") (client ns))
  = (∅, Some ErrVariablePathNotFound)
  /\ snd (GetAccount "le" ns) = (None, None)
  /\ snd (GetCertificates "le" ns) = (None, None).
Proof.
  intros ns.
  destruct (path_not_found_is_no_data "le" ns lePath (boundStore_bound_to _)) as [Ha Hc].
  split; [reflexivity |]. split.
  - exact (Ha (fst (mock.GetVariableItems (lePath +:+ "/account") (client ns))) ∅
              ErrVariablePathNotFound eq_refl eq_refl eq_refl).
  - exact (Hc (fst (mock.GetVariableItems (lePath +:+ "/certificates") (client ns))) ∅
              ErrVariablePathNotFound eq_refl eq_refl eq_refl).
Defined.

(** Instance of C9: the mock holds, at the path of the artifact, a variable
    whose only item is under another key. *)
Lemma missing_item_is_decoding_error_witness :
  let na := boundStore (mockHolding (lePath +:+ "/account") "other" "x") in
  let nc := boundStore (mockHolding (lePath +:+ "/certificates") "other" "x") in
  snd (GetAccount "le" na) = (None, Some (jsonError eof_message))
  /\ accountCache (fst (GetAccount "le" na)) !! "le" = None
  /\ snd (GetCertificates "le" nc) = (None, Some (jsonError eof_message))
  /\ certCache (fst (GetCertificates "le" nc)) !! "le" = None.
Proof.
  intros na nc.
  destruct (missing_item_is_decoding_error "le" na lePath (boundStore_bound_to _))
    as [Ha _].
  destruct (missing_item_is_decoding_error "le" nc lePath (boundStore_bound_to _))
    as [_ Hc].
  destruct (Ha (fst (mock.GetVariableItems (lePath +:+ "/account") (client na)))
              {[ "other" := "x" ]} None eof_message eq_refl eq_refl eq_refl eq_refl)
    as [Ea _].
  destruct (Hc (fst (mock.GetVariableItems (lePath +:+ "/certificates") (client nc)))
              {[ "other" := "x" ]} None eof_message eq_refl eq_refl eq_refl eq_refl)
    as [Ec _].
  rewrite Ea, Ec. repeat split.
Defined.

(** Instance of C10: three reads in a row of a bound resolver with nothing
    stored; the read counter of the mock goes to three and the caches stay
    empty. *)
Lemma absence_is_never_cached_witness :
  let ns := boundStore newMockNomadVariablesAPI in
  (snd (GetAccount_times 3 "le" ns) = [(None, None); (None, None); (None, None)]
   /\ getVarHitCounter (client (fst (GetAccount_times 3 "le" ns))) = 3%Z
   /\ accountCache (fst (GetAccount_times 3 "le" ns)) = ∅)
  /\ (snd (GetCertificates_times 3 "le" ns) = [(None, None); (None, None); (None, None)]
      /\ getVarHitCounter (client (fst (GetCertificates_times 3 "le" ns))) = 3%Z
      /\ certCache (fst (GetCertificates_times 3 "le" ns)) = ∅).
Proof.
  intros ns.
  destruct (absence_is_never_cached "le" lePath 3) as [Ha Hc].
  assert (Hna : absent_for 3 (lePath +:+ "/account") (client ns))
    by (repeat split; reflexivity).
  assert (Hnc : absent_for 3 (lePath +:+ "/certificates") (client ns))
    by (repeat split; reflexivity).
  rewrite (Ha ns (boundStore_bound_to _) eq_refl Hna).
  rewrite (Hc ns (boundStore_bound_to _) eq_refl Hnc).
  repeat split.
Defined.

(** Instance of C6: the automatic path of the tests. *)
Lemma SetResolver_derives_path_witness :
  strings.TrimPrefix "nomad://" "nomad://" = ""
  /\ paths (SetResolver env "pebble" "nomad://" (newStore newMockNomadVariablesAPI))
       !! "pebble"
     = Some "nomad/jobs/job1/group1/task1/acme/pebble"
  /\ paths (SetResolver env "le" "nomad://" (newStore newMockNomadVariablesAPI)) !! "le"
     = Some "nomad/jobs/job1/group1/task1/acme/le".
Proof.
  destruct (SetResolver_derives_path env "pebble" "nomad://"
              (newStore newMockNomadVariablesAPI) eq_refl) as [Hp Hle].
  split; [reflexivity |]. split; [exact Hp | exact Hle].
Defined.

(** Instance of C7: the explicit path of the tests. *)
Lemma SetResolver_keeps_explicit_path_witness :
  strings.TrimPrefix "nomad://traefik/acme" "nomad://" <> ""
  /\ paths (SetResolver env "pebble" "nomad://traefik/acme"
              (newStore newMockNomadVariablesAPI)) !! "pebble"
     = Some "traefik/acme".
Proof.
  assert (Hne : strings.TrimPrefix "nomad://traefik/acme" "nomad://" <> "")
    by (vm_compute; discriminate).
  destruct (SetResolver_keeps_explicit_path env "pebble" "nomad://traefik/acme"
              (newStore newMockNomadVariablesAPI) Hne) as (Hp & _).
  split; [exact Hne | exact Hp].
Defined.

(** Instance of C8: [account1], resp. the list of [cert1], saved for the
    resolver [le]. The mock already holds a variable with another item at
    the path of the account; after the save it holds there a variable with
    one item, under the key [account], and the item it held is gone. A nil
    list of certificates is encoded as [null], and written like any other:
    one [Create] of a variable whose one item is [null]. Each save is one
    call of [Create], the second the mock has seen, and no read. *)
Lemma save_creates_single_item_witness :
  let ns := boundStore (mockHolding (lePath +:+ "/account") "other" "x") in
  variables (client ns) !! (lePath +:+ "/account")
  = Some {| api.Path := lePath +:+ "/account"; api.Items := {[ "other" := "x" ]} |}
  /\ (exists b,
        variables (client (fst (SaveAccount "le" account1 ns))) !! (lePath +:+ "/account")
        = Some {| api.Path := lePath +:+ "/account"; api.Items := {[ "account" := b ]} |})
  /\ snd (SaveAccount "le" account1 ns) = Returns None
  /\ createHitCounter (client (fst (SaveAccount "le" account1 ns))) = 2%Z
  /\ getVarHitCounter (client (fst (SaveAccount "le" account1 ns))) = 0%Z
  /\ (exists b,
        variables (client (fst (SaveCertificates "le" (Some [cert1]) ns)))
          !! (lePath +:+ "/certificates")
        = Some {| api.Path := lePath +:+ "/certificates";
                  api.Items := {[ "certificates" := b ]} |})
  /\ variables (client (fst (SaveCertificates "le" None ns))) !! (lePath +:+ "/certificates")
     = Some {| api.Path := lePath +:+ "/certificates";
               api.Items := {[ "certificates" := "null" ]} |}
  /\ snd (SaveCertificates "le" None ns) = None
  /\ createHitCounter (client (fst (SaveCertificates "le" None ns))) = 2%Z.
Proof.
  intros ns.
  destruct (save_creates_single_item "le" lePath) as (Ha & Hc & Hma & Hmc & _ & _).
  assert (Hea : json_Marshal account1 = (account1Marshaled, None)) by reflexivity.
  assert (Hec : json_Marshal (Some [cert1]) = (certs1Marshaled, None)) by reflexivity.
  assert (Hen : json_Marshal (None : slice (ptr CertAndStore)) = ("null", None))
    by reflexivity.
  split; [reflexivity |].
  split; [exists account1Marshaled;
          exact (Hma ns account1_value account1Marshaled (boundStore_bound_to _) Hea eq_refl) |].
  unfold account1.
  rewrite (Ha ns account1_value account1Marshaled (boundStore_bound_to _) Hea).
  split; [reflexivity |]. split; [reflexivity |]. split; [reflexivity |].
  split; [exists certs1Marshaled;
          exact (Hmc ns (Some [cert1]) certs1Marshaled (boundStore_bound_to _) Hec eq_refl) |].
  split; [exact (Hmc ns None "null" (boundStore_bound_to _) Hen eq_refl) |].
  rewrite (Hc ns None "null" (boundStore_bound_to _) Hen).
  split; reflexivity.
Defined.

(** * Instances of the further properties *)

Import sample.

(** Instance of X1: no store in an empty environment; in the environment of
    the tests a store that refuses the resolver [le]. *)
Lemma MaybeNewNomadStore_needs_token_and_secrets_witness :
  MaybeNewNomadStore ∅ newMockNomadVariablesAPI = None
  /\ client (newStore newMockNomadVariablesAPI) = newMockNomadVariablesAPI
  /\ snd (GetAccount "le" (newStore newMockNomadVariablesAPI))
     = (None, Some ErrNoNomadVariableForResolver)
  /\ snd (SaveCertificates "le" (Some [cert1]) (newStore newMockNomadVariablesAPI))
     = Some ErrNoNomadVariableForResolver.
Proof.
  destruct (MaybeNewNomadStore_needs_token_and_secrets ∅ newMockNomadVariablesAPI)
    as [Hnone _].
  destruct (MaybeNewNomadStore_needs_token_and_secrets env newMockNomadVariablesAPI)
    as [_ Hsome].
  destruct (Hsome (newStore newMockNomadVariablesAPI) eq_refl) as [Hc Hall].
  destruct (Hall "le" account1_value (Some [cert1])) as (Ha & _ & _ & Hsc).
  split; [apply Hnone; left; left; reflexivity |].
  split; [exact Hc |]. split; [exact Ha | exact Hsc].
Defined.

(** Instance of X2: the mock holds [account1]; the first read fetches it, the
    second leaves the read counter at one. *)
Lemma fetched_value_is_cached_witness :
  let ns := boundStore (mockHolding (lePath +:+ "/account") "account" account1JSON) in
  snd (GetAccount "le" ns) = (account1, None)
  /\ GetAccount "le" (fst (GetAccount "le" ns)) = (fst (GetAccount "le" ns), (account1, None))
  /\ getVarHitCounter (client (fst (GetAccount "le" (fst (GetAccount "le" ns))))) = 1%Z.
Proof.
  intros ns.
  destruct (fetched_value_is_cached "le" ns lePath (boundStore_bound_to _)) as [Ha _].
  destruct (Ha (fst (mock.GetVariableItems (lePath +:+ "/account") (client ns)))
              {[ "account" := account1JSON ]} account1 eq_refl eq_refl eq_refl)
    as (Hv & _ & _ & Hhit).
  split; [exact Hv |]. split; [exact Hhit |].
  rewrite Hhit. reflexivity.
Defined.

(** Instance of X4: [account1] is in the cache of [le]; the resolver is
    bound to another path, and [account1] is still what a read returns. *)
Lemma rebinding_keeps_cache_witness :
  let ns := fst (SaveAccount "le" account1 (boundStore newMockNomadVariablesAPI)) in
  snd (GetAccount "le" (SetResolver env "le" "nomad://other/path" ns)) = (account1, None).
Proof.
  intros ns.
  destruct (rebinding_keeps_cache env "le" "nomad://other/path" ns) as (Ha & _ & _).
  rewrite (Ha account1 eq_refl). reflexivity.
Defined.

(** Instance of X5: [le] and [pebble] bound in the two orders. *)
Lemma SetResolver_last_wins_witness :
  let ns := newStore newMockNomadVariablesAPI in
  SetResolver env "pebble" "nomad://" (SetResolver env "le" "nomad://a" ns)
  = SetResolver env "le" "nomad://a" (SetResolver env "pebble" "nomad://" ns).
Proof.
  intros ns.
  destruct (SetResolver_last_wins env env "le" "pebble" "nomad://a" "nomad://" ns)
    as [_ Hswap].
  apply Hswap. discriminate.
Defined.

(** Instance of X6: [LE] and [le], neither with a path of its own. *)
Lemma case_variants_share_path_witness :
  exists p,
    bound_to (SetResolver env "LE" "" (SetResolver env "le" "nomad://"
                (newStore newMockNomadVariablesAPI))) "LE" p
    /\ bound_to (SetResolver env "LE" "" (SetResolver env "le" "nomad://"
                   (newStore newMockNomadVariablesAPI))) "le" p.
Proof.
  apply (case_variants_share_path env "LE" "le" "" "nomad://"
           (newStore newMockNomadVariablesAPI)); reflexivity.
Defined.

(** The store of the tests, bound, is one a program can hold. *)
Lemma boundStore_reachable (m : mockNomadVariablesAPI) : reachable (boundStore m).
Proof.
  exists env, m, (newStore m). split; [reflexivity |].
  eapply rtc_l; [apply step_SetResolver | apply rtc_refl].
Defined.

(** Instance of X7: the store of the tests with [le] bound. *)
Lemma reachable_paths_nonempty_witness :
  lePath <> ""
  /\ pathForResolverLocked (boundStore newMockNomadVariablesAPI) "le" "account"
     = (lePath +:+ "/account", true).
Proof.
  exact (reachable_paths_nonempty (boundStore newMockNomadVariablesAPI)
           (boundStore_reachable _) "le" lePath "account" eq_refl).
Defined.

(** Instance of X8: [le] is bound, then an account is saved and read. *)
Lemma bound_resolver_stays_bound_witness :
  exists p,
    bound_to (fst (GetAccount "le"
                     (fst (SaveAccount "le" account1 (boundStore newMockNomadVariablesAPI)))))
      "le" p.
Proof.
  apply (bound_resolver_stays_bound env "le" "nomad://" (newStore newMockNomadVariablesAPI)).
  - exists env, newMockNomadVariablesAPI, (newStore newMockNomadVariablesAPI).
    split; [reflexivity | apply rtc_refl].
  - eapply rtc_l; [apply (step_SaveAccount "le" account1) |].
    eapply rtc_l; [apply (step_GetAccount "le") | apply rtc_refl].
Defined.

(** Instance of X9: the methods called for [le] leave [pebble] alone. *)
Lemma methods_touch_one_cache_entry_witness :
  let ns := fst (SaveAccount "pebble" account1 (boundStore newMockNomadVariablesAPI)) in
  accountCache (fst (SaveAccount "le" None ns)) !! "pebble" = Some account1
  /\ accountCache (fst (GetAccount "le" ns)) !! "pebble" = Some account1
  /\ accountCache (fst (SaveCertificates "le" (Some [cert1]) ns)) = accountCache ns.
Proof.
  intros ns.
  assert (Hne : "pebble" <> "le") by discriminate.
  destruct (methods_touch_one_cache_entry "le" "pebble" ns Hne)
    as ([Hga _] & Hsa & _ & Hsc).
  destruct (Hsa None) as [Hsa' _]. destruct (Hsc (Some [cert1])) as [_ Hsc'].
  rewrite Hsa', Hga. split; [reflexivity |]. split; [reflexivity | exact Hsc'].
Defined.

(** Instance of X10: a variable created in the empty mock. *)
Lemma mock_reads_what_was_created_witness :
  let v := {| api.Path := "a/b"; api.Items := {[ "k" := "x" ]} |} in
  let m' := fst (mock.Create v newMockNomadVariablesAPI) in
  snd (mock.GetVariableItems "a/b" m') = ({[ "k" := "x" ]}, None)
  /\ snd (mock.GetVariableItems "a/c" m') = (∅, Some ErrVariablePathNotFound)
  /\ createHitCounter m' = 1%Z.
Proof.
  intros v m'.
  destruct (mock_reads_what_was_created v "a/c" newMockNomadVariablesAPI eq_refl)
    as (Hok & _ & Hcount & _).
  destruct (Hok eq_refl) as [Hread Hother].
  split; [exact Hread |]. split; [| exact Hcount].
  unfold m'. rewrite Hother by discriminate. reflexivity.
Defined.

(** The second store of the next two instances: a store of its own on the
    mock, with the resolver [other] bound to the path of [le] by hand. *)
Lemma otherStore_bound_to (m : mockNomadVariablesAPI) :
  bound_to (SetResolver env "other" ("nomad://" +:+ lePath) (newStore m)) "other" lePath.
Proof. split; [reflexivity | discriminate]. Qed.

(** Instance of X11: [account1] and [cert1] saved for [le] by one store and
    read for [other] by a second one. *)
Lemma saved_value_is_read_back_witness :
  let ms := boundStore newMockNomadVariablesAPI in
  let ms2 := SetResolver env "other" ("nomad://" +:+ lePath)
               (newStore newMockNomadVariablesAPI) in
  snd (GetAccount "other" (set_client (client (fst (SaveAccount "le" account1 ms))) ms2))
  = (account1, None)
  /\ snd (GetCertificates "other"
            (set_client (client (fst (SaveCertificates "le" (Some [cert1]) ms))) ms2))
     = (Some [cert1], None).
Proof.
  intros ms ms2.
  assert (Hma : json_Marshal (Some account1_value) = (account1Marshaled, None))
    by reflexivity.
  assert (Hua : json_Unmarshal account1Marshaled (None : ptr Account) = (account1, None))
    by reflexivity.
  assert (Hmc : json_Marshal (Some [cert1]) = (certs1Marshaled, None)) by reflexivity.
  assert (Huc : json_Unmarshal certs1Marshaled (None : slice (ptr CertAndStore))
                = (Some [cert1], None)) by reflexivity.
  destruct (saved_value_is_read_back ms ms2 "le" "other" lePath account1_value
              (Some [cert1]) account1Marshaled certs1Marshaled account1 (Some [cert1])
              eq_refl eq_refl (boundStore_bound_to _) (otherStore_bound_to _)
              eq_refl eq_refl Hma Hua Hmc Huc)
    as [[_ Ha] [_ Hc]].
  split; [exact Ha | exact Hc].
Defined.

Lemma lePath_two_variables :
  path_Join lePath nomadStoreAccountType <> path_Join lePath nomadStoreCertsType.
Proof. intros Heq. apply (f_equal String.length) in Heq. discriminate Heq. Qed.

(** Instance of X12: [account1], then [cert1], saved for [le]; a second
    store reads the account. *)
Lemma certificates_do_not_overwrite_account_witness :
  let ms := boundStore newMockNomadVariablesAPI in
  let ms2 := SetResolver env "other" ("nomad://" +:+ lePath)
               (newStore newMockNomadVariablesAPI) in
  let ms' := fst (SaveCertificates "le" (Some [cert1]) (fst (SaveAccount "le" account1 ms))) in
  snd (GetAccount "other" (set_client (client ms') ms2)) = (account1, None).
Proof.
  intros ms ms2 ms'.
  assert (Hma : json_Marshal (Some account1_value) = (account1Marshaled, None))
    by reflexivity.
  assert (Hua : json_Unmarshal account1Marshaled (None : ptr Account) = (account1, None))
    by reflexivity.
  assert (Hmc : json_Marshal (Some [cert1]) = (certs1Marshaled, None)) by reflexivity.
  exact (certificates_do_not_overwrite_account ms ms2 "le" "other" lePath account1_value
           (Some [cert1]) account1Marshaled certs1Marshaled account1
           eq_refl eq_refl lePath_two_variables (boundStore_bound_to _)
           (otherStore_bound_to _) eq_refl Hma Hua Hmc).
Defined.

(** Instance of X14: the tag that enables the service, after one that
    disables it and before one of another kind; the value has an equals sign
    of its own. *)
Lemma tagsToLabels_reads_tag_witness :
  nomad.tagsToLabels
    (Some ["traefik.rule=Host(a)"; "traefik.rule=Path(x=y)"; "version=3"]) "traefik"
    !! "traefik.rule" = Some "Path(x=y)".
Proof.
  exact (tagsToLabels_reads_tag ["traefik.rule=Host(a)"] ["version=3"] "traefik" ".rule"
           "Path(x=y)" eq_refl eq_refl eq_refl).
Defined.

(** Instance of X15: the label [traefik.enable] of a list of tags with
    another prefix. *)
Lemma tagsToLabels_only_from_tags_witness :
  exists tag k,
    tag ∈ ["foo.enable=true"; "bar"]
    /\ strings.HasPrefix tag "foo" = true
    /\ tag = k +:+ "=" +:+ "true"
    /\ net.has_byte "=" k = false
    /\ "traefik.enable" = "traefik" +:+ strings.TrimPrefix k "foo".
Proof.
  exact (tagsToLabels_only_from_tags (Some ["foo.enable=true"; "bar"]) "foo"
           "traefik.enable" "true" eq_refl).
Defined.

(** Instance of X19: a load balancer without servers, and one whose first
    server was given the port 99, which wins over the port of the item. *)
Lemma addServerTCP_address_witness :
  fst (nomad.addServerTCP web (Some tcp_empty))
  = Some (dynamic.mkTCPServersLoadBalancer
            (Some [dynamic.mkTCPServer "10.0.0.1:8080" "" ""]) "lb")
  /\ fst (nomad.addServerTCP web (Some tcp_with_port))
     = Some (dynamic.mkTCPServersLoadBalancer
               (Some [dynamic.mkTCPServer "10.0.0.1:99" "" "srv"]) "lb").
Proof.
  split.
  - exact (addServerTCP_address web tcp_empty eq_refl).
  - exact (addServerTCP_address web tcp_with_port eq_refl).
Defined.

(** Instance of X20: an item without an address. *)
Lemma addServerTCP_error_keeps_address_witness :
  snd (nomad.addServerTCP homeless (Some tcp_with_port))
  = Returns (Some (errorString "address is missing"))
  /\ fst (nomad.addServerTCP homeless (Some tcp_with_port))
     = Some (dynamic.mkTCPServersLoadBalancer
               (Some [dynamic.mkTCPServer "old" "" "srv"]) "lb").
Proof.
  split; [reflexivity |].
  exact (addServerTCP_error_keeps_address homeless tcp_with_port
           (errorString "address is missing") eq_refl).
Defined.

(** Instance of X24: a server made with the default scheme, and one that
    was given a scheme and a port. *)
Lemma addServer_url_witness :
  fst (nomad.addServer web (Some http_empty))
  = Some (dynamic.mkServersLoadBalancer
            (Some [dynamic.mkServer "http://10.0.0.1:8080" "" "" ""]) "lb")
  /\ fst (nomad.addServer web (Some http_with_port))
     = Some (dynamic.mkServersLoadBalancer
               (Some [dynamic.mkServer "h2c://10.0.0.1:99" "" "" "srv"]) "lb").
Proof.
  split.
  - exact (addServer_url web http_empty eq_refl).
  - exact (addServer_url web http_with_port eq_refl).
Defined.

(** Instance of X25: an item without an address. *)
Lemma addServer_error_keeps_url_and_scheme_witness :
  fst (nomad.addServer homeless (Some http_with_port))
  = Some (dynamic.mkServersLoadBalancer
            (Some [dynamic.mkServer "old" "h2c" "" "srv"]) "lb").
Proof.
  exact (addServer_error_keeps_url_and_scheme homeless http_with_port
           (errorString "address is missing") eq_refl).
Defined.

Lemma forwards_enumerates : enumerates forwards.
Proof. intros X. reflexivity. Qed.

Lemma backwards_is_forwards (X : gset string) : forwards X ≡ₚ backwards X.
Proof. unfold backwards, forwards. by rewrite reverse_Permutation. Qed.

(** Instance of X26: the two services visited forwards and backwards. *)
Lemma build_order_does_not_matter_witness :
  nomad.buildTCPConfig forwards web (Some tcp_two_services) tcp_two_load_balancers
  = nomad.buildTCPConfig backwards web (Some tcp_two_services) tcp_two_load_balancers.
Proof.
  destruct (build_order_does_not_matter (R := string) (L := string) (S := string)
              (G := string) forwards backwards web backwards_is_forwards)
    as (Htcp & _ & _).
  destruct (Htcp (Some tcp_two_services) tcp_two_load_balancers) as [_ Heq].
  apply Heq. vm_compute. reflexivity.
Defined.

(** Instance of X27: a TCP and an HTTP configuration without services, and
    an empty heap. *)
Lemma build_makes_a_service_witness :
  nomad.buildTCPConfig forwards web (Some tcp_no_service) ∅
  = ((Some (dynamic.mkTCPConfiguration
              {[ "web" := Some (dynamic.mkTCPService (Some (new_loc (∅ : heap
                   (dynamic.TCPServersLoadBalancer string string)))) "") ]} "cfg"),
      {[ new_loc (∅ : heap (dynamic.TCPServersLoadBalancer string string))
         := dynamic.mkTCPServersLoadBalancer
              (Some [dynamic.mkTCPServer "10.0.0.1:8080" "" ""]) "defaults" ]}),
     Returns None)
  /\ snd (nomad.buildServiceConfiguration forwards web (Some http_no_service) ∅)
     = Returns None.
Proof.
  destruct (build_makes_a_service (R := string) (L := string) (S := string) (G := string)
              forwards web forwards_enumerates) as (Htcp & _ & Hhttp).
  destruct (Htcp tcp_no_service ∅ eq_refl) as [_ (lb & Hlb & Hbuild)].
  destruct (Hhttp http_no_service ∅ eq_refl) as [_ (lb2 & _ & Hbuild2)].
  rewrite Hbuild, Hbuild2. injection Hlb as <-. split; reflexivity.
Defined.

(** Instance of X28: the service [a] of the two, whose load balancer had
    been given the port 99. *)
Lemma build_success_sets_every_server_witness :
  exists svc l lb s rest port,
    Some (dynamic.mkTCPService (Some 1%positive) "svc-a") = Some svc
    /\ dynamic.tcp_LoadBalancer svc = Some l
    /\ snd (fst (nomad.buildTCPConfig forwards web (Some tcp_two_services)
                   tcp_two_load_balancers)) !! l = Some lb
    /\ dynamic.tcp_Servers lb = Some (s :: rest)
    /\ dynamic.tcp_Port s = "" /\ port <> ""
    /\ dynamic.tcp_Address s = net.JoinHostPort "10.0.0.1" port.
Proof.
  destruct (build_success_sets_every_server (R := string) (L := string) (S := string)
              (G := string) forwards web forwards_enumerates) as (Htcp & _ & _).
  destruct (Htcp tcp_two_services tcp_two_services tcp_two_load_balancers
              (snd (fst (nomad.buildTCPConfig forwards web (Some tcp_two_services)
                           tcp_two_load_balancers))))
    as (_ & _ & _ & Hall); [vm_compute; reflexivity |].
  exact (Hall "a" (Some (dynamic.mkTCPService (Some 1%positive) "svc-a")) eq_refl).
Defined.

(** Instance of X29: the two services and an item without an address; the
    function returns an error. *)
Lemma build_returns_on_sound_input_witness :
  snd (nomad.buildTCPConfig forwards homeless (Some tcp_two_services)
         tcp_two_load_balancers) <> Panics
  /\ snd (nomad.buildTCPConfig forwards homeless (Some tcp_two_services)
            tcp_two_load_balancers)
     = Returns (Some (errorString "address is missing")).
Proof.
  destruct (build_returns_on_sound_input (R := string) (L := string) (S := string)
              (G := string) forwards homeless) as (Htcp & _ & _).
  split; [| vm_compute; reflexivity].
  apply Htcp. intros name service Hm.
  unfold tcp_two_services in Hm. cbn [dynamic.tcp_Services] in Hm.
  apply lookup_insert_Some in Hm as [[_ <-] | [_ Hm]].
  - eexists. split; [reflexivity |]. intros l [= <-]. by eexists.
  - apply lookup_insert_Some in Hm as [[_ <-] | [_ Hm]]; [| done].
    eexists. split; [reflexivity |]. intros l [= <-]. by eexists.
Defined.

(** Instance of X30: the load balancer whose first server had been given
    the port 99, held by two services; the address ends in the port of the
    item. *)
Lemma shared_load_balancer_gets_the_port_of_the_item_witness :
  exists lb s rest,
    snd (fst (nomad.buildTCPConfig forwards web (Some tcp_shared_services)
                tcp_two_load_balancers)) !! 1%positive = Some lb
    /\ dynamic.tcp_Servers lb = Some (s :: rest)
    /\ dynamic.tcp_Port s = ""
    /\ dynamic.tcp_Address s = net.JoinHostPort "10.0.0.1" (strconv.Itoa 8080).
Proof.
  refine (proj2 (shared_load_balancer_gets_the_port_of_the_item forwards web
                   tcp_shared_services tcp_shared_services tcp_two_load_balancers
                   (snd (fst (nomad.buildTCPConfig forwards web (Some tcp_shared_services)
                                tcp_two_load_balancers)))
                   "a" "b" (dynamic.mkTCPService (Some 1%positive) "svc-a")
                   (dynamic.mkTCPService (Some 1%positive) "svc-b") 1%positive
                   forwards_enumerates _ eq_refl eq_refl eq_refl eq_refl _)).
  - discriminate.
  - vm_compute. reflexivity.
Defined.
